(** * A shallow embedding of tools/strip_soundfont.py

    The SoundFont (.sf2) subsetting tool: the MIDI scanner, the record
    codecs ([from_bytes] / [to_bytes] of the dataclasses), [parse_sf2],
    [subset_sf2] and [write_sf2].

    Conventions of the embedding:
    - Python ints are [Z]; a byte is a [Z] in [0, 256); a [bytes] value is a
      [list Z]; a [str] is the list of its code points ([list Z]).
    - An exception raised by the code is an [Err] of the monad [res].
    - Python list indexing (including negative indices) is [py_get];
      slicing is [py_slice]; [range] is [zrange].
    - [subset_sf2] mutates the records of its input and puts the very same
      objects in its output; it is modelled with the input model as an
      explicit store, the output holding references (positions) into it. *)

From Stdlib Require Import ZArith List Lia Bool.
From Stdlib Require Import Sorting.Sorted.
From Stdlib Require String Ascii.
Import String.StringSyntax.
Delimit Scope string_scope with string.
Bind Scope string_scope with String.string.
Import ListNotations.
Open Scope Z_scope.

(** ** Python exceptions and the error monad *)

Inductive exn :=
| IndexError
| ValueError             (* list.index of an absent item *)
| StructError            (* struct.error *)
| AssertionError
| UnicodeDecodeError
| UnicodeEncodeError
| FuelExhausted.         (* loop fuel of the parser: never reached, see [parse_sf2] *)

Inductive res (A : Type) : Type :=
| Ok (a : A)
| Err (e : exn).
Arguments Ok {A} a.
Arguments Err {A} e.

Definition bind {A B} (m : res A) (k : A -> res B) : res B :=
  match m with Ok a => k a | Err e => Err e end.

Notation "'let*' x ':=' m 'in' k" := (bind m (fun x => k))
  (at level 200, x name, m at level 100, k at level 200).
Notation "'let*' ' p ':=' m 'in' k" := (bind m (fun x => match x with p => k end))
  (at level 200, p pattern, m at level 100, k at level 200).

(** [for x in l: body] threading an accumulator. *)
Fixpoint foldM {A B} (f : A -> B -> res A) (acc : A) (l : list B) : res A :=
  match l with
  | [] => Ok acc
  | x :: t => let* acc' := f acc x in foldM f acc' t
  end.

Fixpoint mapM {A B} (f : A -> res B) (l : list A) : res (list B) :=
  match l with
  | [] => Ok []
  | x :: t => let* y := f x in let* ys := mapM f t in Ok (y :: ys)
  end.

(** ** Python sequences *)

Definition zlen {A} (l : list A) : Z := Z.of_nat (length l).

(** The position a Python index [i] denotes in a list of length [n]. *)
Definition py_norm (n i : Z) : option Z :=
  if (0 <=? i) && (i <? n) then Some i
  else if (i <? 0) && (0 <=? n + i) then Some (n + i)
  else None.

(** [l[i]] *)
Definition py_get {A} (l : list A) (i : Z) : res A :=
  match py_norm (zlen l) i with
  | Some j => match nth_error l (Z.to_nat j) with
              | Some x => Ok x
              | None => Err IndexError
              end
  | None => Err IndexError
  end.

(** [l[i] = v] at a position already known to be valid. *)
Fixpoint set_nth {A} (n : nat) (v : A) (l : list A) : list A :=
  match l, n with
  | [], _ => []
  | _ :: t, O => v :: t
  | x :: t, S n' => x :: set_nth n' v t
  end.

(** [range(a, b)] *)
Definition zrange (a b : Z) : list Z :=
  map (fun k => a + Z.of_nat k) (seq 0 (Z.to_nat (b - a))).

(** Python's clamping of a slice bound. *)
Definition slice_bound (n i : Z) : Z :=
  if i <? 0 then Z.max 0 (n + i) else Z.min i n.

(** [l[a:b]] *)
Definition py_slice {A} (l : list A) (a b : Z) : list A :=
  let n := zlen l in
  let a' := slice_bound n a in
  let b' := slice_bound n b in
  firstn (Z.to_nat (b' - a')) (skipn (Z.to_nat a') l).

(** An ASCII literal as the list of its codes. *)
Definition bstr (s : String.string) : list Z :=
  map (fun c => Z.of_nat (Ascii.nat_of_ascii c)) (String.list_ascii_of_string s).

Fixpoint zlist_eqb (a b : list Z) : bool :=
  match a, b with
  | [], [] => true
  | x :: a', y :: b' => (x =? y) && zlist_eqb a' b'
  | _, _ => false
  end.

(** Sets of ints ([set()] with [add], iterated and [sorted]) as sorted
    lists without duplicates. *)
Fixpoint zset_add (x : Z) (s : list Z) : list Z :=
  match s with
  | [] => [x]
  | y :: t => if x =? y then s else if x <? y then x :: s else y :: zset_add x t
  end.

Definition zset_mem (x : Z) (s : list Z) : bool := existsb (Z.eqb x) s.

(** ** The struct module (little-endian, standard sizes) *)

Fixpoint le_bytes (n : nat) (x : Z) : list Z :=
  match n with
  | O => []
  | S n' => Z.land x 255 :: le_bytes n' (Z.shiftr x 8)
  end.

Fixpoint le_val (l : list Z) : Z :=
  match l with
  | [] => 0
  | b :: t => b + 256 * le_val t
  end.

(** ['<B'], ['<H'], ['<I'] / ['<L'] with [n] = 1, 2, 4 bytes. *)
Definition pack_u (n : nat) (x : Z) : res (list Z) :=
  if (0 <=? x) && (x <? 2 ^ (8 * Z.of_nat n)) then Ok (le_bytes n x) else Err StructError.

(** ['<h'] *)
Definition pack_s16 (x : Z) : res (list Z) :=
  if (-32768 <=? x) && (x <? 32768) then Ok (le_bytes 2 (x mod 65536)) else Err StructError.

Definition s16_of (v : Z) : Z := if v <? 32768 then v else v - 65536.

(** [struct.unpack] checks the buffer size first. *)
Definition unpack_check (size : nat) (d : list Z) : res unit :=
  if Nat.eqb (length d) size then Ok tt else Err StructError.

(** The [k]-byte field at byte offset [o]. *)
Definition field (d : list Z) (o k : nat) : Z := le_val (firstn k (skipn o d)).

(** [b''.join(...)] of packed pieces. *)
Definition cat (l : list (list Z)) : list Z := concat l.

(** ** Text codecs of the record names *)

(** [data[0:20].rstrip(b'\x00').decode('latin-1')] *)
Fixpoint lstrip0 (l : list Z) : list Z :=
  match l with
  | 0 :: t => lstrip0 t
  | _ => l
  end.

Definition rstrip0 (l : list Z) : list Z := rev (lstrip0 (rev l)).

Definition decode_name (d : list Z) : list Z := rstrip0 (firstn 20 d).

(** [self.name.encode('latin-1')[:20].ljust(20, b'\x00')] *)
Definition encode_name (name : list Z) : res (list Z) :=
  if forallb (fun c => (0 <=? c) && (c <? 256)) name then
    let b := firstn 20 name in
    Ok (b ++ repeat 0 (20 - length b))
  else Err UnicodeEncodeError.

(** ** The record dataclasses and their codecs *)

(** [SF2Sample] (shdr, 46 bytes); [new_index], [new_start] and [new_end] are
    the runtime fields, with their defaults [-1], [0], [0]. *)
Module SF2Sample.
Record t := mk {
  name : list Z; start : Z; end_ : Z; loop_start : Z; loop_end : Z;
  sample_rate : Z; original_pitch : Z; pitch_correction : Z;
  sample_link : Z; sample_type : Z;
  new_index : Z; new_start : Z; new_end : Z }.

(** The dataclass constructor with the runtime fields defaulted. *)
Definition make n a b c d e f g h i : t := mk n a b c d e f g h i (-1) 0 0.

Definition from_bytes (data : list Z) : res t :=
  let nm := decode_name data in
  let v := py_slice data 20 46 in
  let* _ := unpack_check 26 v in
  Ok (make nm (field v 0 4) (field v 4 4) (field v 8 4) (field v 12 4)
        (field v 16 4) (field v 20 1) (field v 21 1) (field v 22 2) (field v 24 2)).

Definition to_bytes (s : t) : res (list Z) :=
  let* nb := encode_name (name s) in
  let* b1 := pack_u 4 (new_start s) in
  let* b2 := pack_u 4 (new_end s) in
  let* b3 := pack_u 4 (new_start s + (loop_start s - start s)) in
  let* b4 := pack_u 4 (new_start s + (loop_end s - start s)) in
  let* b5 := pack_u 4 (sample_rate s) in
  let* b6 := pack_u 1 (original_pitch s) in
  let* b7 := pack_u 1 (pitch_correction s) in
  let* b8 := pack_u 2 (sample_link s) in
  let* b9 := pack_u 2 (sample_type s) in
  Ok (nb ++ b1 ++ b2 ++ b3 ++ b4 ++ b5 ++ b6 ++ b7 ++ b8 ++ b9).

(** Attribute assignments of [subset_sf2]. *)
Definition set_new (s : t) (ni ns ne : Z) : t :=
  mk (name s) (start s) (end_ s) (loop_start s) (loop_end s) (sample_rate s)
     (original_pitch s) (pitch_correction s) (sample_link s) (sample_type s) ni ns ne.
Definition set_sample_link (s : t) (l : Z) : t :=
  mk (name s) (start s) (end_ s) (loop_start s) (loop_end s) (sample_rate s)
     (original_pitch s) (pitch_correction s) l (sample_type s)
     (new_index s) (new_start s) (new_end s).
End SF2Sample.

(** [SF2Generator] (pgen/igen, 4 bytes). *)
Module SF2Generator.
Record t := mk { oper : Z; amount : Z }.
Definition from_bytes (data : list Z) : res t :=
  let* _ := unpack_check 4 data in Ok (mk (field data 0 2) (field data 2 2)).
Definition to_bytes (g : t) : res (list Z) :=
  let* b1 := pack_u 2 (oper g) in let* b2 := pack_u 2 (amount g) in Ok (b1 ++ b2).
End SF2Generator.

(** [SF2Modulator] (pmod/imod, 10 bytes, format ['<HHhHH']). *)
Module SF2Modulator.
Record t := mk { src : Z; dest : Z; amount : Z; amt_src : Z; transform : Z }.
Definition from_bytes (data : list Z) : res t :=
  let* _ := unpack_check 10 data in
  Ok (mk (field data 0 2) (field data 2 2) (s16_of (field data 4 2))
         (field data 6 2) (field data 8 2)).
Definition to_bytes (m : t) : res (list Z) :=
  let* b1 := pack_u 2 (src m) in let* b2 := pack_u 2 (dest m) in
  let* b3 := pack_s16 (amount m) in let* b4 := pack_u 2 (amt_src m) in
  let* b5 := pack_u 2 (transform m) in Ok (b1 ++ b2 ++ b3 ++ b4 ++ b5).
End SF2Modulator.

(** [SF2Bag] (pbag/ibag, 4 bytes). *)
Module SF2Bag.
Record t := mk { gen_idx : Z; mod_idx : Z }.
Definition from_bytes (data : list Z) : res t :=
  let* _ := unpack_check 4 data in Ok (mk (field data 0 2) (field data 2 2)).
Definition to_bytes (b : t) : res (list Z) :=
  let* b1 := pack_u 2 (gen_idx b) in let* b2 := pack_u 2 (mod_idx b) in Ok (b1 ++ b2).
End SF2Bag.

(** [SF2Inst] (inst, 22 bytes); runtime fields [new_index] (default -1) and
    [new_bag_idx] (default 0). *)
Module SF2Inst.
Record t := mk { name : list Z; bag_idx : Z; new_index : Z; new_bag_idx : Z }.
Definition make n b : t := mk n b (-1) 0.
Definition from_bytes (data : list Z) : res t :=
  let nm := decode_name data in
  let v := py_slice data 20 22 in
  let* _ := unpack_check 2 v in
  Ok (make nm (field v 0 2)).
Definition to_bytes (i : t) : res (list Z) :=
  let* nb := encode_name (name i) in
  let* b := pack_u 2 (new_bag_idx i) in Ok (nb ++ b).
Definition set_new (i : t) (ni nb : Z) : t := mk (name i) (bag_idx i) ni nb.
End SF2Inst.

(** [SF2Preset] (phdr, 38 bytes); runtime field [new_bag_idx] (default 0). *)
Module SF2Preset.
Record t := mk {
  name : list Z; preset : Z; bank : Z; bag_idx : Z;
  library : Z; genre : Z; morphology : Z; new_bag_idx : Z }.
Definition make n p b bi l g m : t := mk n p b bi l g m 0.
Definition from_bytes (data : list Z) : res t :=
  let nm := decode_name data in
  let v := py_slice data 20 38 in
  let* _ := unpack_check 18 v in
  Ok (make nm (field v 0 2) (field v 2 2) (field v 4 2)
        (field v 6 4) (field v 10 4) (field v 14 4)).
Definition to_bytes (p : t) : res (list Z) :=
  let* nb := encode_name (name p) in
  let* b1 := pack_u 2 (preset p) in let* b2 := pack_u 2 (bank p) in
  let* b3 := pack_u 2 (new_bag_idx p) in let* b4 := pack_u 4 (library p) in
  let* b5 := pack_u 4 (genre p) in let* b6 := pack_u 4 (morphology p) in
  Ok (nb ++ b1 ++ b2 ++ b3 ++ b4 ++ b5 ++ b6).
(** The dataclass [__eq__]: all fields, runtime field included. *)
Definition eqb (p q : t) : bool :=
  zlist_eqb (name p) (name q) && (preset p =? preset q) && (bank p =? bank q)
  && (bag_idx p =? bag_idx q) && (library p =? library q) && (genre p =? genre q)
  && (morphology p =? morphology q) && (new_bag_idx p =? new_bag_idx q).
Definition set_new_bag_idx (p : t) (nb : Z) : t :=
  mk (name p) (preset p) (bank p) (bag_idx p) (library p) (genre p) (morphology p) nb.
End SF2Preset.

(** [SF2File]; [info_chunks] is the dict as its list of items in insertion
    order. *)
Module SF2File.
Record t := mk {
  info_chunks : list (list Z * list Z);
  sample_data : list Z; sample_data_24 : list Z;
  presets : list SF2Preset.t; preset_bags : list SF2Bag.t;
  preset_mods : list SF2Modulator.t; preset_gens : list SF2Generator.t;
  instruments : list SF2Inst.t; inst_bags : list SF2Bag.t;
  inst_mods : list SF2Modulator.t; inst_gens : list SF2Generator.t;
  samples : list SF2Sample.t }.

(** [SF2File()] *)
Definition empty : t := mk [] [] [] [] [] [] [] [] [] [] [] [].
End SF2File.

(** ** subset_sf2 *)

Definition GEN_INSTRUMENT : Z := 41.
Definition GEN_SAMPLE_ID : Z := 53.

(** [dict] lookups of the old-to-new index maps (keys are distinct). *)
Fixpoint lookup (k : Z) (m : list (Z * Z)) : option Z :=
  match m with
  | [] => None
  | (k', v) :: t => if k =? k' then Some v else lookup k t
  end.

(** [sf2.presets.index(preset)]: the first position holding an equal record. *)
Fixpoint index_from (p : SF2Preset.t) (l : list SF2Preset.t) (i : Z) : res Z :=
  match l with
  | [] => Err ValueError
  | q :: t => if SF2Preset.eqb q p then Ok i else index_from p t (i + 1)
  end.
Definition list_index (l : list SF2Preset.t) (p : SF2Preset.t) : res Z := index_from p l 0.

(** [bags[bag_idx + 1].gen_idx if bag_idx + 1 < len(bags) else len(gens)] *)
Definition gen_end_of (bags : list SF2Bag.t) (ngens bag_idx : Z) : res Z :=
  if bag_idx + 1 <? zlen bags then
    let* b := py_get bags (bag_idx + 1) in Ok (SF2Bag.gen_idx b)
  else Ok ngens.

(** [bags[bag_idx + 1].mod_idx if bag_idx + 1 < len(bags) else len(mods)] *)
Definition mod_end_of (bags : list SF2Bag.t) (nmods bag_idx : Z) : res Z :=
  if bag_idx + 1 <? zlen bags then
    let* b := py_get bags (bag_idx + 1) in Ok (SF2Bag.mod_idx b)
  else Ok nmods.

(** The walk of the first pass over a bag range and the generator ranges of
    its bags, feeding every generator to [visit]. *)
Definition walk_zones {A} (bags : list SF2Bag.t) (gens : list SF2Generator.t)
    (visit : A -> SF2Generator.t -> res A) (acc : A) (bag_start bag_end : Z) : res A :=
  foldM (fun acc bag_idx =>
      let* bag := py_get bags bag_idx in
      let* gen_end := gen_end_of bags (zlen gens) bag_idx in
      foldM (fun acc gen_idx =>
          let* gen := py_get gens gen_idx in visit acc gen)
        acc (zrange (SF2Bag.gen_idx bag) gen_end))
    acc (zrange bag_start bag_end).

(** Positions of [sf2.presets[:-1]] whose [(bank, preset)] is wanted. *)
Definition wanted (needed : list (Z * Z)) (p : SF2Preset.t) : bool :=
  existsb (fun '(b, q) => (b =? SF2Preset.bank p) && (q =? SF2Preset.preset p)) needed.

Definition kept_presets (sf2 : SF2File.t) (needed : list (Z * Z)) : list Z :=
  let ps := SF2File.presets sf2 in
  filter (fun i => match nth_error ps (Z.to_nat i) with
                   | Some p => wanted needed p
                   | None => false
                   end)
    (zrange 0 (zlen ps - 1)).

(** First pass, presets: [kept_inst_indices]. *)
Definition collect_insts (sf2 : SF2File.t) (kept : list Z) : res (list Z) :=
  let ps := SF2File.presets sf2 in
  foldM (fun acc pos =>
      let* preset := py_get ps pos in
      let* idx := list_index ps preset in
      let* nxt := py_get ps (idx + 1) in
      walk_zones (SF2File.preset_bags sf2) (SF2File.preset_gens sf2)
        (fun acc gen => Ok (if SF2Generator.oper gen =? GEN_INSTRUMENT
                            then zset_add (SF2Generator.amount gen) acc else acc))
        acc (SF2Preset.bag_idx preset) (SF2Preset.bag_idx nxt))
    [] kept.

(** One sample-reference generator of the first pass: the sample and, if
    [sample.sample_link and sample.sample_link < len(sf2.samples)], its link. *)
Definition visit_sample_gen (samples : list SF2Sample.t) (acc : list Z)
    (gen : SF2Generator.t) : res (list Z) :=
  if SF2Generator.oper gen =? GEN_SAMPLE_ID then
    let sample_idx := SF2Generator.amount gen in
    let acc := zset_add sample_idx acc in
    let* sample := py_get samples sample_idx in
    let l := SF2Sample.sample_link sample in
    Ok (if negb (l =? 0) && (l <? zlen samples) then zset_add l acc else acc)
  else Ok acc.

(** First pass, instruments: [kept_sample_indices].  The loop runs over a
    Python set; its order does not matter, as the body only adds to a set. *)
Definition collect_samples (sf2 : SF2File.t) (kept_insts : list Z) : res (list Z) :=
  let is := SF2File.instruments sf2 in
  foldM (fun acc inst_idx =>
      let* inst := py_get is inst_idx in
      let* bag_end :=
        (if inst_idx + 1 <? zlen is then
           let* n := py_get is (inst_idx + 1) in Ok (SF2Inst.bag_idx n)
         else Ok (zlen (SF2File.inst_bags sf2))) in
      walk_zones (SF2File.inst_bags sf2) (SF2File.inst_gens sf2)
        (visit_sample_gen (SF2File.samples sf2)) acc (SF2Inst.bag_idx inst) bag_end)
    [] kept_insts.

(** Second pass, samples: each kept sample (ascending original index) gets
    its [new_index], [new_start] and [new_end] set in place, its frames
    [sample_data[start*2:end*2]] are appended to [new_sample_data], and the
    object is appended to [out.samples] (a reference to its position). *)
Definition build_samples (sf2 : SF2File.t) (sorted_idx : list Z)
  : res (list SF2Sample.t * list Z * list Z * list (Z * Z)) :=
  let* '(ss, nsd, refs, smap, _) :=
    foldM (fun '(ss, nsd, refs, smap, new_idx) old_idx =>
        match py_norm (zlen ss) old_idx with
        | None => Err IndexError
        | Some pos =>
          let* sample := py_get ss old_idx in
          let new_start := zlen nsd / 2 in
          let nsd' := nsd ++ py_slice (SF2File.sample_data sf2)
                                (SF2Sample.start sample * 2) (SF2Sample.end_ sample * 2) in
          let sample' := SF2Sample.set_new sample new_idx new_start (zlen nsd' / 2) in
          Ok (set_nth (Z.to_nat pos) sample' ss, nsd', refs ++ [pos],
              smap ++ [(old_idx, new_idx)], new_idx + 1)
        end)
      (SF2File.samples sf2, [], [], [], 0) sorted_idx in
  Ok (ss, nsd, refs, smap).

Definition deref {A} (d : A) (l : list A) (r : Z) : A := nth (Z.to_nat r) l d.

Definition EOS (n : Z) : SF2Sample.t :=
  SF2Sample.mk (bstr "EOS"%string) 0 0 0 0 0 0 0 0 0 (-1) n n.

(** [for sample in out.samples[:-1]]: the link of every output sample is
    rewritten in place through the sample map, or reset to 0. *)
Definition relink (ss : list SF2Sample.t) (smap : list (Z * Z)) (refs : list Z)
  : list SF2Sample.t :=
  fold_left (fun ss pos =>
      let s := deref (EOS 0) ss pos in
      let l := match lookup (SF2Sample.sample_link s) smap with
               | Some v => v
               | None => 0
               end in
      set_nth (Z.to_nat pos) (SF2Sample.set_sample_link s l) ss)
    refs ss.

(** Second pass over one owner's bag range: fresh bags, copied generators
    (the reference operator [ref_oper] remapped through [m] when its amount
    is a key of [m]) and the copied modulators. *)
Definition copy_zones (bags : list SF2Bag.t) (gens : list SF2Generator.t)
    (mods : list SF2Modulator.t) (ref_oper : Z) (m : list (Z * Z))
    (acc : list SF2Bag.t * list SF2Generator.t * list SF2Modulator.t)
    (bag_start bag_end : Z)
  : res (list SF2Bag.t * list SF2Generator.t * list SF2Modulator.t) :=
  foldM (fun '(obags, ogens, omods) bag_idx =>
      let* old_bag := py_get bags bag_idx in
      let obags := obags ++ [SF2Bag.mk (zlen ogens) (zlen omods)] in
      let* gen_end := gen_end_of bags (zlen gens) bag_idx in
      let* ogens :=
        foldM (fun ogens gen_idx =>
            let* gen := py_get gens gen_idx in
            let amt :=
              if SF2Generator.oper gen =? ref_oper then
                match lookup (SF2Generator.amount gen) m with
                | Some v => v
                | None => SF2Generator.amount gen
                end
              else SF2Generator.amount gen in
            Ok (ogens ++ [SF2Generator.mk (SF2Generator.oper gen) amt]))
          ogens (zrange (SF2Bag.gen_idx old_bag) gen_end) in
      let* mod_end := mod_end_of bags (zlen mods) bag_idx in
      let* omods :=
        foldM (fun omods mod_idx =>
            let* md := py_get mods mod_idx in Ok (omods ++ [md]))
          omods (zrange (SF2Bag.mod_idx old_bag) mod_end) in
      Ok (obags, ogens, omods))
    acc (zrange bag_start bag_end).

Definition zones_nil : list SF2Bag.t * list SF2Generator.t * list SF2Modulator.t :=
  ([], [], []).

(** Second pass, instruments (ascending original index). *)
Definition build_insts (sf2 : SF2File.t) (smap : list (Z * Z)) (sorted_idx : list Z)
  : res (list SF2Inst.t * list Z
         * (list SF2Bag.t * list SF2Generator.t * list SF2Modulator.t)
         * list (Z * Z) * Z) :=
  foldM (fun '(is, refs, zones, imap, new_idx) old_idx =>
      match py_norm (zlen is) old_idx with
      | None => Err IndexError
      | Some pos =>
        let* inst := py_get is old_idx in
        let '(obags, _, _) := zones in
        let inst' := SF2Inst.set_new inst new_idx (zlen obags) in
        let is := set_nth (Z.to_nat pos) inst' is in
        let* nxt := py_get is (old_idx + 1) in
        let* zones := copy_zones (SF2File.inst_bags sf2) (SF2File.inst_gens sf2)
                        (SF2File.inst_mods sf2) GEN_SAMPLE_ID smap zones
                        (SF2Inst.bag_idx inst') (SF2Inst.bag_idx nxt) in
        Ok (is, refs ++ [pos], zones, imap ++ [(old_idx, new_idx)], new_idx + 1)
      end)
    (SF2File.instruments sf2, [], zones_nil, [], 0) sorted_idx.

(** Second pass, presets (original order): [preset.new_bag_idx] is set in
    place before [sf2.presets.index(preset)] looks the record up again. *)
Definition build_presets (sf2 : SF2File.t) (imap : list (Z * Z)) (kept : list Z)
  : res (list SF2Preset.t * list Z
         * (list SF2Bag.t * list SF2Generator.t * list SF2Modulator.t)) :=
  foldM (fun '(ps, refs, zones) pos =>
      let* preset := py_get ps pos in
      let '(obags, _, _) := zones in
      let preset' := SF2Preset.set_new_bag_idx preset (zlen obags) in
      let ps := set_nth (Z.to_nat pos) preset' ps in
      let* preset_idx := list_index ps preset' in
      let* nxt := py_get ps (preset_idx + 1) in
      let* zones := copy_zones (SF2File.preset_bags sf2) (SF2File.preset_gens sf2)
                      (SF2File.preset_mods sf2) GEN_INSTRUMENT imap zones
                      (SF2Preset.bag_idx preset') (SF2Preset.bag_idx nxt) in
      Ok (ps, refs ++ [pos], zones))
    (SF2File.presets sf2, [], zones_nil) kept.

Definition EOI (nb : Z) : SF2Inst.t := SF2Inst.mk (bstr "EOI"%string) 0 (-1) nb.
Definition EOP (nb : Z) : SF2Preset.t := SF2Preset.mk (bstr "EOP"%string) 0 0 0 0 0 0 nb.
Definition gen0 : SF2Generator.t := SF2Generator.mk 0 0.
Definition mod0 : SF2Modulator.t := SF2Modulator.mk 0 0 0 0 0.

Definition no_match_warning : String.string := "Warning: No matching presets found!"%string.

(** [subset_sf2(sf2, needed_presets)] with its effects: the input model after
    the call (its preset, instrument and sample records mutated in place),
    the returned model, and the lines written to stderr.  (The verbose
    output to stdout is left out.) *)
Definition subset_sf2_st (sf2 : SF2File.t) (needed : list (Z * Z))
  : res (SF2File.t * SF2File.t * list String.string) :=
  match kept_presets sf2 needed with
  | [] =>
    Ok (sf2, SF2File.mk (SF2File.info_chunks sf2) [] [] [] [] [] [] [] [] [] [] [],
        [no_match_warning])
  | kept =>
    let* kept_insts := collect_insts sf2 kept in
    let* kept_samples := collect_samples sf2 kept_insts in
    let* '(ss, nsd, srefs, smap) := build_samples sf2 kept_samples in
    let ss := relink ss smap srefs in
    let eos := EOS (zlen nsd / 2) in
    let* '(is, irefs, (ibags, igens, imods), imap, _) := build_insts sf2 smap kept_insts in
    let eoi := EOI (zlen ibags) in
    let* '(ps, prefs, (pbags, pgens, pmods)) := build_presets sf2 imap kept in
    let eop := EOP (zlen pbags) in
    let input' :=
      SF2File.mk (SF2File.info_chunks sf2) (SF2File.sample_data sf2)
        (SF2File.sample_data_24 sf2) ps (SF2File.preset_bags sf2)
        (SF2File.preset_mods sf2) (SF2File.preset_gens sf2) is
        (SF2File.inst_bags sf2) (SF2File.inst_mods sf2) (SF2File.inst_gens sf2) ss in
    let out :=
      SF2File.mk (SF2File.info_chunks sf2) nsd []
        (map (deref eop ps) prefs ++ [eop])
        (pbags ++ [SF2Bag.mk (zlen pgens) (zlen pmods)]) (pmods ++ [mod0]) (pgens ++ [gen0])
        (map (deref eoi is) irefs ++ [eoi])
        (ibags ++ [SF2Bag.mk (zlen igens) (zlen imods)]) (imods ++ [mod0]) (igens ++ [gen0])
        (map (deref eos ss) srefs ++ [eos]) in
    Ok (input', out, [])
  end.

(** The value [subset_sf2] returns. *)
Definition subset_sf2 (sf2 : SF2File.t) (needed : list (Z * Z)) : res SF2File.t :=
  let* '(_, out, _) := subset_sf2_st sf2 needed in Ok out.

(** ** write_sf2 *)

(** [struct.pack('<I', len(data))] *)
Definition pack_len (d : list Z) : res (list Z) := pack_u 4 (zlen d).

Definition pad (d : list Z) : list Z := if Z.odd (zlen d) then [0] else [].

(** [chunk_id.encode('ascii')] *)
Definition encode_ascii (s : list Z) : res (list Z) :=
  if forallb (fun c => (0 <=? c) && (c <? 128)) s then Ok s else Err UnicodeEncodeError.

(** [write_chunk(f, chunk_id, data)]: the bytes it writes. *)
Definition write_chunk (chunk_id : list Z) (data : list Z) : res (list Z) :=
  let* sz := pack_len data in Ok (chunk_id ++ sz ++ data ++ pad data).

(** The INFO list body. *)
Definition info_data (sf2 : SF2File.t) : res (list Z) :=
  foldM (fun acc '(chunk_id, chunk_bytes) =>
      let* idb := encode_ascii chunk_id in
      let* sz := pack_len chunk_bytes in
      Ok (acc ++ idb ++ sz ++ chunk_bytes ++ pad chunk_bytes))
    [] (SF2File.info_chunks sf2).

(** The sdta list body: the [smpl] sub-chunk only. *)
Definition sdta_data (sf2 : SF2File.t) : res (list Z) :=
  let d := SF2File.sample_data sf2 in
  let* sz := pack_len d in
  Ok (bstr "smpl"%string ++ sz ++ d ++ pad d).

(** One pdta sub-chunk: [tag + struct.pack('<I', len(bytes)) + bytes]. *)
Definition pdta_sub {A} (tag : String.string) (to_bytes : A -> res (list Z)) (l : list A)
  : res (list Z) :=
  let* parts := mapM to_bytes l in
  let b := cat parts in
  let* sz := pack_len b in
  Ok (bstr tag ++ sz ++ b).

Definition pdta_data (sf2 : SF2File.t) : res (list Z) :=
  let* phdr := pdta_sub "phdr" SF2Preset.to_bytes (SF2File.presets sf2) in
  let* pbag := pdta_sub "pbag" SF2Bag.to_bytes (SF2File.preset_bags sf2) in
  let* pmod := pdta_sub "pmod" SF2Modulator.to_bytes (SF2File.preset_mods sf2) in
  let* pgen := pdta_sub "pgen" SF2Generator.to_bytes (SF2File.preset_gens sf2) in
  let* inst := pdta_sub "inst" SF2Inst.to_bytes (SF2File.instruments sf2) in
  let* ibag := pdta_sub "ibag" SF2Bag.to_bytes (SF2File.inst_bags sf2) in
  let* imod := pdta_sub "imod" SF2Modulator.to_bytes (SF2File.inst_mods sf2) in
  let* igen := pdta_sub "igen" SF2Generator.to_bytes (SF2File.inst_gens sf2) in
  let* shdr := pdta_sub "shdr" SF2Sample.to_bytes (SF2File.samples sf2) in
  Ok (phdr ++ pbag ++ pmod ++ pgen ++ inst ++ ibag ++ imod ++ igen ++ shdr).

Definition list_size (l : list Z) : Z := 8 + zlen l + (if Z.odd (zlen l) then 1 else 0).

(** [write_sf2(sf2, filepath)]: the content of the written file. *)
Definition write_sf2 (sf2 : SF2File.t) : res (list Z) :=
  let* info := info_data sf2 in
  let* sdta := sdta_data sf2 in
  let* pdta := pdta_data sf2 in
  let info_list := bstr "INFO" ++ info in
  let sdta_list := bstr "sdta" ++ sdta in
  let pdta_list := bstr "pdta" ++ pdta in
  let total_size := 4 + list_size info_list + list_size sdta_list + list_size pdta_list in
  let* ts := pack_u 4 total_size in
  let* c1 := write_chunk (bstr "LIST") info_list in
  let* c2 := write_chunk (bstr "LIST") sdta_list in
  let* c3 := write_chunk (bstr "LIST") pdta_list in
  Ok (bstr "RIFF" ++ ts ++ bstr "sfbk" ++ c1 ++ c2 ++ c3).

(** ** MIDI scanning *)

Fixpoint pair_mem (x : Z * Z) (s : list (Z * Z)) : bool :=
  match s with
  | [] => false
  | (a, b) :: t => ((fst x =? a) && (snd x =? b)) || pair_mem x t
  end.

(** [set.add] on a set of pairs. *)
Definition pair_add (x : Z * Z) (s : list (Z * Z)) : list (Z * Z) :=
  if pair_mem x s then s else s ++ [x].

(** The scanning loop of [scan_midi_for_programs] from position [i] on,
    given [data[i:]]; it runs while [i < len(data) - 1]. *)
Fixpoint scan_loop (l : list Z) (programs : list (Z * Z)) (note_channels : list Z)
  : list (Z * Z) * list Z :=
  match l with
  | byte :: rest =>
    match rest with
    | [] => (programs, note_channels)
    | nxt :: rest2 =>
      if (192 <=? byte) && (byte <=? 207) then
        (* program change 0xCn pp: i += 2 *)
        let channel := Z.land byte 15 in
        let programs := if nxt <? 128 then pair_add (channel, nxt) programs else programs in
        scan_loop rest2 programs note_channels
      else if (144 <=? byte) && (byte <=? 159) then
        (* note on 0x9n kk vv: i += 3 *)
        let note_channels := zset_add (Z.land byte 15) note_channels in
        match rest2 with
        | [] => (programs, note_channels)
        | _ :: rest3 => scan_loop rest3 programs note_channels
        end
      else scan_loop rest programs note_channels
    end
  | [] => (programs, note_channels)
  end.

(** [scan_midi_for_programs(filepath)] on the file's bytes. *)
Definition scan_midi_for_programs (data : list Z) : list (Z * Z) * list Z :=
  scan_loop data [] [].

(** [for channel, program in programs: if channel != 9: needed.add((0, program))] *)
Definition add_programs (programs : list (Z * Z)) (needed : list (Z * Z)) : list (Z * Z) :=
  fold_left (fun needed '(channel, program) =>
      if negb (channel =? 9) then pair_add (0, program) needed else needed)
    programs needed.

(** [scan_midi_directory(midi_dir)] on the contents of the [*.mid] files
    found by [rglob], in that order.  The loop over the [programs] set only
    adds to a set, so its order does not matter. *)
Definition scan_midi_directory (files : list (list Z)) : list (Z * Z) :=
  let '(needed, uses_drums) :=
    fold_left (fun '(needed, uses_drums) data =>
        let '(programs, channels) := scan_midi_for_programs data in
        (add_programs programs needed, uses_drums || zset_mem 9 channels))
      files ([], false) in
  if uses_drums then pair_add (128, 0) needed else needed.

(** ** parse_sf2 *)

Module Upd.
Import SF2File.
(** [sf2.info_chunks[k] = v]: a present key keeps its place. *)
Fixpoint dict_set (k v : list Z) (d : list (list Z * list Z)) : list (list Z * list Z) :=
  match d with
  | [] => [(k, v)]
  | (k', v') :: t => if zlist_eqb k k' then (k', v) :: t else (k', v') :: dict_set k v t
  end.
Definition set_info (m : t) k v : t :=
  mk (dict_set k v (info_chunks m)) (sample_data m) (sample_data_24 m) (presets m)
     (preset_bags m) (preset_mods m) (preset_gens m) (instruments m) (inst_bags m)
     (inst_mods m) (inst_gens m) (samples m).
Definition set_sample_data (m : t) d : t :=
  mk (info_chunks m) d (sample_data_24 m) (presets m) (preset_bags m) (preset_mods m)
     (preset_gens m) (instruments m) (inst_bags m) (inst_mods m) (inst_gens m) (samples m).
Definition set_sample_data_24 (m : t) d : t :=
  mk (info_chunks m) (sample_data m) d (presets m) (preset_bags m) (preset_mods m)
     (preset_gens m) (instruments m) (inst_bags m) (inst_mods m) (inst_gens m) (samples m).
Definition add_presets (m : t) l : t :=
  mk (info_chunks m) (sample_data m) (sample_data_24 m) (presets m ++ l) (preset_bags m)
     (preset_mods m) (preset_gens m) (instruments m) (inst_bags m) (inst_mods m)
     (inst_gens m) (samples m).
Definition add_preset_bags (m : t) l : t :=
  mk (info_chunks m) (sample_data m) (sample_data_24 m) (presets m) (preset_bags m ++ l)
     (preset_mods m) (preset_gens m) (instruments m) (inst_bags m) (inst_mods m)
     (inst_gens m) (samples m).
Definition add_preset_mods (m : t) l : t :=
  mk (info_chunks m) (sample_data m) (sample_data_24 m) (presets m) (preset_bags m)
     (preset_mods m ++ l) (preset_gens m) (instruments m) (inst_bags m) (inst_mods m)
     (inst_gens m) (samples m).
Definition add_preset_gens (m : t) l : t :=
  mk (info_chunks m) (sample_data m) (sample_data_24 m) (presets m) (preset_bags m)
     (preset_mods m) (preset_gens m ++ l) (instruments m) (inst_bags m) (inst_mods m)
     (inst_gens m) (samples m).
Definition add_instruments (m : t) l : t :=
  mk (info_chunks m) (sample_data m) (sample_data_24 m) (presets m) (preset_bags m)
     (preset_mods m) (preset_gens m) (instruments m ++ l) (inst_bags m) (inst_mods m)
     (inst_gens m) (samples m).
Definition add_inst_bags (m : t) l : t :=
  mk (info_chunks m) (sample_data m) (sample_data_24 m) (presets m) (preset_bags m)
     (preset_mods m) (preset_gens m) (instruments m) (inst_bags m ++ l) (inst_mods m)
     (inst_gens m) (samples m).
Definition add_inst_mods (m : t) l : t :=
  mk (info_chunks m) (sample_data m) (sample_data_24 m) (presets m) (preset_bags m)
     (preset_mods m) (preset_gens m) (instruments m) (inst_bags m) (inst_mods m ++ l)
     (inst_gens m) (samples m).
Definition add_inst_gens (m : t) l : t :=
  mk (info_chunks m) (sample_data m) (sample_data_24 m) (presets m) (preset_bags m)
     (preset_mods m) (preset_gens m) (instruments m) (inst_bags m) (inst_mods m)
     (inst_gens m ++ l) (samples m).
Definition add_samples (m : t) l : t :=
  mk (info_chunks m) (sample_data m) (sample_data_24 m) (presets m) (preset_bags m)
     (preset_mods m) (preset_gens m) (instruments m) (inst_bags m) (inst_mods m)
     (inst_gens m) (samples m ++ l).
End Upd.

(** [pdta_data[i:i+size]] for [i] in [range(0, len(pdta_data), size)]. *)
Fixpoint slices (fuel : nat) (size : nat) (d : list Z) : list (list Z) :=
  match fuel with
  | O => []
  | S fuel' =>
    match d with
    | [] => []
    | _ => firstn size d :: slices fuel' size (skipn size d)
    end
  end.

(** The records of a pdta sub-chunk, decoded one slice after the other. *)
Definition decode_records {A} (size : nat) (from_bytes : list Z -> res A) (d : list Z)
  : res (list A) :=
  mapM from_bytes (slices (length d) size d).

(** The [if pdta_id == ...] dispatch on one pdta sub-chunk. *)
Definition pdta_record (pdta_id pdta_data : list Z) (sf2 : SF2File.t) : res SF2File.t :=
  if zlist_eqb pdta_id (bstr "phdr") then
    let* l := decode_records 38 SF2Preset.from_bytes pdta_data in Ok (Upd.add_presets sf2 l)
  else if zlist_eqb pdta_id (bstr "pbag") then
    let* l := decode_records 4 SF2Bag.from_bytes pdta_data in Ok (Upd.add_preset_bags sf2 l)
  else if zlist_eqb pdta_id (bstr "pmod") then
    let* l := decode_records 10 SF2Modulator.from_bytes pdta_data in Ok (Upd.add_preset_mods sf2 l)
  else if zlist_eqb pdta_id (bstr "pgen") then
    let* l := decode_records 4 SF2Generator.from_bytes pdta_data in Ok (Upd.add_preset_gens sf2 l)
  else if zlist_eqb pdta_id (bstr "inst") then
    let* l := decode_records 22 SF2Inst.from_bytes pdta_data in Ok (Upd.add_instruments sf2 l)
  else if zlist_eqb pdta_id (bstr "ibag") then
    let* l := decode_records 4 SF2Bag.from_bytes pdta_data in Ok (Upd.add_inst_bags sf2 l)
  else if zlist_eqb pdta_id (bstr "imod") then
    let* l := decode_records 10 SF2Modulator.from_bytes pdta_data in Ok (Upd.add_inst_mods sf2 l)
  else if zlist_eqb pdta_id (bstr "igen") then
    let* l := decode_records 4 SF2Generator.from_bytes pdta_data in Ok (Upd.add_inst_gens sf2 l)
  else if zlist_eqb pdta_id (bstr "shdr") then
    let* l := decode_records 46 SF2Sample.from_bytes pdta_data in Ok (Upd.add_samples sf2 l)
  else Ok sf2.

(** [bytes.decode('ascii')] *)
Definition decode_ascii (b : list Z) : res (list Z) :=
  if forallb (fun c => c <? 128) b then Ok b else Err UnicodeDecodeError.

Section Parse.
(** The content of the file being parsed; the reader is its position. *)
Variable file : list Z.

(** [f.read(n)] at position [pos]: the bytes read and the new position. *)
Definition read (pos n : Z) : list Z * Z :=
  let d := firstn (Z.to_nat n) (skipn (Z.to_nat pos) file) in (d, pos + zlen d).

(** [if size % 2: f.read(1)] *)
Definition skip_pad (size pos : Z) : Z := if Z.odd size then snd (read pos 1) else pos.

(** [read_chunk_header(f)]: id, size and the new position. *)
Definition read_chunk_header (pos : Z) : res (list Z * Z * Z) :=
  let '(idb, pos) := read pos 4 in
  let* chunk_id := decode_ascii idb in
  let '(szb, pos) := read pos 4 in
  let* _ := unpack_check 4 szb in
  Ok (chunk_id, le_val szb, pos).

(** Loop fuel.  Every iteration of each [while] loop either raises or
    reads a complete 8-byte chunk header inside the file, so no loop runs
    more than [length file / 8 + 1] times and the fuel is never exhausted. *)
Definition fuel : nat := S (length file).

Fixpoint info_loop (n : nat) (list_end pos : Z) (sf2 : SF2File.t) : res (Z * SF2File.t) :=
  match n with
  | O => Err FuelExhausted
  | S n' =>
    if pos <? list_end then
      let* '(info_id, info_size, pos) := read_chunk_header pos in
      let '(info_data, pos) := read pos info_size in
      info_loop n' list_end (skip_pad info_size pos) (Upd.set_info sf2 info_id info_data)
    else Ok (pos, sf2)
  end.

Fixpoint sdta_loop (n : nat) (list_end pos : Z) (sf2 : SF2File.t) : res (Z * SF2File.t) :=
  match n with
  | O => Err FuelExhausted
  | S n' =>
    if pos <? list_end then
      let* '(sdta_id, sdta_size, pos) := read_chunk_header pos in
      let '(pos, sf2) :=
        if zlist_eqb sdta_id (bstr "smpl") then
          let '(d, pos) := read pos sdta_size in (pos, Upd.set_sample_data sf2 d)
        else if zlist_eqb sdta_id (bstr "sm24") then
          let '(d, pos) := read pos sdta_size in (pos, Upd.set_sample_data_24 sf2 d)
        else (pos + sdta_size, sf2) in
      sdta_loop n' list_end (skip_pad sdta_size pos) sf2
    else Ok (pos, sf2)
  end.

Fixpoint pdta_loop (n : nat) (list_end pos : Z) (sf2 : SF2File.t) : res (Z * SF2File.t) :=
  match n with
  | O => Err FuelExhausted
  | S n' =>
    if pos <? list_end then
      let* '(pdta_id, pdta_size, pos) := read_chunk_header pos in
      let '(pdta_data, pos) := read pos pdta_size in
      let pos := skip_pad pdta_size pos in
      let* sf2 := pdta_record pdta_id pdta_data sf2 in
      pdta_loop n' list_end pos sf2
    else Ok (pos, sf2)
  end.

Fixpoint riff_loop (n : nat) (end_pos pos : Z) (sf2 : SF2File.t) : res (Z * SF2File.t) :=
  match n with
  | O => Err FuelExhausted
  | S n' =>
    if pos <? end_pos then
      let* '(chunk_id, chunk_size, pos) := read_chunk_header pos in
      let chunk_start := pos in
      if zlist_eqb chunk_id (bstr "LIST") then
        let '(ltb, pos) := read pos 4 in
        let* list_type := decode_ascii ltb in
        let list_end := chunk_start + chunk_size in
        if zlist_eqb list_type (bstr "INFO") then
          let* '(pos, sf2) := info_loop fuel list_end pos sf2 in riff_loop n' end_pos pos sf2
        else if zlist_eqb list_type (bstr "sdta") then
          let* '(pos, sf2) := sdta_loop fuel list_end pos sf2 in riff_loop n' end_pos pos sf2
        else if zlist_eqb list_type (bstr "pdta") then
          let* '(pos, sf2) := pdta_loop fuel list_end pos sf2 in riff_loop n' end_pos pos sf2
        else riff_loop n' end_pos pos sf2
      else riff_loop n' end_pos (skip_pad chunk_size (pos + chunk_size)) sf2
    else Ok (pos, sf2)
  end.

(** [parse_sf2(filepath)] *)
Definition parse_sf2 : res SF2File.t :=
  let* '(riff_id, riff_size, pos) := read_chunk_header 0 in
  if negb (zlist_eqb riff_id (bstr "RIFF")) then Err AssertionError else
  let '(ftb, pos) := read pos 4 in
  let* form_type := decode_ascii ftb in
  if negb (zlist_eqb form_type (bstr "sfbk")) then Err AssertionError else
  let end_pos := pos + riff_size - 4 in
  let* '(_, sf2) := riff_loop fuel end_pos pos SF2File.empty in
  Ok sf2.
End Parse.

(** ** Predicates of the specification and concrete inputs *)

(** The referential-bounds invariant: instrument and sample references
    address a real (non-terminal) record. *)
Definition referential_bounds (sf2 : SF2File.t) : bool :=
  forallb (fun g => negb (SF2Generator.oper g =? GEN_INSTRUMENT)
                    || ((0 <=? SF2Generator.amount g)
                        && (SF2Generator.amount g <? zlen (SF2File.instruments sf2) - 1)))
    (SF2File.preset_gens sf2)
  && forallb (fun g => negb (SF2Generator.oper g =? GEN_SAMPLE_ID)
                       || ((0 <=? SF2Generator.amount g)
                           && (SF2Generator.amount g <? zlen (SF2File.samples sf2) - 1)))
    (SF2File.inst_gens sf2).

(** A record with the fields [subset_sf2] assigns reset: the runtime fields
    and, for a sample, its link. *)
Definition preset_fixed (p : SF2Preset.t) : SF2Preset.t := SF2Preset.set_new_bag_idx p 0.
Definition inst_fixed (i : SF2Inst.t) : SF2Inst.t := SF2Inst.set_new i 0 0.
Definition sample_fixed (s : SF2Sample.t) : SF2Sample.t :=
  SF2Sample.set_sample_link (SF2Sample.set_new s 0 0 0) 0.

(** [sf2.sample_data[sample.start*2:sample.end*2]] for [sample = sf2.samples[i]]. *)
Definition sample_frames (sf2 : SF2File.t) (i : Z) : list Z :=
  match py_get (SF2File.samples sf2) i with
  | Ok s => py_slice (SF2File.sample_data sf2) (SF2Sample.start s * 2) (SF2Sample.end_ s * 2)
  | Err _ => []
  end.

(** Every non-zero sample link addresses a non-terminal sample. *)
Definition links_in_bounds (sf2 : SF2File.t) : bool :=
  forallb (fun s => let l := SF2Sample.sample_link s in
                    (l =? 0) || ((0 <? l) && (l <? zlen (SF2File.samples sf2) - 1)))
    (SF2File.samples sf2).

(** Every item of a [bytes] value is in [0, 256). *)
Definition bytes_ok (d : list Z) : bool := forallb (fun b => (0 <=? b) && (b <? 256)) d.

(** A bag table with its generator and modulator tables: the bags' start
    indices never decrease and each one addresses an entry of its table. *)
Definition bag_table_ok (bags : list SF2Bag.t) (gens : list SF2Generator.t)
    (mods : list SF2Modulator.t) : Prop :=
  StronglySorted Z.le (map SF2Bag.gen_idx bags) /\
  StronglySorted Z.le (map SF2Bag.mod_idx bags) /\
  Forall (fun b => 0 <= SF2Bag.gen_idx b < zlen gens /\ 0 <= SF2Bag.mod_idx b < zlen mods) bags.

(** The same for the accumulator [(out_bags, out_gens, out_mods)] of
    [copy_zones], before the terminal bag and records are appended: a start
    index may equal the table's length. *)
Definition zones_inv (z : list SF2Bag.t * list SF2Generator.t * list SF2Modulator.t) : Prop :=
  let '(bags, gens, mods) := z in
  StronglySorted Z.le (map SF2Bag.gen_idx bags) /\
  StronglySorted Z.le (map SF2Bag.mod_idx bags) /\
  Forall (fun b => 0 <= SF2Bag.gen_idx b <= zlen gens /\ 0 <= SF2Bag.mod_idx b <= zlen mods) bags.

Module Ex.
Definition preset (nm : String.string) (bank prog bag : Z) : SF2Preset.t :=
  SF2Preset.make (bstr nm) prog bank bag 0 0 0.
Definition inst (nm : String.string) (bag : Z) : SF2Inst.t := SF2Inst.make (bstr nm) bag.
Definition sample (nm : String.string) (s e link : Z) : SF2Sample.t :=
  SF2Sample.make (bstr nm) s e s e 22050 60 0 link 1.
Definition bag (g m : Z) : SF2Bag.t := SF2Bag.mk g m.
Definition gen (o a : Z) : SF2Generator.t := SF2Generator.mk o a.

(** Piano (0,0) -> I0 -> S0 and Violin (0,40) -> I1 -> S1, with their
    terminal records. *)
Definition basic : SF2File.t :=
  SF2File.mk [(bstr "INAM", bstr "Bank")] (repeat 7 8) []
    [preset "Piano" 0 0 0; preset "Violin" 0 40 1; preset "EOP" 0 0 2]
    [bag 0 0; bag 1 0; bag 2 0] [mod0] [gen 41 0; gen 41 1; gen 0 0]
    [inst "I0" 0; inst "I1" 1; inst "EOI" 2]
    [bag 0 0; bag 1 0; bag 2 0] [mod0] [gen 53 0; gen 53 1; gen 0 0]
    [sample "S0" 0 2 0; sample "S1" 2 4 0; sample "EOS" 4 4 0].

(** Two equal preset records A around another one X; the bag index of X
    makes the two records' bag ranges differ. *)
Definition dup : SF2File.t :=
  SF2File.mk [] [] []
    [preset "A" 0 0 0; preset "X" 0 5 1; preset "A" 0 0 0; preset "EOP" 0 0 2]
    [bag 0 0; bag 1 0; bag 2 0] [] [gen 41 0; gen 41 1; gen 0 0]
    [inst "I0" 0; inst "I1" 0; inst "EOI" 0] [] [] []
    [sample "EOS" 0 0 0].

(** One instrument referencing S0; links S0 -> S1 -> S2. *)
Definition chain : SF2File.t :=
  SF2File.mk [] (repeat 7 8) []
    [preset "P" 0 0 0; preset "EOP" 0 0 1]
    [bag 0 0; bag 1 0] [] [gen 41 0; gen 0 0]
    [inst "I" 0; inst "EOI" 1] [bag 0 0; bag 1 0] [] [gen 53 0; gen 0 0]
    [sample "S0" 0 1 1; sample "S1" 1 2 2; sample "S2" 2 3 0; sample "EOS" 3 3 0].

(** Two samples sharing the frames [0, 2) of a 4-byte blob, both used. *)
Definition overlap : SF2File.t :=
  SF2File.mk [] (repeat 7 4) []
    [preset "P" 0 0 0; preset "EOP" 0 0 1]
    [bag 0 0; bag 1 0] [] [gen 41 0; gen 0 0]
    [inst "I" 0; inst "EOI" 2] [bag 0 0; bag 1 0; bag 2 0] [] [gen 53 0; gen 53 1; gen 0 0]
    [sample "L" 0 2 0; sample "R" 0 2 0; sample "EOS" 2 2 0].

(** A stereo pair S0/S1 at indices 1 and 2, after an unused sample. *)
Definition stereo : SF2File.t :=
  SF2File.mk [] (repeat 7 8) []
    [preset "P" 0 0 0; preset "EOP" 0 0 1]
    [bag 0 0; bag 1 0] [] [gen 41 0; gen 0 0]
    [inst "I" 0; inst "EOI" 1] [bag 0 0; bag 1 0] [] [gen 53 1; gen 0 0]
    [sample "X" 0 1 0; sample "L" 1 2 2; sample "R" 2 3 1; sample "EOS" 3 3 0].

(** A RIFF form whose pdta list (from byte 20 to byte 34) holds a phdr
    sub-chunk of one byte, at byte 24. *)
Definition bad_phdr : list Z :=
  bstr "RIFF" ++ le_bytes 4 26 ++ bstr "sfbk"
  ++ bstr "LIST" ++ le_bytes 4 14 ++ bstr "pdta"
  ++ bstr "phdr" ++ le_bytes 4 1 ++ [0; 0].

(** A phdr record: preset "Piano", bank 0, program 0, bag index 1. *)
Definition phdr_rec : list Z :=
  bstr "Piano" ++ repeat 0 15 ++ [0; 0; 0; 0; 1; 0; 0; 0; 0; 0; 0; 0; 0; 0; 0; 0; 0; 0].
Definition phdr_preset : SF2Preset.t := SF2Preset.make (bstr "Piano") 0 0 1 0 0 0.

(** The file written for the subset of [basic] with both of its presets. *)
Definition rt_file : list Z :=
  match subset_sf2 basic [(0, 0); (0, 40)] with
  | Ok o => match write_sf2 o with Ok b => b | Err _ => [] end
  | Err _ => []
  end.

(** The file written for [basic] itself. *)
Definition basic_file : list Z := match write_sf2 basic with Ok b => b | Err _ => [] end.
End Ex.

(** ** What [parse_sf2] reads back from records written by [to_bytes] *)

(** The name field holds the first 20 code points, padded with zeros; the
    reader strips all trailing zeros. *)
Definition name_read_back (n : list Z) : list Z := rstrip0 (firstn 20 n).

Definition preset_read_back (p : SF2Preset.t) : SF2Preset.t :=
  SF2Preset.make (name_read_back (SF2Preset.name p)) (SF2Preset.preset p) (SF2Preset.bank p)
    (SF2Preset.new_bag_idx p) (SF2Preset.library p) (SF2Preset.genre p)
    (SF2Preset.morphology p).

Definition inst_read_back (i : SF2Inst.t) : SF2Inst.t :=
  SF2Inst.make (name_read_back (SF2Inst.name i)) (SF2Inst.new_bag_idx i).

Definition sample_read_back (s : SF2Sample.t) : SF2Sample.t :=
  SF2Sample.make (name_read_back (SF2Sample.name s))
    (SF2Sample.new_start s) (SF2Sample.new_end s)
    (SF2Sample.new_start s + (SF2Sample.loop_start s - SF2Sample.start s))
    (SF2Sample.new_start s + (SF2Sample.loop_end s - SF2Sample.start s))
    (SF2Sample.sample_rate s) (SF2Sample.original_pitch s)
    (SF2Sample.pitch_correction s) (SF2Sample.sample_link s) (SF2Sample.sample_type s).

(** The model [parse_sf2] reads from the file [write_sf2] writes. *)
Definition written_model (m : SF2File.t) : SF2File.t :=
  SF2File.mk (SF2File.info_chunks m) (SF2File.sample_data m) []
    (map preset_read_back (SF2File.presets m)) (SF2File.preset_bags m)
    (SF2File.preset_mods m) (SF2File.preset_gens m)
    (map inst_read_back (SF2File.instruments m)) (SF2File.inst_bags m)
    (SF2File.inst_mods m) (SF2File.inst_gens m)
    (map sample_read_back (SF2File.samples m)).

(** One INFO sub-chunk as [write_sf2] lays it out. *)
Definition info_entry (kv : list Z * list Z) : list Z :=
  fst kv ++ le_bytes 4 (zlen (snd kv)) ++ snd kv ++ pad (snd kv).

(** The conditions [write_sf2] checks on one INFO entry, and the one it
    does not check: a 4-character id. *)
Definition info_ok (kv : list Z * list Z) : Prop :=
  length (fst kv) = 4%nat /\ forallb (fun c => c <? 128) (fst kv) = true /\
  zlen (snd kv) < 2 ^ 32.

(** One pdta sub-chunk as [write_sf2] lays it out, and the conditions the
    records' sizes give it. *)
Definition pdta_entry (tb : list Z * list Z) : list Z :=
  fst tb ++ le_bytes 4 (zlen (snd tb)) ++ snd tb.

Definition pdta_ok (tb : list Z * list Z) : Prop :=
  length (fst tb) = 4%nat /\ forallb (fun c => c <? 128) (fst tb) = true /\
  zlen (snd tb) < 2 ^ 32 /\ Z.even (zlen (snd tb)) = true.

(** * Properties *)

(** ** Generic facts about the monad, the loops and the containers *)

Lemma bind_Ok_inv {A B} (m : res A) (k : A -> res B) (b : B) :
  bind m k = Ok b -> exists a, m = Ok a /\ k a = Ok b.
Proof. destruct m as [a|e]; simpl; [eauto | discriminate]. Qed.

Lemma foldM_app {A B} (f : A -> B -> res A) acc l1 l2 :
  foldM f acc (l1 ++ l2) = bind (foldM f acc l1) (fun acc' => foldM f acc' l2).
Proof.
  revert acc; induction l1 as [|x t IH]; intro acc; simpl; [reflexivity|].
  destruct (f acc x); simpl; [apply IH | reflexivity].
Qed.

(** An invariant of the accumulator carried through a [for] loop. *)
Lemma foldM_inv {A B} (P : A -> Prop) (f : A -> B -> res A) acc l r :
  P acc -> (forall a x a', In x l -> P a -> f a x = Ok a' -> P a') ->
  foldM f acc l = Ok r -> P r.
Proof.
  revert acc; induction l as [|x t IH]; intros acc Hacc Hstep H; simpl in H.
  - congruence.
  - apply bind_Ok_inv in H as (a' & Hf & Hrest).
    eapply IH; [eapply Hstep; eauto; left; reflexivity | | exact Hrest].
    intros; eapply Hstep; eauto; right; assumption.
Qed.

Lemma zset_add_In x y s : In y (zset_add x s) <-> y = x \/ In y s.
Proof.
  induction s as [|z t IH]; simpl.
  - split; [intros [<-|[]]; auto | intros [->|[]]; auto].
  - destruct (Z.eqb_spec x z).
    + subst; simpl; split; [intros H; right; exact H | intros [->|H]; [left; reflexivity | exact H]].
    + destruct (x <? z); simpl.
      * split; [intros [<-|H]; auto | intros [->|H]; auto].
      * rewrite IH; split; [intros [<-|[->|H]]; auto | intros [->|[<-|H]]; auto].
Qed.

Lemma zset_mem_In x s : zset_mem x s = true <-> In x s.
Proof.
  unfold zset_mem; rewrite existsb_exists; split.
  - intros (y & Hy & E); apply Z.eqb_eq in E; subst; assumption.
  - intros H; exists x; split; [assumption | apply Z.eqb_refl].
Qed.

Lemma pair_mem_In x s : pair_mem x s = true <-> In x s.
Proof.
  induction s as [|[a b] t IH]; simpl; [split; [discriminate | tauto]|].
  rewrite orb_true_iff, IH, andb_true_iff, !Z.eqb_eq; destruct x as [x1 x2]; simpl.
  split; [intros [[-> ->]|H]; auto | intros [E|H]; [inversion E; auto | auto]].
Qed.

Lemma pair_add_In x y s : In y (pair_add x s) <-> y = x \/ In y s.
Proof.
  unfold pair_add; destruct (pair_mem x s) eqn:E.
  - apply pair_mem_In in E; split; [tauto | intros [->|H]; assumption].
  - rewrite in_app_iff; simpl; split; intros [H|H]; auto; destruct H as [H|[]]; auto.
Qed.

Lemma zlen_app {A} (l1 l2 : list A) : zlen (l1 ++ l2) = zlen l1 + zlen l2.
Proof. unfold zlen; rewrite length_app; lia. Qed.

Lemma zlen_snoc {A} (l : list A) (x : A) : zlen (l ++ [x]) = zlen l + 1.
Proof. rewrite zlen_app; reflexivity. Qed.

Lemma length_set_nth {A} n (v : A) l : length (set_nth n v l) = length l.
Proof. revert n; induction l; intros [|n]; simpl; auto. Qed.

(** ** The two paths of [subset_sf2] *)

(** The early return when no non-terminal preset is wanted. *)
Lemma subset_sf2_st_no_match sf2 needed :
  kept_presets sf2 needed = [] ->
  subset_sf2_st sf2 needed =
  Ok (sf2, SF2File.mk (SF2File.info_chunks sf2) [] [] [] [] [] [] [] [] [] [] [],
      [no_match_warning]).
Proof. intros H; unfold subset_sf2_st; rewrite H; reflexivity. Qed.

(** The main path, step by step. *)
Lemma subset_sf2_st_inv sf2 needed r :
  subset_sf2_st sf2 needed = Ok r ->
  kept_presets sf2 needed = [] \/
  exists ki ks ss nsd srefs smap is irefs ibags igens imods imap n
         ps prefs pbags pgens pmods,
    kept_presets sf2 needed <> [] /\
    collect_insts sf2 (kept_presets sf2 needed) = Ok ki /\
    collect_samples sf2 ki = Ok ks /\
    build_samples sf2 ks = Ok (ss, nsd, srefs, smap) /\
    build_insts sf2 smap ki = Ok (is, irefs, (ibags, igens, imods), imap, n) /\
    build_presets sf2 imap (kept_presets sf2 needed) = Ok (ps, prefs, (pbags, pgens, pmods)) /\
    let ss' := relink ss smap srefs in
    let eos := EOS (zlen nsd / 2) in
    let eoi := EOI (zlen ibags) in
    let eop := EOP (zlen pbags) in
    r = (SF2File.mk (SF2File.info_chunks sf2) (SF2File.sample_data sf2)
           (SF2File.sample_data_24 sf2) ps (SF2File.preset_bags sf2)
           (SF2File.preset_mods sf2) (SF2File.preset_gens sf2) is
           (SF2File.inst_bags sf2) (SF2File.inst_mods sf2) (SF2File.inst_gens sf2) ss',
         SF2File.mk (SF2File.info_chunks sf2) nsd []
           (map (deref eop ps) prefs ++ [eop])
           (pbags ++ [SF2Bag.mk (zlen pgens) (zlen pmods)]) (pmods ++ [mod0]) (pgens ++ [gen0])
           (map (deref eoi is) irefs ++ [eoi])
           (ibags ++ [SF2Bag.mk (zlen igens) (zlen imods)]) (imods ++ [mod0]) (igens ++ [gen0])
           (map (deref eos ss') srefs ++ [eos]),
         @nil String.string).
Proof.
  unfold subset_sf2_st; intros H.
  destruct (kept_presets sf2 needed) as [|p0 kt] eqn:Hk; [left; reflexivity | right].
  apply bind_Ok_inv in H as (ki & Hki & H).
  apply bind_Ok_inv in H as (ks & Hks & H).
  apply bind_Ok_inv in H as ([[[ss nsd] srefs] smap] & Hbs & H).
  apply bind_Ok_inv in H as ([[[[is irefs] [[ibags igens] imods]] imap] n] & Hbi & H).
  apply bind_Ok_inv in H as ([[ps prefs] [[pbags pgens] pmods]] & Hbp & H).
  simpl in H.
  exists ki, ks, ss, nsd, srefs, smap, is, irefs, ibags, igens, imods, imap, n,
    ps, prefs, pbags, pgens, pmods.
  repeat split; try assumption; [discriminate | congruence].
Qed.

Lemma filter_all_false {A} (f : A -> bool) l :
  (forall x, In x l -> f x = false) -> filter f l = [].
Proof.
  induction l as [|x t IH]; intros H; simpl; [reflexivity|].
  rewrite (H x (or_introl eq_refl)); apply IH; intros; apply H; right; assumption.
Qed.

Lemma In_zrange x a b : In x (zrange a b) <-> a <= x < b.
Proof.
  unfold zrange; rewrite in_map_iff; split.
  - intros (k & <- & Hk); apply in_seq in Hk; lia.
  - intros H; exists (Z.to_nat (x - a)); split; [lia|]; apply in_seq; lia.
Qed.

(** No wanted non-terminal preset: the kept list is empty. *)
Lemma kept_presets_nil sf2 needed :
  (forall i p, nth_error (SF2File.presets sf2) i = Some p ->
               (S i < length (SF2File.presets sf2))%nat -> wanted needed p = false) ->
  kept_presets sf2 needed = [].
Proof.
  intros H; unfold kept_presets.
  apply filter_all_false; intros i Hi; apply In_zrange in Hi.
  destruct (nth_error _ (Z.to_nat i)) as [p|] eqn:E; [|reflexivity].
  apply (H _ _ E); unfold zlen in Hi; lia.
Qed.

Lemma kept_presets_cons sf2 needed i p :
  nth_error (SF2File.presets sf2) i = Some p ->
  (S i < length (SF2File.presets sf2))%nat -> wanted needed p = true ->
  kept_presets sf2 needed <> [].
Proof.
  intros E Hi W Hnil; unfold kept_presets in Hnil.
  assert (Hin : In (Z.of_nat i) (filter (fun i => match nth_error (SF2File.presets sf2) (Z.to_nat i) with
                   | Some p => wanted needed p | None => false end)
                   (zrange 0 (zlen (SF2File.presets sf2) - 1)))).
  { apply filter_In; split; [apply In_zrange; unfold zlen; lia|].
    rewrite Nat2Z.id, E; exact W. }
  rewrite Hnil in Hin; destruct Hin.
Qed.

(** ** C10: the 24-bit extension is dropped *)

(** C10.  The model returned by [subset_sf2] has an empty [sample_data_24],
    and [write_sf2] never serialises [sample_data_24]: its output does not
    depend on it, and the sdta list body is the single [smpl] sub-chunk. *)
Theorem subset_write_drop_sm24 (sf2 out : SF2File.t) (needed : list (Z * Z)) :
  subset_sf2 sf2 needed = Ok out ->
  SF2File.sample_data_24 out = [] /\
  (forall (m : SF2File.t) (d24 : list Z),
      write_sf2 (Upd.set_sample_data_24 m d24) = write_sf2 m /\
      sdta_data m = let* sz := pack_len (SF2File.sample_data m) in
                    Ok (bstr "smpl" ++ sz ++ SF2File.sample_data m ++ pad (SF2File.sample_data m))).
Proof.
  intros H; split.
  - unfold subset_sf2 in H; apply bind_Ok_inv in H as ([[inp o] w] & Hs & E).
    simpl in E; injection E as <-.
    destruct (subset_sf2_st_inv _ _ _ Hs) as [Hk | (ki & ks & ss & nsd & srefs & smap & is & irefs
      & ibags & igens & imods & imap & n & ps & prefs & pbags & pgens & pmods & _ & _ & _ & _ & _ & _ & Er)].
    + rewrite subset_sf2_st_no_match in Hs by exact Hk; injection Hs as _ <- _; reflexivity.
    + injection Er as _ -> _; reflexivity.
  - intros m d24; split; [destruct m; reflexivity | reflexivity].
Qed.

Lemma subset_write_drop_sm24_witness :
  subset_sf2 Ex.basic [(0, 0)] =
    Ok (match subset_sf2 Ex.basic [(0, 0)] with Ok o => o | Err _ => SF2File.empty end) /\
  SF2File.sample_data_24
    (match subset_sf2 Ex.basic [(0, 0)] with Ok o => o | Err _ => SF2File.empty end) = [].
Proof.
  assert (H : subset_sf2 Ex.basic [(0, 0)] =
    Ok (match subset_sf2 Ex.basic [(0, 0)] with Ok o => o | Err _ => SF2File.empty end))
    by (vm_compute; reflexivity).
  split; [exact H | exact (proj1 (subset_write_drop_sm24 _ _ _ H))].
Defined.

(** ** C2: no wanted preset *)

(** C2 (code bug).  When no non-terminal preset is wanted, [subset_sf2]
    writes the warning and returns at once a model with no record at all:
    no terminal preset, instrument or sample and no terminal bag, generator
    or modulator; only the INFO items are copied. *)
Theorem subset_sf2_no_match_no_sentinels (sf2 : SF2File.t) (needed : list (Z * Z)) :
  (forall i p, nth_error (SF2File.presets sf2) i = Some p ->
               (S i < length (SF2File.presets sf2))%nat -> wanted needed p = false) ->
  subset_sf2_st sf2 needed =
  Ok (sf2, SF2File.mk (SF2File.info_chunks sf2) [] [] [] [] [] [] [] [] [] [] [],
      [no_match_warning]).
Proof. intros H; apply subset_sf2_st_no_match, kept_presets_nil, H. Qed.

Lemma subset_sf2_no_match_no_sentinels_witness :
  subset_sf2_st Ex.basic [(5, 5)] =
  Ok (Ex.basic, SF2File.mk (SF2File.info_chunks Ex.basic) [] [] [] [] [] [] [] [] [] [] [],
      [no_match_warning]).
Proof.
  apply subset_sf2_no_match_no_sentinels.
  intros [|[|[|i]]] p E Hi; simpl in E; try (injection E as <-; reflexivity).
  destruct i; discriminate.
Defined.

(** ** C3: the terminal records *)

(** C3 (as amended).  When some non-terminal preset is wanted, the output
    preset and instrument tables end with their terminal record, whose bag
    index [new_bag_idx] is that of the terminal bag, i.e. the length of the
    bag table minus one, and the sample table ends with the terminal sample,
    whose start [new_start] is the frame count [len(sample_data) // 2] of
    the output blob. *)
Theorem subset_sf2_terminal_records (sf2 out : SF2File.t) (needed : list (Z * Z))
    (i : nat) (p : SF2Preset.t) :
  nth_error (SF2File.presets sf2) i = Some p ->
  (S i < length (SF2File.presets sf2))%nat -> wanted needed p = true ->
  subset_sf2 sf2 needed = Ok out ->
  (exists body, SF2File.presets out = body ++ [EOP (zlen (SF2File.preset_bags out) - 1)]) /\
  (exists body, SF2File.instruments out = body ++ [EOI (zlen (SF2File.inst_bags out) - 1)]) /\
  (exists body, SF2File.samples out = body ++ [EOS (zlen (SF2File.sample_data out) / 2)]).
Proof.
  intros E Hi W H.
  pose proof (kept_presets_cons _ _ _ _ E Hi W) as Hk.
  unfold subset_sf2 in H; apply bind_Ok_inv in H as ([[inp o] w] & Hs & Eo).
  simpl in Eo; injection Eo as <-.
  destruct (subset_sf2_st_inv _ _ _ Hs) as [Hn | (ki & ks & ss & nsd & srefs & smap & is & irefs
      & ibags & igens & imods & imap & n & ps & prefs & pbags & pgens & pmods & _ & _ & _ & _ & _ & _ & Er)];
    [contradiction|].
  injection Er as _ -> _; simpl; rewrite !zlen_snoc, !Z.add_simpl_r.
  repeat split; eexists; reflexivity.
Qed.

Lemma subset_sf2_terminal_records_witness :
  subset_sf2 Ex.basic [(0, 0)] =
    Ok (match subset_sf2 Ex.basic [(0, 0)] with Ok o => o | Err _ => SF2File.empty end) /\
  exists body, SF2File.presets
    (match subset_sf2 Ex.basic [(0, 0)] with Ok o => o | Err _ => SF2File.empty end) =
    body ++ [EOP (zlen (SF2File.preset_bags
    (match subset_sf2 Ex.basic [(0, 0)] with Ok o => o | Err _ => SF2File.empty end)) - 1)].
Proof.
  assert (H : subset_sf2 Ex.basic [(0, 0)] =
    Ok (match subset_sf2 Ex.basic [(0, 0)] with Ok o => o | Err _ => SF2File.empty end))
    by (vm_compute; reflexivity).
  split; [exact H|].
  exact (proj1 (subset_sf2_terminal_records Ex.basic _ [(0, 0)] 0 (Ex.preset "Piano" 0 0 0)
                  eq_refl (le_n_S _ _ (le_n_S _ _ (Nat.le_0_l _))) eq_refl H)).
Defined.

(** C3: the terminal preset's bag index is not the length of the bag table. *)
Lemma subset_sf2_terminal_records_counterexample :
  exists o, subset_sf2 Ex.basic [(0, 0)] = Ok o /\
    SF2Preset.new_bag_idx (last (SF2File.presets o) (EOP 0)) <> zlen (SF2File.preset_bags o).
Proof. vm_compute; eexists; split; [reflexivity | discriminate]. Qed.

(** ** C4: references in the output *)

(** C4 (code bug).  [Ex.dup] satisfies the referential-bounds invariant,
    yet the output keeps a preset generator that references the terminal
    instrument: the second, equal record "A" is looked up with
    [sf2.presets.index] before its [new_bag_idx] is set in the first pass
    (found at position 0, bag range [0, 1)) and after it in the second pass
    (found at position 2, bag range [0, 2)), so the generator of bag 1 is
    copied without having been collected and its amount 1 is left as is. *)
Theorem subset_sf2_dangling_instrument_ref :
  referential_bounds Ex.dup = true /\
  exists o, subset_sf2 Ex.dup [(0, 0)] = Ok o /\
    In (SF2Generator.mk GEN_INSTRUMENT (zlen (SF2File.instruments o) - 1))
       (SF2File.preset_gens o).
Proof.
  split; [vm_compute; reflexivity|].
  vm_compute; eexists; split; [reflexivity|]; simpl; auto.
Qed.

(** ** C9: the wanted set of the MIDI scan *)

Lemma add_programs_mono programs needed x :
  In x needed -> In x (add_programs programs needed).
Proof.
  unfold add_programs; revert needed; induction programs as [|[c p] t IH]; intros needed H;
    simpl; [assumption|].
  apply IH; destruct (negb (c =? 9)); [apply pair_add_In; right|]; assumption.
Qed.

Lemma add_programs_In programs needed channel program :
  In (channel, program) programs -> channel <> 9 ->
  In (0, program) (add_programs programs needed).
Proof.
  unfold add_programs; revert needed; induction programs as [|[c p] t IH]; intros needed H H9;
    simpl; [destruct H|].
  destruct H as [E|H]; [|apply IH; assumption].
  injection E as -> ->; apply add_programs_mono.
  apply Z.eqb_neq in H9; rewrite H9; simpl; apply pair_add_In; left; reflexivity.
Qed.

Lemma scan_fold_inv files n0 u0 :
  let '(n, u) := fold_left (fun '(needed, uses_drums) data =>
        let '(programs, channels) := scan_midi_for_programs data in
        (add_programs programs needed, uses_drums || zset_mem 9 channels))
      files (n0, u0) in
  (forall x, In x n0 -> In x n) /\ (u0 = true -> u = true) /\
  (forall data, In data files ->
     (forall channel program, In (channel, program) (fst (scan_midi_for_programs data)) ->
        channel <> 9 -> In (0, program) n) /\
     (In 9 (snd (scan_midi_for_programs data)) -> u = true)).
Proof.
  revert n0 u0; induction files as [|d t IH]; intros n0 u0; simpl.
  - split; [auto|split; [auto|intros ? []]].
  - destruct (scan_midi_for_programs d) as [programs channels] eqn:Es.
    specialize (IH (add_programs programs n0) (u0 || zset_mem 9 channels)).
    destruct (fold_left _ t _) as [n u].
    destruct IH as (Hn & Hu & Hf); split; [|split; [|intros dt Hdt; split]].
    + intros x Hx; apply Hn, add_programs_mono, Hx.
    + intros ->; apply Hu; reflexivity.
    + destruct Hdt as [<-|Hd]; intros channel program Hin H9; [|eapply (proj1 (Hf dt Hd)); eassumption].
      rewrite Es in Hin; apply Hn; eapply add_programs_In; eassumption.
    + destruct Hdt as [<-|Hd]; intros H9; [|apply (proj2 (Hf dt Hd)); assumption].
      rewrite Es in H9; simpl in H9; apply Hu; apply zset_mem_In in H9; rewrite H9, orb_true_r; reflexivity.
Qed.

(** C9.  For every scanned file, every program change the scanner records
    on a channel other than 9 puts [(0, program)] in the wanted set, and a
    note-on it records on channel 9 puts [(128, 0)] in it, whether or not
    any program change occurs on channel 9. *)
Theorem scan_midi_directory_wanted (files : list (list Z)) (data : list Z) :
  In data files ->
  (forall channel program,
      In (channel, program) (fst (scan_midi_for_programs data)) -> channel <> 9 ->
      In (0, program) (scan_midi_directory files)) /\
  (In 9 (snd (scan_midi_for_programs data)) -> In (128, 0) (scan_midi_directory files)).
Proof.
  intros Hd; unfold scan_midi_directory.
  pose proof (scan_fold_inv files [] false) as Hinv.
  destruct (fold_left _ files ([], false)) as [n u].
  destruct Hinv as (_ & _ & Hf); destruct (Hf data Hd) as [Hp H9]; split.
  - intros channel program Hin Hc.
    destruct u; [apply pair_add_In; right|]; eapply Hp; eassumption.
  - intros H; rewrite (H9 H); apply pair_add_In; left; reflexivity.
Qed.

(** A file with one note-on on channel 9 ([0x99]) and one program change on
    channel 0 ([0xC0 5]). *)
Lemma scan_midi_directory_wanted_witness :
  In (128, 0) (scan_midi_directory [[192; 5; 153; 36; 100]]) /\
  In (0, 5) (scan_midi_directory [[192; 5; 153; 36; 100]]).
Proof.
  pose proof (scan_midi_directory_wanted [[192; 5; 153; 36; 100]] [192; 5; 153; 36; 100]
                (or_introl eq_refl)) as [Hp H9].
  split; [apply H9; simpl; auto | apply (Hp 0); [simpl; auto | discriminate]].
Defined.

(** ** C6: record sub-chunks whose length is not a multiple of the record size *)

Lemma length_py_slice {A} (l : list A) (a b : Z) :
  0 <= a -> 0 <= b ->
  length (py_slice l a b) = (Nat.min (Z.to_nat b) (length l) - Nat.min (Z.to_nat a) (length l))%nat.
Proof.
  intros Ha Hb; unfold py_slice, slice_bound, zlen.
  replace (a <? 0) with false by (symmetry; apply Z.ltb_ge; lia).
  replace (b <? 0) with false by (symmetry; apply Z.ltb_ge; lia).
  rewrite length_firstn, length_skipn; lia.
Qed.

(** [mapM] fails with [struct.error] when some element fails and every
    failure is a [struct.error]. *)
Lemma mapM_struct_error {A B} (f : A -> res B) l :
  (forall x e, f x = Err e -> e = StructError) ->
  (exists x e, In x l /\ f x = Err e) -> mapM f l = Err StructError.
Proof.
  intros Hf; induction l as [|y t IH]; intros (x & e & Hx & Ex); [destruct Hx|]; simpl.
  destruct (f y) as [b|e'] eqn:Ey; simpl.
  - destruct Hx as [->|Hx]; [congruence|].
    rewrite IH by eauto; reflexivity.
  - rewrite (Hf _ _ Ey); reflexivity.
Qed.

(** A length that is not a multiple of [size] leaves a short last slice. *)
Lemma slices_short (size : nat) : (0 < size)%nat ->
  forall n d, (length d <= n)%nat -> (length d mod size <> 0)%nat ->
  exists x, In x (slices n size d) /\ (length x < size)%nat.
Proof.
  intros Hs n; induction n as [|n IH]; intros d Hn Hm.
  - destruct d; [destruct Hm; apply Nat.Div0.mod_0_l | simpl in Hn; lia].
  - destruct d as [|z t]; [destruct Hm; apply Nat.Div0.mod_0_l|].
    destruct (Nat.lt_ge_cases (length (z :: t)) size) as [Hlt|Hge].
    + exists (z :: t); split; [|exact Hlt].
      simpl slices; left; apply firstn_all2; lia.
    + destruct (IH (skipn size (z :: t))) as (x & Hx & Hlx).
      * rewrite length_skipn; simpl length in *; lia.
      * rewrite length_skipn.
        replace (length (z :: t)) with ((length (z :: t) - size) + 1 * size)%nat in Hm by lia.
        rewrite Nat.Div0.mod_add in Hm; exact Hm.
      * exists x; split; [right; exact Hx | exact Hlx].
Qed.

Lemma decode_records_malformed {A} (size : nat) (fb : list Z -> res A) (d : list Z) :
  (0 < size)%nat ->
  (forall x e, fb x = Err e -> e = StructError) ->
  (forall x, (length x < size)%nat -> exists e, fb x = Err e) ->
  (length d mod size <> 0)%nat -> decode_records size fb d = Err StructError.
Proof.
  intros Hs Herr Hshort Hm; unfold decode_records; apply mapM_struct_error; [exact Herr|].
  destruct (slices_short size Hs (length d) d (le_n _) Hm) as (x & Hx & Hl).
  destruct (Hshort x Hl) as [e He]; eauto.
Qed.

(** The record codecs fail only with [struct.error], and do on a short slice. *)
Ltac codec_err := intros x e; cbv beta delta [SF2Preset.from_bytes SF2Inst.from_bytes
  SF2Sample.from_bytes SF2Bag.from_bytes SF2Generator.from_bytes SF2Modulator.from_bytes];
  unfold unpack_check; destruct Nat.eqb; simpl; congruence.

Ltac codec_short lo hi :=
  intros x Hx; cbv beta zeta delta [SF2Preset.from_bytes SF2Inst.from_bytes
  SF2Sample.from_bytes SF2Bag.from_bytes SF2Generator.from_bytes SF2Modulator.from_bytes];
  unfold unpack_check;
  first [rewrite (length_py_slice x lo hi) by lia | idtac];
  match goal with |- context [Nat.eqb ?a ?b] =>
    replace (Nat.eqb a b) with false by (symmetry; apply Nat.eqb_neq; lia) end;
  simpl; eexists; reflexivity.

Lemma SF2Preset_from_bytes_err x e : SF2Preset.from_bytes x = Err e -> e = StructError.
Proof. revert x e; codec_err. Qed.
Lemma SF2Inst_from_bytes_err x e : SF2Inst.from_bytes x = Err e -> e = StructError.
Proof. revert x e; codec_err. Qed.
Lemma SF2Sample_from_bytes_err x e : SF2Sample.from_bytes x = Err e -> e = StructError.
Proof. revert x e; codec_err. Qed.
Lemma SF2Bag_from_bytes_err x e : SF2Bag.from_bytes x = Err e -> e = StructError.
Proof. revert x e; codec_err. Qed.
Lemma SF2Generator_from_bytes_err x e : SF2Generator.from_bytes x = Err e -> e = StructError.
Proof. revert x e; codec_err. Qed.
Lemma SF2Modulator_from_bytes_err x e : SF2Modulator.from_bytes x = Err e -> e = StructError.
Proof. revert x e; codec_err. Qed.

Lemma SF2Preset_from_bytes_short x :
  (length x < 38)%nat -> exists e, SF2Preset.from_bytes x = Err e.
Proof. revert x; codec_short 20 38. Qed.
Lemma SF2Inst_from_bytes_short x :
  (length x < 22)%nat -> exists e, SF2Inst.from_bytes x = Err e.
Proof. revert x; codec_short 20 22. Qed.
Lemma SF2Sample_from_bytes_short x :
  (length x < 46)%nat -> exists e, SF2Sample.from_bytes x = Err e.
Proof. revert x; codec_short 20 46. Qed.
Lemma SF2Bag_from_bytes_short x :
  (length x < 4)%nat -> exists e, SF2Bag.from_bytes x = Err e.
Proof. revert x; codec_short 0 0. Qed.
Lemma SF2Generator_from_bytes_short x :
  (length x < 4)%nat -> exists e, SF2Generator.from_bytes x = Err e.
Proof. revert x; codec_short 0 0. Qed.
Lemma SF2Modulator_from_bytes_short x :
  (length x < 10)%nat -> exists e, SF2Modulator.from_bytes x = Err e.
Proof. revert x; codec_short 0 0. Qed.

Lemma pdta_record_malformed (pdta_id d : list Z) (size : nat) (sf2 : SF2File.t) :
  In (pdta_id, size) [(bstr "phdr", 38%nat); (bstr "pbag", 4%nat); (bstr "pmod", 10%nat);
                      (bstr "pgen", 4%nat); (bstr "inst", 22%nat); (bstr "ibag", 4%nat);
                      (bstr "imod", 10%nat); (bstr "igen", 4%nat); (bstr "shdr", 46%nat)] ->
  (length d mod size <> 0)%nat ->
  pdta_record pdta_id d sf2 = Err StructError.
Proof.
  intros Hin Hm.
  repeat (destruct Hin as [E|Hin]; [injection E as <- <-; unfold pdta_record; simpl zlist_eqb;
    cbv iota beta;
    (rewrite decode_records_malformed;
      [reflexivity | lia | first [ exact SF2Preset_from_bytes_err | exact SF2Bag_from_bytes_err
        | exact SF2Modulator_from_bytes_err | exact SF2Generator_from_bytes_err
        | exact SF2Inst_from_bytes_err | exact SF2Sample_from_bytes_err ]
      | first [ exact SF2Preset_from_bytes_short | exact SF2Bag_from_bytes_short
        | exact SF2Modulator_from_bytes_short | exact SF2Generator_from_bytes_short
        | exact SF2Inst_from_bytes_short | exact SF2Sample_from_bytes_short ]
      | exact Hm]) |]).
  destruct Hin.
Qed.

(** C6 (as amended).  The parser does not compare a record sub-chunk's length
    with the record size: it cuts the bytes it read into slices of that size
    and decodes each with [struct.unpack], which raises [struct.error] on the
    short last slice.  So the pdta walk that reaches a phdr, pbag, pmod,
    pgen, inst, ibag, imod, igen or shdr sub-chunk whose data is not a
    multiple of 38, 4, 10, 4, 22, 4, 10, 4 or 46 bytes fails with
    [struct.error]; nothing catches it, so [parse_sf2] raises it and returns
    no model. *)
Theorem pdta_loop_malformed_record (file : list Z) (n : nat) (list_end pos pos' : Z)
    (sf2 : SF2File.t) (pdta_id : list Z) (pdta_size : Z) (size : nat) :
  In (pdta_id, size) [(bstr "phdr", 38%nat); (bstr "pbag", 4%nat); (bstr "pmod", 10%nat);
                      (bstr "pgen", 4%nat); (bstr "inst", 22%nat); (bstr "ibag", 4%nat);
                      (bstr "imod", 10%nat); (bstr "igen", 4%nat); (bstr "shdr", 46%nat)] ->
  pos < list_end ->
  read_chunk_header file pos = Ok (pdta_id, pdta_size, pos') ->
  (length (fst (read file pos' pdta_size)) mod size <> 0)%nat ->
  pdta_loop file (S n) list_end pos sf2 = Err StructError.
Proof.
  intros Hin Hlt Hh Hm; cbn -[read read_chunk_header pdta_record].
  replace (pos <? list_end) with true by (symmetry; apply Z.ltb_lt; exact Hlt).
  rewrite Hh; cbn -[read pdta_record].
  destruct (read file pos' pdta_size) as [d p] eqn:Er; simpl in Hm.
  rewrite (pdta_record_malformed _ _ _ _ Hin Hm); reflexivity.
Qed.

Lemma pdta_loop_malformed_record_witness :
  pdta_loop Ex.bad_phdr 1 34 24 SF2File.empty = Err StructError.
Proof.
  apply (pdta_loop_malformed_record Ex.bad_phdr 0 34 24 32 SF2File.empty (bstr "phdr") 1 38).
  - left; reflexivity.
  - lia.
  - vm_compute; reflexivity.
  - vm_compute; discriminate.
Defined.

(** C6: the error [parse_sf2] raises on such a file is [struct.error]. *)
Lemma pdta_loop_malformed_record_counterexample :
  parse_sf2 Ex.bad_phdr = Err StructError.
Proof. vm_compute; reflexivity. Qed.

(** ** Loops of the second pass *)

(** An invariant indexed by the part of the list already iterated. *)
Lemma foldM_inv_prefix {A B} (P : list B -> A -> Prop) (f : A -> B -> res A) acc l r :
  P [] acc ->
  (forall pre x post a a', l = pre ++ x :: post -> P pre a -> f a x = Ok a' ->
                           P (pre ++ [x]) a') ->
  foldM f acc l = Ok r -> P l r.
Proof.
  intros H0 Hs.
  assert (G : forall suf pre a, l = pre ++ suf -> P pre a -> foldM f a suf = Ok r -> P l r).
  { induction suf as [|x t IH]; intros pre a El Ha H; simpl in H.
    - replace r with a by congruence; rewrite El, app_nil_r; exact Ha.
    - apply bind_Ok_inv in H as (a' & Hf & H).
      apply (IH (pre ++ [x]) a'); [rewrite El, <- app_assoc; reflexivity | | exact H].
      eapply Hs; eauto. }
  exact (G l [] acc eq_refl H0).
Qed.

Lemma py_norm_nonneg n i j : 0 <= i -> py_norm n i = Some j -> j = i /\ i < n.
Proof.
  unfold py_norm; intros Hi.
  destruct ((0 <=? i) && (i <? n)) eqn:E.
  - intros H; injection H as <-; apply andb_true_iff in E as [_ E]; apply Z.ltb_lt in E; auto.
  - replace (i <? 0) with false by (symmetry; apply Z.ltb_ge; lia); simpl; discriminate.
Qed.

Lemma py_get_some {A} (l : list A) i x :
  py_get l i = Ok x ->
  exists pos, py_norm (zlen l) i = Some pos /\ nth_error l (Z.to_nat pos) = Some x.
Proof.
  unfold py_get; destruct py_norm as [pos|]; [|discriminate].
  destruct nth_error eqn:E; [|discriminate]; intros H; injection H as ->; eauto.
Qed.

Lemma py_get_norm {A} (l : list A) i pos x :
  py_norm (zlen l) i = Some pos -> py_get l i = Ok x -> nth_error l (Z.to_nat pos) = Some x.
Proof. unfold py_get; intros E; rewrite E; destruct nth_error; congruence. Qed.

Lemma py_get_In {A} (l : list A) i x : py_get l i = Ok x -> In x l.
Proof. intros H; destruct (py_get_some _ _ _ H) as (pos & _ & E); eapply nth_error_In; eauto. Qed.

Lemma py_get_nonneg {A} (l : list A) i x :
  0 <= i -> py_get l i = Ok x -> nth_error l (Z.to_nat i) = Some x /\ i < zlen l.
Proof.
  intros Hi H; destruct (py_get_some _ _ _ H) as (pos & En & E).
  destruct (py_norm_nonneg _ _ _ Hi En) as [-> Hl]; auto.
Qed.

Lemma py_get_map_eq {A B} (f : A -> B) l1 l2 i x :
  map f l1 = map f l2 -> py_get l1 i = Ok x -> exists y, py_get l2 i = Ok y /\ f x = f y.
Proof.
  intros Hm H; destruct (py_get_some _ _ _ H) as (pos & En & Ex).
  assert (Hl : zlen l1 = zlen l2)
    by (unfold zlen; rewrite <- (length_map f l1), Hm, length_map; reflexivity).
  assert (Ey : nth_error (map f l2) (Z.to_nat pos) = Some (f x))
    by (rewrite <- Hm, nth_error_map, Ex; reflexivity).
  rewrite nth_error_map in Ey; destruct (nth_error l2 (Z.to_nat pos)) as [y|] eqn:E2;
    [|discriminate].
  exists y; split; [unfold py_get; rewrite <- Hl, En, E2; reflexivity|].
  simpl in Ey; injection Ey as Ey; symmetry; exact Ey.
Qed.

Lemma map_set_nth_same {A B} (f : A -> B) n q p l :
  nth_error l n = Some p -> f q = f p -> map f (set_nth n q l) = map f l.
Proof.
  revert n; induction l as [|x t IH]; intros [|n] E Hq; simpl in *; try discriminate.
  - injection E as ->; rewrite Hq; reflexivity.
  - rewrite (IH n E Hq); reflexivity.
Qed.

Lemma set_nth_none {A} n (v : A) l : nth_error l n = None -> set_nth n v l = l.
Proof.
  revert n; induction l as [|x t IH]; intros [|n] E; simpl in *; try discriminate; auto.
  rewrite IH; auto.
Qed.

Lemma relink_fixed ss smap refs :
  map sample_fixed (relink ss smap refs) = map sample_fixed ss.
Proof.
  unfold relink; revert ss; induction refs as [|pos t IH]; intros ss; simpl; [reflexivity|].
  rewrite IH.
  destruct (nth_error ss (Z.to_nat pos)) as [s|] eqn:E.
  - apply (map_set_nth_same _ _ _ s); [exact E|].
    unfold deref; erewrite nth_error_nth by exact E; destruct s; reflexivity.
  - rewrite set_nth_none by exact E; reflexivity.
Qed.

Lemma build_presets_fixed sf2 imap kept ps prefs z :
  (forall x, In x kept -> 0 <= x) ->
  build_presets sf2 imap kept = Ok (ps, prefs, z) ->
  map preset_fixed ps = map preset_fixed (SF2File.presets sf2) /\ length prefs = length kept.
Proof.
  intros Hk H; unfold build_presets in H.
  refine (foldM_inv_prefix (fun pre '(ps, prefs, _) =>
            map preset_fixed ps = map preset_fixed (SF2File.presets sf2) /\
            length prefs = length pre) _ _ _ _ _ _ H).
  - split; reflexivity.
  - intros pre x post [[ps0 refs0] [[ob og] om]] a' El [Hm Hl] Hf.
    cbv beta iota zeta in Hf.
    apply bind_Ok_inv in Hf as (preset & Hp & Hf).
    apply bind_Ok_inv in Hf as (idx & _ & Hf).
    apply bind_Ok_inv in Hf as (nxt & _ & Hf).
    apply bind_Ok_inv in Hf as (zs & _ & Hf).
    injection Hf as <-.
    assert (Hx : 0 <= x) by (apply Hk; rewrite El; apply in_or_app; right; left; reflexivity).
    destruct (py_get_nonneg _ _ _ Hx Hp) as [Ep _].
    split.
    + rewrite (map_set_nth_same _ _ _ preset _ Ep); [exact Hm | destruct preset; reflexivity].
    + rewrite !length_app, Hl; reflexivity.
Qed.

Lemma build_insts_fixed sf2 smap ki is irefs z imap n :
  build_insts sf2 smap ki = Ok (is, irefs, z, imap, n) ->
  map inst_fixed is = map inst_fixed (SF2File.instruments sf2) /\ length irefs = length ki.
Proof.
  intros H; unfold build_insts in H.
  refine (foldM_inv_prefix (fun pre '(is, irefs, _, _, _) =>
            map inst_fixed is = map inst_fixed (SF2File.instruments sf2) /\
            length irefs = length pre) _ _ _ _ _ _ H).
  - split; reflexivity.
  - intros pre x post [[[[is0 refs0] [[ob og] om]] imap0] n0] a' _ [Hm Hl] Hf.
    cbv beta iota zeta in Hf.
    destruct (py_norm (zlen is0) x) as [pos|] eqn:En; [|discriminate].
    apply bind_Ok_inv in Hf as (inst & Hp & Hf).
    apply bind_Ok_inv in Hf as (nxt & _ & Hf).
    apply bind_Ok_inv in Hf as (zs & _ & Hf).
    injection Hf as <-.
    split.
    + rewrite (map_set_nth_same _ _ _ inst _ (py_get_norm _ _ _ _ En Hp));
        [exact Hm | destruct inst; reflexivity].
    + rewrite !length_app, Hl; reflexivity.
Qed.

Lemma build_samples_spec sf2 ks ss nsd srefs smap :
  build_samples sf2 ks = Ok (ss, nsd, srefs, smap) ->
  map sample_fixed ss = map sample_fixed (SF2File.samples sf2) /\
  length srefs = length ks /\
  ((forall i, In i ks -> 0 <= i) -> srefs = ks) /\
  nsd = concat (map (sample_frames sf2) ks).
Proof.
  unfold build_samples; intros H.
  apply bind_Ok_inv in H as ([[[[ss0 nsd0] refs0] smap0] n0] & H & E).
  simpl in E; injection E as <- <- <- <-.
  refine (foldM_inv_prefix (fun pre '(ss, nsd, refs, _, _) =>
            map sample_fixed ss = map sample_fixed (SF2File.samples sf2) /\
            length refs = length pre /\
            ((forall i, In i ks -> 0 <= i) -> refs = pre) /\
            nsd = concat (map (sample_frames sf2) pre)) _ _ _ _ _ _ H).
  - repeat split; reflexivity.
  - intros pre x post [[[[ss1 nsd1] refs1] smap1] n1] a' El (Hm & Hl & Hr & Hn) Hf.
    cbv beta iota zeta in Hf.
    destruct (py_norm (zlen ss1) x) as [pos|] eqn:En; [|discriminate].
    apply bind_Ok_inv in Hf as (sample & Hs & Hf).
    injection Hf as <-.
    destruct (py_get_map_eq _ _ _ _ _ Hm Hs) as (s0 & Hs0 & Hf0).
    assert (Hse : SF2Sample.start sample = SF2Sample.start s0 /\
                  SF2Sample.end_ sample = SF2Sample.end_ s0)
      by (destruct sample, s0; injection Hf0; auto).
    repeat split.
    + rewrite (map_set_nth_same _ _ _ sample _ (py_get_norm _ _ _ _ En Hs));
        [exact Hm | destruct sample; reflexivity].
    + rewrite !length_app, Hl; reflexivity.
    + intros Hk; rewrite (Hr Hk).
      assert (Hx : 0 <= x) by (apply Hk; rewrite El; apply in_or_app; right; left; reflexivity).
      destruct (py_norm_nonneg _ _ _ Hx En) as [-> _]; reflexivity.
    + rewrite map_app, concat_app, Hn; simpl; rewrite app_nil_r.
      unfold sample_frames; rewrite Hs0; destruct Hse as [-> ->]; reflexivity.
Qed.

Lemma kept_presets_nonneg sf2 needed x : In x (kept_presets sf2 needed) -> 0 <= x.
Proof. unfold kept_presets; intros H; apply filter_In in H as [H _]; apply In_zrange in H; lia. Qed.

(** ** Sets of the first pass *)

Lemma zset_add_hd y x t : y < x -> HdRel Z.lt y t -> HdRel Z.lt y (zset_add x t).
Proof.
  intros Hyx Ht; destruct t as [|z t]; simpl; [constructor; exact Hyx|].
  inversion Ht; subst.
  destruct (x =? z); [constructor; assumption|].
  destruct (x <? z); constructor; assumption.
Qed.

Lemma zset_add_sorted x s : Sorted Z.lt s -> Sorted Z.lt (zset_add x s).
Proof.
  induction s as [|y t IH]; intros Hs; simpl; [repeat constructor|].
  destruct (Z.eqb_spec x y); [exact Hs|].
  destruct (Z.ltb_spec x y); [constructor; [exact Hs | constructor; assumption]|].
  apply Sorted_inv in Hs as [Ht Hh].
  constructor; [apply IH, Ht | apply zset_add_hd; [lia | exact Hh]].
Qed.

Lemma sorted_nodup l : Sorted Z.lt l -> NoDup l.
Proof.
  intros H; apply Sorted_StronglySorted in H; [|intros a b c Hab Hbc; lia].
  induction H as [|a l Hl IH Hf]; constructor; [|exact IH].
  intros Ha; rewrite Forall_forall in Hf; specialize (Hf a Ha); lia.
Qed.

Lemma sorted_range_length l n :
  Sorted Z.lt l -> (forall x, In x l -> 0 <= x < n) -> (length l <= Z.to_nat n)%nat.
Proof.
  intros Hs Hr.
  replace (Z.to_nat n) with (length (zrange 0 n))
    by (unfold zrange; rewrite length_map, length_seq, Z.sub_0_r; reflexivity).
  apply NoDup_incl_length; [apply sorted_nodup, Hs|].
  intros x Hx; apply In_zrange, Hr, Hx.
Qed.

Lemma walk_zones_inv {A} (P : A -> Prop) bags gens visit acc bs be r :
  P acc -> (forall a g a', In g gens -> P a -> visit a g = Ok a' -> P a') ->
  walk_zones bags gens visit acc bs be = Ok r -> P r.
Proof.
  intros H0 Hv H; unfold walk_zones in H.
  eapply (foldM_inv P _ _ _ _ H0); [|exact H].
  intros a bag_idx a' _ Ha Hf.
  apply bind_Ok_inv in Hf as (bag & _ & Hf).
  apply bind_Ok_inv in Hf as (ge & _ & Hf).
  eapply (foldM_inv P _ _ _ _ Ha); [|exact Hf].
  intros a2 gi a2' _ Ha2 Hg.
  apply bind_Ok_inv in Hg as (g & Hg & Hv2).
  exact (Hv _ _ _ (py_get_In _ _ _ Hg) Ha2 Hv2).
Qed.

Lemma collect_insts_bounds sf2 kept ki :
  referential_bounds sf2 = true -> collect_insts sf2 kept = Ok ki ->
  Sorted Z.lt ki /\ forall x, In x ki -> 0 <= x < zlen (SF2File.instruments sf2) - 1.
Proof.
  intros Hrb H; unfold collect_insts in H.
  pose (P := fun acc : list Z => Sorted Z.lt acc /\
               forall x, In x acc -> 0 <= x < zlen (SF2File.instruments sf2) - 1).
  eapply (foldM_inv P _ _ _ _ (conj (Sorted_nil _) (fun x (Hx : In x []) => match Hx with end)));
    [|exact H].
  intros a pos a' _ Ha Hf.
  apply bind_Ok_inv in Hf as (p & _ & Hf).
  apply bind_Ok_inv in Hf as (idx & _ & Hf).
  apply bind_Ok_inv in Hf as (nxt & _ & Hf).
  eapply (walk_zones_inv P _ _ _ _ _ _ _ Ha); [|exact Hf].
  intros b g b' Hg [Hs Hr] Hv; injection Hv as <-.
  destruct (SF2Generator.oper g =? GEN_INSTRUMENT) eqn:Eo; [|split; assumption].
  split; [apply zset_add_sorted, Hs|].
  intros x Hx; apply zset_add_In in Hx as [->|Hx]; [|apply Hr, Hx].
  unfold referential_bounds in Hrb; apply andb_true_iff in Hrb as [H1 _].
  rewrite forallb_forall in H1; specialize (H1 g Hg); rewrite Eo in H1; simpl in H1.
  apply andb_true_iff in H1 as [H1 H2]; apply Z.leb_le in H1; apply Z.ltb_lt in H2; lia.
Qed.

Lemma collect_samples_bounds sf2 ki ks m :
  referential_bounds sf2 = true -> zlen (SF2File.samples sf2) - 1 <= m ->
  (forall s, In s (SF2File.samples sf2) -> SF2Sample.sample_link s <> 0 ->
     SF2Sample.sample_link s < zlen (SF2File.samples sf2) -> 0 <= SF2Sample.sample_link s < m) ->
  collect_samples sf2 ki = Ok ks ->
  Sorted Z.lt ks /\ forall x, In x ks -> 0 <= x < m.
Proof.
  intros Hrb Hm Hl H; unfold collect_samples in H.
  pose (P := fun acc : list Z => Sorted Z.lt acc /\ forall x, In x acc -> 0 <= x < m).
  eapply (foldM_inv P _ _ _ _ (conj (Sorted_nil _) (fun x (Hx : In x []) => match Hx with end)));
    [|exact H].
  intros a idx a' _ Ha Hf.
  apply bind_Ok_inv in Hf as (inst & _ & Hf).
  apply bind_Ok_inv in Hf as (be & _ & Hf).
  eapply (walk_zones_inv P _ _ _ _ _ _ _ Ha); [|exact Hf].
  intros b g b' Hg [Hs Hr] Hv; unfold visit_sample_gen in Hv; cbv zeta in Hv.
  destruct (SF2Generator.oper g =? GEN_SAMPLE_ID) eqn:Eo; [|injection Hv as <-; split; assumption].
  apply bind_Ok_inv in Hv as (s & Hgs & Hv); injection Hv as <-.
  assert (Ha0 : 0 <= SF2Generator.amount g < m).
  { unfold referential_bounds in Hrb; apply andb_true_iff in Hrb as [_ H2].
    rewrite forallb_forall in H2; specialize (H2 g Hg); rewrite Eo in H2; simpl in H2.
    apply andb_true_iff in H2 as [H2 H3]; apply Z.leb_le in H2; apply Z.ltb_lt in H3; lia. }
  assert (Hb1 : P (zset_add (SF2Generator.amount g) b)).
  { split; [apply zset_add_sorted, Hs|].
    intros x Hx; apply zset_add_In in Hx as [->|Hx]; auto. }
  destruct (negb (SF2Sample.sample_link s =? 0)
            && (SF2Sample.sample_link s <? zlen (SF2File.samples sf2))) eqn:Ec; [|exact Hb1].
  apply andb_true_iff in Ec as [E1 E2]; apply negb_true_iff, Z.eqb_neq in E1;
    apply Z.ltb_lt in E2.
  destruct Hb1 as [Hs1 Hr1]; split; [apply zset_add_sorted, Hs1|].
  intros x Hx; apply zset_add_In in Hx as [->|Hx];
    [apply Hl; [eapply py_get_In; exact Hgs | exact E1 | exact E2] | auto].
Qed.

(** ** C7: sizes of the output *)

(** C7 (as amended).  For an input whose generator references and
    non-zero sample links address non-terminal records, and whose
    instrument and sample tables are not empty (they hold at least their
    terminal record), the output of [subset_sf2] has no more presets,
    instruments and samples than the input.  Its PCM blob is the
    concatenation, over the retained sample indices in ascending order, of
    each retained sample's frames [sample_data[start*2:end*2]] of the input:
    frames shared by two retained samples are copied twice. *)
Theorem subset_sf2_sizes (sf2 out : SF2File.t) (needed : list (Z * Z)) :
  referential_bounds sf2 = true -> links_in_bounds sf2 = true ->
  (0 < length (SF2File.instruments sf2))%nat -> (0 < length (SF2File.samples sf2))%nat ->
  subset_sf2 sf2 needed = Ok out ->
  (length (SF2File.presets out) <= length (SF2File.presets sf2))%nat /\
  (length (SF2File.instruments out) <= length (SF2File.instruments sf2))%nat /\
  (length (SF2File.samples out) <= length (SF2File.samples sf2))%nat /\
  (kept_presets sf2 needed = [] /\ SF2File.sample_data out = [] \/
   exists ki ks, collect_insts sf2 (kept_presets sf2 needed) = Ok ki /\
     collect_samples sf2 ki = Ok ks /\
     SF2File.sample_data out = concat (map (sample_frames sf2) ks)).
Proof.
  intros Hrb Hlb Hi Hs H.
  unfold subset_sf2 in H; apply bind_Ok_inv in H as ([[inp o] w] & Hst & Eo).
  simpl in Eo; injection Eo as <-.
  destruct (subset_sf2_st_inv _ _ _ Hst) as [Hk | (ki & ks & ss & nsd & srefs & smap & is & irefs
      & ibags & igens & imods & imap & n & ps & prefs & pbags & pgens & pmods
      & Hk & Hki & Hks & Hbs & Hbi & Hbp & Er)].
  - rewrite subset_sf2_st_no_match in Hst by exact Hk; injection Hst as _ <- _; simpl.
    split; [lia | split; [lia | split; [lia | left; split; [exact Hk | reflexivity]]]].
  - injection Er as _ -> _.
    cbn [SF2File.presets SF2File.instruments SF2File.samples SF2File.sample_data].
    rewrite !length_app, !length_map.
    destruct (build_presets_fixed _ _ _ _ _ _ (kept_presets_nonneg sf2 needed) Hbp) as [_ Hpl].
    destruct (build_insts_fixed _ _ _ _ _ _ _ _ Hbi) as [_ Hil].
    destruct (build_samples_spec _ _ _ _ _ _ Hbs) as (_ & Hsl & _ & Hnsd).
    destruct (collect_insts_bounds _ _ _ Hrb Hki) as [Hkis Hkir].
    assert (Hl : forall s, In s (SF2File.samples sf2) -> SF2Sample.sample_link s <> 0 ->
        SF2Sample.sample_link s < zlen (SF2File.samples sf2) ->
        0 <= SF2Sample.sample_link s < zlen (SF2File.samples sf2) - 1).
    { intros s Hin Hnz _; unfold links_in_bounds in Hlb; rewrite forallb_forall in Hlb.
      specialize (Hlb s Hin); cbv zeta in Hlb.
      apply orb_true_iff in Hlb as [E|E]; [apply Z.eqb_eq in E; contradiction|].
      apply andb_true_iff in E as [E1 E2]; apply Z.ltb_lt in E1; apply Z.ltb_lt in E2; lia. }
    destruct (collect_samples_bounds sf2 ki ks _ Hrb (Z.le_refl _) Hl Hks) as [Hkss Hksr].
    pose proof (sorted_range_length _ _ Hkis Hkir) as Hki_len.
    pose proof (sorted_range_length _ _ Hkss Hksr) as Hks_len.
    assert (Hkl : (length (kept_presets sf2 needed)
                   <= Z.to_nat (zlen (SF2File.presets sf2) - 1))%nat).
    { unfold kept_presets; etransitivity; [apply filter_length_le|].
      unfold zrange; rewrite length_map, length_seq; lia. }
    assert (Hkn : length (kept_presets sf2 needed) <> 0%nat)
      by (intros E; apply Hk, length_zero_iff_nil, E).
    unfold zlen in *; simpl.
    split; [lia | split; [lia | split; [lia|]]].
    right; exists ki, ks; split; [exact Hki | split; [exact Hks | exact Hnsd]].
Qed.

Lemma subset_sf2_sizes_witness :
  exists o, subset_sf2 Ex.overlap [(0, 0)] = Ok o /\
    (length (SF2File.samples o) <= length (SF2File.samples Ex.overlap))%nat /\
    (kept_presets Ex.overlap [(0, 0)] = [] /\ SF2File.sample_data o = [] \/
     exists ki ks, collect_insts Ex.overlap (kept_presets Ex.overlap [(0, 0)]) = Ok ki /\
       collect_samples Ex.overlap ki = Ok ks /\
       SF2File.sample_data o = concat (map (sample_frames Ex.overlap) ks)).
Proof.
  destruct (subset_sf2 Ex.overlap [(0, 0)]) as [o|e] eqn:E; [|vm_compute in E; discriminate].
  exists o; split; [reflexivity|].
  destruct (subset_sf2_sizes Ex.overlap o [(0, 0)] eq_refl eq_refl
              ltac:(simpl; lia) ltac:(simpl; lia) E) as (_ & _ & Hs & Hd).
  split; [exact Hs | exact Hd].
Defined.

(** C7: the two samples share the input's 4 bytes, which the output blob
    holds twice. *)
Lemma subset_sf2_sizes_counterexample :
  exists o, subset_sf2 Ex.overlap [(0, 0)] = Ok o /\
    length (SF2File.sample_data Ex.overlap) = 4%nat /\
    length (SF2File.sample_data o) = 8%nat.
Proof. vm_compute; eexists; split; [reflexivity | split; reflexivity]. Qed.

(** ** C5: linked samples *)

Lemma nth_map_eq {A B} (f : A -> B) l1 l2 n d1 d2 :
  map f l1 = map f l2 -> (n < length l1)%nat -> f (nth n l1 d1) = f (nth n l2 d2).
Proof.
  intros Hm Hn.
  assert (Hl : length l1 = length l2) by (rewrite <- (length_map f l1), Hm, length_map; reflexivity).
  rewrite <- map_nth, Hm, map_nth; f_equal; apply nth_indep; lia.
Qed.

(** With mutual links, the first pass collects a set of samples closed
    under the links it follows. *)
Lemma collect_samples_closed sf2 ki ks :
  referential_bounds sf2 = true ->
  (forall (i : nat) s, nth_error (SF2File.samples sf2) i = Some s ->
     SF2Sample.sample_link s <> 0 -> SF2Sample.sample_link s < zlen (SF2File.samples sf2) ->
     0 < SF2Sample.sample_link s /\
     exists s', nth_error (SF2File.samples sf2) (Z.to_nat (SF2Sample.sample_link s)) = Some s' /\
       SF2Sample.sample_link s' = Z.of_nat i) ->
  collect_samples sf2 ki = Ok ks ->
  forall i, In i ks -> 0 <= i /\
    forall s, nth_error (SF2File.samples sf2) (Z.to_nat i) = Some s ->
      SF2Sample.sample_link s <> 0 -> SF2Sample.sample_link s < zlen (SF2File.samples sf2) ->
      In (SF2Sample.sample_link s) ks.
Proof.
  intros Hrb Hmu H; unfold collect_samples in H.
  pose (P := fun acc : list Z => forall i, In i acc -> 0 <= i /\
    forall s, nth_error (SF2File.samples sf2) (Z.to_nat i) = Some s ->
      SF2Sample.sample_link s <> 0 -> SF2Sample.sample_link s < zlen (SF2File.samples sf2) ->
      In (SF2Sample.sample_link s) acc).
  assert (HP : P ks); [|exact HP].
  eapply (foldM_inv P _ _ _ _ (fun i (Hi : In i []) => match Hi with end)); [|exact H].
  intros a idx a' _ Ha Hf.
  apply bind_Ok_inv in Hf as (inst & _ & Hf).
  apply bind_Ok_inv in Hf as (be & _ & Hf).
  eapply (walk_zones_inv P _ _ _ _ _ _ _ Ha); [|exact Hf].
  intros b g b' Hg Hb Hv; unfold visit_sample_gen in Hv; cbv zeta in Hv.
  destruct (SF2Generator.oper g =? GEN_SAMPLE_ID) eqn:Eo; [|injection Hv as <-; exact Hb].
  apply bind_Ok_inv in Hv as (s & Hgs & Hv); injection Hv as <-.
  set (am := SF2Generator.amount g) in *.
  assert (Ha0 : 0 <= am).
  { unfold referential_bounds in Hrb; apply andb_true_iff in Hrb as [_ H2].
    rewrite forallb_forall in H2; specialize (H2 g Hg); rewrite Eo in H2; simpl in H2.
    apply andb_true_iff in H2 as [H2 _]; apply Z.leb_le in H2; exact H2. }
  destruct (py_get_nonneg _ _ _ Ha0 Hgs) as [Es _].
  set (l := SF2Sample.sample_link s) in *.
  destruct (negb (l =? 0) && (l <? zlen (SF2File.samples sf2))) eqn:Ec.
  - apply andb_true_iff in Ec as [E1 E2]; apply negb_true_iff, Z.eqb_neq in E1;
      apply Z.ltb_lt in E2.
    destruct (Hmu _ _ Es E1 E2) as (Hl0 & s' & Es' & Hls'); fold l in Hl0, Es'.
    rewrite Z2Nat.id in Hls' by exact Ha0.
    intros x Hx; apply zset_add_In in Hx as [->|Hx]; [|apply zset_add_In in Hx as [->|Hx]].
    + split; [lia|]; intros s2 E _ _; rewrite Es' in E; injection E as <-; rewrite Hls'.
      apply zset_add_In; right; apply zset_add_In; left; reflexivity.
    + split; [exact Ha0|]; intros s2 E _ _; rewrite Es in E; injection E as <-.
      apply zset_add_In; left; reflexivity.
    + destruct (Hb x Hx) as [Hx0 Hxl]; split; [exact Hx0|]; intros s2 E Hnz Hlt.
      apply zset_add_In; right; apply zset_add_In; right; exact (Hxl s2 E Hnz Hlt).
  - intros x Hx; apply zset_add_In in Hx as [->|Hx].
    + split; [exact Ha0|]; intros s2 E Hnz Hlt; rewrite Es in E; injection E as <-.
      fold l in Hnz, Hlt; apply Z.eqb_neq in Hnz; apply Z.ltb_lt in Hlt.
      rewrite Hnz, Hlt in Ec; discriminate.
    + destruct (Hb x Hx) as [Hx0 Hxl]; split; [exact Hx0|]; intros s2 E Hnz Hlt.
      apply zset_add_In; right; exact (Hxl s2 E Hnz Hlt).
Qed.

(** C5 (as amended).  The samples [subset_sf2] keeps are those of the index
    set [ks] its first pass collects (the output's sample records before
    the terminal one are the input's records at these indices, up to the
    fields it assigns).  The first pass follows the link of each sample
    referenced by a generator, one level only.  So when links are mutual
    (a non-zero link below [len(samples)] is positive and the linked sample
    links back) and generator references address non-terminal records, the
    set is closed under links: the partner of every retained sample is
    retained. *)
Theorem subset_sf2_stereo_links (sf2 out : SF2File.t) (needed : list (Z * Z)) :
  referential_bounds sf2 = true ->
  (forall (i : nat) s, nth_error (SF2File.samples sf2) i = Some s ->
     SF2Sample.sample_link s <> 0 -> SF2Sample.sample_link s < zlen (SF2File.samples sf2) ->
     0 < SF2Sample.sample_link s /\
     exists s', nth_error (SF2File.samples sf2) (Z.to_nat (SF2Sample.sample_link s)) = Some s' /\
       SF2Sample.sample_link s' = Z.of_nat i) ->
  subset_sf2 sf2 needed = Ok out ->
  kept_presets sf2 needed = [] /\ SF2File.samples out = [] \/
  exists ki ks, collect_insts sf2 (kept_presets sf2 needed) = Ok ki /\
    collect_samples sf2 ki = Ok ks /\
    map sample_fixed (removelast (SF2File.samples out)) =
      map (fun i => sample_fixed (nth (Z.to_nat i) (SF2File.samples sf2) (EOS 0))) ks /\
    (forall i s, In i ks -> nth_error (SF2File.samples sf2) (Z.to_nat i) = Some s ->
       SF2Sample.sample_link s <> 0 -> SF2Sample.sample_link s < zlen (SF2File.samples sf2) ->
       In (SF2Sample.sample_link s) ks).
Proof.
  intros Hrb Hmu H.
  unfold subset_sf2 in H; apply bind_Ok_inv in H as ([[inp o] w] & Hst & Eo).
  simpl in Eo; injection Eo as <-.
  destruct (subset_sf2_st_inv _ _ _ Hst) as [Hk | (ki & ks & ss & nsd & srefs & smap & is & irefs
      & ibags & igens & imods & imap & n & ps & prefs & pbags & pgens & pmods
      & Hk & Hki & Hks & Hbs & Hbi & Hbp & Er)].
  - rewrite subset_sf2_st_no_match in Hst by exact Hk; injection Hst as _ <- _.
    left; split; [exact Hk | reflexivity].
  - injection Er as _ -> _; right; exists ki, ks.
    pose proof (collect_samples_closed _ _ _ Hrb Hmu Hks) as Hcl.
    assert (Hl : forall s, In s (SF2File.samples sf2) -> SF2Sample.sample_link s <> 0 ->
        SF2Sample.sample_link s < zlen (SF2File.samples sf2) ->
        0 <= SF2Sample.sample_link s < zlen (SF2File.samples sf2)).
    { intros s Hin Hnz Hlt; apply In_nth_error in Hin as [i Ei].
      destruct (Hmu i s Ei Hnz Hlt) as [Hp _]; lia. }
    destruct (collect_samples_bounds sf2 ki ks (zlen (SF2File.samples sf2)) Hrb ltac:(lia) Hl Hks)
      as [_ Hksr].
    destruct (build_samples_spec _ _ _ _ _ _ Hbs) as (Hsf & _ & Hsr & _).
    rewrite (Hsr (fun i Hi => proj1 (Hcl i Hi))) in *.
    split; [exact Hki | split; [exact Hks | split]].
    + cbn [SF2File.samples]; rewrite removelast_last, map_map.
      apply map_ext_in; intros i Hi; unfold deref.
      apply nth_map_eq; [rewrite relink_fixed; exact Hsf|].
      assert (Hlen : length (relink ss smap ks) = length (SF2File.samples sf2))
        by (rewrite <- (length_map sample_fixed (relink ss smap ks)), relink_fixed, Hsf,
              length_map; reflexivity).
      rewrite Hlen; destruct (Hksr i Hi); unfold zlen in *; lia.
    + intros i s Hi; exact (proj2 (Hcl i Hi) s).
Qed.

Lemma subset_sf2_stereo_links_witness :
  exists o, subset_sf2 Ex.stereo [(0, 0)] = Ok o /\
  (kept_presets Ex.stereo [(0, 0)] = [] /\ SF2File.samples o = [] \/
   exists ki ks, collect_insts Ex.stereo (kept_presets Ex.stereo [(0, 0)]) = Ok ki /\
    collect_samples Ex.stereo ki = Ok ks /\
    map sample_fixed (removelast (SF2File.samples o)) =
      map (fun i => sample_fixed (nth (Z.to_nat i) (SF2File.samples Ex.stereo) (EOS 0))) ks /\
    (forall i s, In i ks -> nth_error (SF2File.samples Ex.stereo) (Z.to_nat i) = Some s ->
       SF2Sample.sample_link s <> 0 -> SF2Sample.sample_link s < zlen (SF2File.samples Ex.stereo) ->
       In (SF2Sample.sample_link s) ks)).
Proof.
  destruct (subset_sf2 Ex.stereo [(0, 0)]) as [o|e] eqn:E; [|vm_compute in E; discriminate].
  exists o; split; [reflexivity|].
  apply (subset_sf2_stereo_links Ex.stereo o [(0, 0)] eq_refl); [|exact E].
  intros [|[|[|[|i]]]] s Es Hnz Hlt; simpl in Es;
    [ injection Es as <-; exfalso; apply Hnz; reflexivity
    | injection Es as <-; split; [simpl; lia | eexists; split; reflexivity]
    | injection Es as <-; split; [simpl; lia | eexists; split; reflexivity]
    | injection Es as <-; exfalso; apply Hnz; reflexivity
    | destruct i; discriminate ].
Defined.

(** C5: in [Ex.chain] the generator references S0, whose link S1 is kept;
    the link S2 of S1 is not. *)
Lemma subset_sf2_stereo_links_counterexample :
  exists o, subset_sf2 Ex.chain [(0, 0)] = Ok o /\
    map SF2Sample.name (SF2File.samples o) = [bstr "S0"; bstr "S1"; bstr "EOS"] /\
    SF2Sample.name (nth 1 (SF2File.samples Ex.chain) (EOS 0)) = bstr "S1" /\
    SF2Sample.sample_link (nth 1 (SF2File.samples Ex.chain) (EOS 0)) = 2 /\
    SF2Sample.name (nth 2 (SF2File.samples Ex.chain) (EOS 0)) = bstr "S2".
Proof. vm_compute; eexists; repeat split. Qed.

(** ** C1: writing back a parsed record *)

Lemma bytes_ok_Forall d : bytes_ok d = true -> Forall (fun b => 0 <= b < 256) d.
Proof.
  unfold bytes_ok; rewrite forallb_forall, Forall_forall; intros H x Hx.
  specialize (H x Hx); apply andb_true_iff in H as [H1 H2];
    apply Z.leb_le in H1; apply Z.ltb_lt in H2; lia.
Qed.

Lemma le_val_range l :
  Forall (fun b => 0 <= b < 256) l -> 0 <= le_val l < 2 ^ (8 * Z.of_nat (length l)).
Proof.
  induction l as [|b t IH]; intros H; cbn [le_val length]; [simpl; lia|].
  inversion_clear H as [|? ? Hb Ht]; specialize (IH Ht).
  rewrite Nat2Z.inj_succ, Z.mul_succ_r, Z.pow_add_r by lia; change (2 ^ 8) with 256; nia.
Qed.

Lemma le_bytes_le_val l :
  Forall (fun b => 0 <= b < 256) l -> le_bytes (length l) (le_val l) = l.
Proof.
  induction l as [|b t IH]; intros H; cbn [le_val le_bytes length]; [reflexivity|].
  inversion_clear H as [|? ? Hb Ht].
  change 255 with (Z.ones 8); rewrite Z.land_ones, Z.shiftr_div_pow2 by lia.
  change (2 ^ 8) with 256.
  rewrite (Z.mul_comm 256 (le_val t)), Z.mod_add, Z.div_add, Z.mod_small, Z.div_small by lia.
  rewrite Z.add_0_l, IH by exact Ht; reflexivity.
Qed.

Lemma pack_le_val k l :
  Forall (fun b => 0 <= b < 256) l -> length l = k -> pack_u k (le_val l) = Ok l.
Proof.
  intros H <-; unfold pack_u; pose proof (le_val_range l H).
  replace ((0 <=? le_val l) && (le_val l <? 2 ^ (8 * Z.of_nat (length l)))) with true
    by (symmetry; apply andb_true_iff; split; [apply Z.leb_le | apply Z.ltb_lt]; lia).
  rewrite le_bytes_le_val by exact H; reflexivity.
Qed.

Lemma pack_s16_le_val l :
  Forall (fun b => 0 <= b < 256) l -> length l = 2%nat -> pack_s16 (s16_of (le_val l)) = Ok l.
Proof.
  intros H Hl; pose proof (le_val_range l H) as Hr; rewrite Hl in Hr; simpl in Hr.
  unfold pack_s16, s16_of.
  assert (E : forall x, (-32768 <= x < 32768) -> x mod 65536 = le_val l ->
              (if (-32768 <=? x) && (x <? 32768) then Ok (le_bytes 2 (x mod 65536))
               else Err StructError) = Ok l).
  { intros x Hx Hm.
    replace ((-32768 <=? x) && (x <? 32768)) with true
      by (symmetry; apply andb_true_iff; split; [apply Z.leb_le | apply Z.ltb_lt]; lia).
    rewrite Hm, <- Hl, le_bytes_le_val by exact H; reflexivity. }
  destruct (Z.ltb_spec (le_val l) 32768); apply E; try lia.
  - apply Z.mod_small; lia.
  - replace (le_val l - 65536) with (le_val l + (-1) * 65536) by lia.
    rewrite Z.mod_add, Z.mod_small by lia; reflexivity.
Qed.

Lemma repeat_snoc {A} (x : A) k : repeat x k ++ [x] = x :: repeat x k.
Proof. induction k as [|k IH]; simpl; [reflexivity | rewrite IH; reflexivity]. Qed.

(** [rstrip(b'\x00')] removes trailing zeros only. *)
Lemma lstrip0_pad m : exists k, rev m = rev (lstrip0 m) ++ repeat 0 k.
Proof.
  induction m as [|z t IH]; [exists 0%nat; reflexivity|].
  destruct z as [|p|p]; cbn [lstrip0 rev].
  - destruct IH as [k Hk]; exists (S k); rewrite Hk, <- app_assoc, repeat_snoc; reflexivity.
  - exists 0%nat; rewrite app_nil_r; reflexivity.
  - exists 0%nat; rewrite app_nil_r; reflexivity.
Qed.

Lemma rstrip0_pad l : exists k, l = rstrip0 l ++ repeat 0 k.
Proof.
  destruct (lstrip0_pad (rev l)) as [k Hk]; exists k.
  rewrite rev_involutive in Hk; exact Hk.
Qed.

Lemma encode_name_rstrip0 l :
  Forall (fun b => 0 <= b < 256) l -> length l = 20%nat -> encode_name (rstrip0 l) = Ok l.
Proof.
  intros H Hl; destruct (rstrip0_pad l) as [k Hk].
  assert (Hlen : (length (rstrip0 l) + k = 20)%nat)
    by (pose proof (f_equal (@length Z) Hk) as E; rewrite length_app, repeat_length in E; lia).
  unfold encode_name.
  replace (forallb (fun c => (0 <=? c) && (c <? 256)) (rstrip0 l)) with true.
  - rewrite firstn_all2 by lia.
    replace (20 - length (rstrip0 l))%nat with k by lia; rewrite <- Hk; reflexivity.
  - symmetry; apply forallb_forall; intros x Hx.
    rewrite Forall_forall in H; assert (Hx' : In x l) by (rewrite Hk; apply in_or_app; left; exact Hx).
    specialize (H x Hx'); apply andb_true_iff; split; [apply Z.leb_le | apply Z.ltb_lt]; lia.
Qed.

Lemma pack_u4_diff x y :
  0 <= x < 2 ^ 32 -> 0 <= y < 2 ^ 32 ->
  pack_u 4 (0 + (x - y)) = if y <=? x then Ok (le_bytes 4 (x - y)) else Err StructError.
Proof.
  intros Hx Hy; unfold pack_u; replace (0 + (x - y)) with (x - y) by lia.
  change (2 ^ (8 * Z.of_nat 4)) with (2 ^ 32).
  destruct (Z.leb_spec y x) as [h|h].
  - rewrite (proj2 (Z.leb_le 0 (x - y))), (proj2 (Z.ltb_lt (x - y) (2 ^ 32))) by lia; reflexivity.
  - rewrite (proj2 (Z.leb_gt 0 (x - y))) by lia; reflexivity.
Qed.

(** A list of [n] bytes, taken apart into its elements. *)
Ltac explode d :=
  repeat (destruct d as [|? d]; [discriminate|]); destruct d; [|discriminate].
Ltac forall_bytes := repeat (apply Forall_cons; [assumption|]); apply Forall_nil.
Ltac split_bytes :=
  repeat match goal with H : Forall _ (_ :: _) |- _ => inversion_clear H end.
Ltac parsed_record d r :=
  intros Hb Hl Hp; apply bytes_ok_Forall in Hb; explode d; split_bytes;
  cbv beta zeta delta [SF2Preset.from_bytes SF2Inst.from_bytes SF2Sample.from_bytes
    SF2Bag.from_bytes SF2Generator.from_bytes SF2Modulator.from_bytes
    decode_name field] in Hp;
  cbv -[le_val rstrip0 s16_of] in Hp;
  apply (f_equal (fun x => match x with Ok a => a | Err _ => r end)) in Hp;
  cbv beta iota in Hp; subst r.

Lemma preset_write_after_parse d r :
  bytes_ok d = true -> length d = 38%nat -> SF2Preset.from_bytes d = Ok r ->
  SF2Preset.to_bytes r = Ok (firstn 24 d ++ [0; 0] ++ skipn 26 d).
Proof.
  parsed_record d r.
  unfold SF2Preset.to_bytes; cbv -[le_val rstrip0 encode_name pack_u].
  rewrite encode_name_rstrip0 by (reflexivity || forall_bytes).
  repeat rewrite pack_le_val by (reflexivity || forall_bytes).
  reflexivity.
Qed.

Lemma inst_write_after_parse d r :
  bytes_ok d = true -> length d = 22%nat -> SF2Inst.from_bytes d = Ok r ->
  SF2Inst.to_bytes r = Ok (firstn 20 d ++ [0; 0]).
Proof.
  parsed_record d r.
  unfold SF2Inst.to_bytes; cbv -[le_val rstrip0 encode_name pack_u].
  rewrite encode_name_rstrip0 by (reflexivity || forall_bytes).
  reflexivity.
Qed.

Lemma sample_write_after_parse d r :
  bytes_ok d = true -> length d = 46%nat -> SF2Sample.from_bytes d = Ok r ->
  SF2Sample.to_bytes r =
    if (SF2Sample.start r <=? SF2Sample.loop_start r)
       && (SF2Sample.start r <=? SF2Sample.loop_end r)
    then Ok (firstn 20 d ++ repeat 0 8
             ++ le_bytes 4 (SF2Sample.loop_start r - SF2Sample.start r)
             ++ le_bytes 4 (SF2Sample.loop_end r - SF2Sample.start r) ++ skipn 36 d)
    else Err StructError.
Proof.
  parsed_record d r.
  unfold SF2Sample.to_bytes;
    cbv -[le_val rstrip0 encode_name pack_u le_bytes Z.leb Z.sub Z.add andb].
  rewrite encode_name_rstrip0 by (reflexivity || forall_bytes).
  repeat rewrite pack_le_val by (reflexivity || forall_bytes).
  repeat rewrite pack_u4_diff
    by (match goal with |- context [le_val ?l] =>
          pose proof (le_val_range l ltac:(forall_bytes)) as R;
          simpl length in R; change (2 ^ (8 * Z.of_nat 4)) with (2 ^ 32) in R; lia end).
  destruct (_ <=? _); destruct (_ <=? _); reflexivity.
Qed.

Lemma bag_write_after_parse d r :
  bytes_ok d = true -> length d = 4%nat -> SF2Bag.from_bytes d = Ok r ->
  SF2Bag.to_bytes r = Ok d.
Proof.
  parsed_record d r.
  unfold SF2Bag.to_bytes; cbv -[le_val pack_u].
  repeat rewrite pack_le_val by (reflexivity || forall_bytes).
  reflexivity.
Qed.

Lemma generator_write_after_parse d r :
  bytes_ok d = true -> length d = 4%nat -> SF2Generator.from_bytes d = Ok r ->
  SF2Generator.to_bytes r = Ok d.
Proof.
  parsed_record d r.
  unfold SF2Generator.to_bytes; cbv -[le_val pack_u].
  repeat rewrite pack_le_val by (reflexivity || forall_bytes).
  reflexivity.
Qed.

Lemma modulator_write_after_parse d r :
  bytes_ok d = true -> length d = 10%nat -> SF2Modulator.from_bytes d = Ok r ->
  SF2Modulator.to_bytes r = Ok d.
Proof.
  parsed_record d r.
  unfold SF2Modulator.to_bytes; cbv -[le_val pack_u pack_s16 s16_of].
  repeat rewrite pack_le_val by (reflexivity || forall_bytes).
  rewrite pack_s16_le_val by (reflexivity || forall_bytes).
  reflexivity.
Qed.

(** C1 (amended): [write_sf2] writes the runtime fields of the records, which
    [parse_sf2] leaves at their defaults. A parsed preset or instrument is
    written back with bag index 0; a parsed sample with start and end 0 and
    its loop points shifted by [-start], and [to_bytes] raises [struct.error]
    when a loop point lies below [start]. All other bytes are written back
    unchanged, and bag, generator and modulator records are written back
    byte for byte. *)
Theorem record_write_after_parse :
  (forall d r, bytes_ok d = true -> length d = 38%nat -> SF2Preset.from_bytes d = Ok r ->
     SF2Preset.to_bytes r = Ok (firstn 24 d ++ [0; 0] ++ skipn 26 d)) /\
  (forall d r, bytes_ok d = true -> length d = 22%nat -> SF2Inst.from_bytes d = Ok r ->
     SF2Inst.to_bytes r = Ok (firstn 20 d ++ [0; 0])) /\
  (forall d r, bytes_ok d = true -> length d = 46%nat -> SF2Sample.from_bytes d = Ok r ->
     SF2Sample.to_bytes r =
       if (SF2Sample.start r <=? SF2Sample.loop_start r)
          && (SF2Sample.start r <=? SF2Sample.loop_end r)
       then Ok (firstn 20 d ++ repeat 0 8
                ++ le_bytes 4 (SF2Sample.loop_start r - SF2Sample.start r)
                ++ le_bytes 4 (SF2Sample.loop_end r - SF2Sample.start r) ++ skipn 36 d)
       else Err StructError) /\
  (forall d r, bytes_ok d = true -> length d = 4%nat -> SF2Bag.from_bytes d = Ok r ->
     SF2Bag.to_bytes r = Ok d) /\
  (forall d r, bytes_ok d = true -> length d = 4%nat -> SF2Generator.from_bytes d = Ok r ->
     SF2Generator.to_bytes r = Ok d) /\
  (forall d r, bytes_ok d = true -> length d = 10%nat -> SF2Modulator.from_bytes d = Ok r ->
     SF2Modulator.to_bytes r = Ok d).
Proof.
  split; [exact preset_write_after_parse|].
  split; [exact inst_write_after_parse|].
  split; [exact sample_write_after_parse|].
  split; [exact bag_write_after_parse|].
  split; [exact generator_write_after_parse | exact modulator_write_after_parse].
Qed.

Lemma record_write_after_parse_witness :
  SF2Preset.from_bytes Ex.phdr_rec = Ok Ex.phdr_preset /\
  SF2Preset.to_bytes Ex.phdr_preset
    = Ok (firstn 24 Ex.phdr_rec ++ [0; 0] ++ skipn 26 Ex.phdr_rec).
Proof.
  split; [reflexivity|].
  apply (proj1 record_write_after_parse Ex.phdr_rec Ex.phdr_preset); reflexivity.
Defined.

(** C1: parsing a file written by [write_sf2], writing the model back and
    parsing again changes the presets: their bag indices become 0. *)
Lemma record_write_after_parse_counterexample :
  exists m1 f2 m2,
    parse_sf2 Ex.rt_file = Ok m1 /\ write_sf2 m1 = Ok f2 /\ parse_sf2 f2 = Ok m2 /\
    map SF2Preset.bag_idx (SF2File.presets m1) = [0; 1; 2] /\
    map SF2Preset.bag_idx (SF2File.presets m2) = [0; 0; 0].
Proof.
  pose (m1 := match parse_sf2 Ex.rt_file with Ok m => m | Err _ => SF2File.empty end).
  pose (f2 := match write_sf2 m1 with Ok b => b | Err _ => [] end).
  pose (m2 := match parse_sf2 f2 with Ok m => m | Err _ => SF2File.empty end).
  exists m1, f2, m2; repeat split; vm_compute; reflexivity.
Qed.

(** * Further properties of the code *)

(** ** The MIDI scanner *)

Lemma land15_range x : 0 <= Z.land x 15 < 16.
Proof.
  change 15 with (Z.ones 4); rewrite Z.land_ones by lia.
  pose proof (Z.mod_pos_bound x (2 ^ 4)); change (2 ^ 4) with 16 in *; lia.
Qed.

Lemma pair_add_In_pred (P : Z * Z -> Prop) x s :
  P x -> (forall y, In y s -> P y) -> forall y, In y (pair_add x s) -> P y.
Proof. intros Hx Hs y Hy; apply pair_add_In in Hy as [->|Hy]; auto. Qed.

Lemma zset_add_In_pred (P : Z -> Prop) x s :
  P x -> (forall y, In y s -> P y) -> forall y, In y (zset_add x s) -> P y.
Proof. intros Hx Hs y Hy; apply zset_add_In in Hy as [->|Hy]; auto. Qed.

Lemma scan_loop_cons2 byte nxt rest2 programs note_channels :
  scan_loop (byte :: nxt :: rest2) programs note_channels =
  if (192 <=? byte) && (byte <=? 207) then
    scan_loop rest2 (if nxt <? 128 then pair_add (Z.land byte 15, nxt) programs else programs)
      note_channels
  else if (144 <=? byte) && (byte <=? 159) then
    match rest2 with
    | [] => (programs, zset_add (Z.land byte 15) note_channels)
    | _ :: rest3 => scan_loop rest3 programs (zset_add (Z.land byte 15) note_channels)
    end
  else scan_loop (nxt :: rest2) programs note_channels.
Proof. reflexivity. Qed.

Lemma scan_loop_ranges n l programs channels :
  (length l <= n)%nat -> Forall (fun b => 0 <= b < 256) l ->
  (forall c p, In (c, p) programs -> 0 <= c < 16 /\ 0 <= p < 128) ->
  (forall c, In c channels -> 0 <= c < 16) ->
  (forall c p, In (c, p) (fst (scan_loop l programs channels)) -> 0 <= c < 16 /\ 0 <= p < 128) /\
  (forall c, In c (snd (scan_loop l programs channels)) -> 0 <= c < 16).
Proof.
  revert l programs channels; induction n as [|n IH]; intros l programs channels Hn Hb Hp Hc.
  { destruct l; [simpl; auto | simpl in Hn; lia]. }
  destruct l as [|byte [|nxt rest2]]; [simpl; auto | simpl; auto |].
  inversion_clear Hb as [|? ? Hbyte Hb1]; inversion_clear Hb1 as [|? ? Hnxt Hb2].
  rewrite scan_loop_cons2.
  destruct ((192 <=? byte) && (byte <=? 207)).
  - apply IH; [simpl in Hn; lia | exact Hb2 | | exact Hc].
    destruct (Z.ltb_spec nxt 128); [|exact Hp].
    intros c p Hin.
    apply (pair_add_In_pred (fun '(c, p) => 0 <= c < 16 /\ 0 <= p < 128)) in Hin;
      [exact Hin | split; [apply land15_range | lia] | intros [c' p'] Hy; apply Hp, Hy].
  - destruct ((144 <=? byte) && (byte <=? 159)).
    + assert (Hc' : forall c, In c (zset_add (Z.land byte 15) channels) -> 0 <= c < 16)
        by (apply zset_add_In_pred; [apply land15_range | exact Hc]).
      destruct rest2 as [|x rest3]; [split; [exact Hp | exact Hc']|].
      inversion_clear Hb2; apply IH; [simpl in Hn; lia | assumption | exact Hp | exact Hc'].
    + apply IH; [simpl in *; lia | constructor; assumption | exact Hp | exact Hc].
Qed.

(** Every program the scanner records is a valid MIDI program number on one
    of the 16 channels, and every note-on channel it records is one of the
    16 channels. *)
Theorem scan_midi_for_programs_ranges (data : list Z) :
  bytes_ok data = true ->
  (forall c p, In (c, p) (fst (scan_midi_for_programs data)) -> 0 <= c < 16 /\ 0 <= p < 128) /\
  (forall c, In c (snd (scan_midi_for_programs data)) -> 0 <= c < 16).
Proof.
  intros Hb; apply (scan_loop_ranges (length data));
    [lia | apply bytes_ok_Forall, Hb | intros ? ? [] | intros ? []].
Qed.

Lemma scan_midi_for_programs_ranges_witness :
  bytes_ok [192; 5; 153; 36; 100] = true /\
  (forall c p, In (c, p) (fst (scan_midi_for_programs [192; 5; 153; 36; 100])) -> 0 <= p < 128).
Proof.
  split; [reflexivity|].
  intros c p H; apply (proj1 (scan_midi_for_programs_ranges [192; 5; 153; 36; 100] eq_refl) c p H).
Defined.

Lemma add_programs_In_inv programs needed x :
  In x (add_programs programs needed) ->
  In x needed \/ exists c p, In (c, p) programs /\ c <> 9 /\ x = (0, p).
Proof.
  unfold add_programs; revert needed; induction programs as [|[c p] t IH]; intros needed H;
    simpl in H; [left; exact H|].
  apply IH in H as [H|(c' & p' & Hin & H9 & ->)];
    [|right; exists c', p'; split; [right; exact Hin | split; [exact H9 | reflexivity]]].
  destruct (negb (c =? 9)) eqn:E; [|left; exact H].
  apply pair_add_In in H as [->|H]; [|left; exact H].
  right; exists c, p; split; [left; reflexivity | split; [|reflexivity]].
  apply negb_true_iff, Z.eqb_neq in E; exact E.
Qed.

Lemma scan_fold_sources files n0 u0 :
  let '(n, u) := fold_left (fun '(needed, uses_drums) data =>
        let '(programs, channels) := scan_midi_for_programs data in
        (add_programs programs needed, uses_drums || zset_mem 9 channels))
      files (n0, u0) in
  (forall x, In x n -> In x n0 \/
     exists data c p, In data files /\ In (c, p) (fst (scan_midi_for_programs data)) /\
                      c <> 9 /\ x = (0, p)) /\
  (u = true -> u0 = true \/ exists data, In data files /\ In 9 (snd (scan_midi_for_programs data))).
Proof.
  revert n0 u0; induction files as [|d t IH]; intros n0 u0; simpl.
  - split; [intros x H; left; exact H | intros H; left; exact H].
  - destruct (scan_midi_for_programs d) as [programs channels] eqn:Es.
    specialize (IH (add_programs programs n0) (u0 || zset_mem 9 channels)).
    destruct (fold_left _ t _) as [n u].
    destruct IH as [Hn Hu]; split.
    + intros x Hx; apply Hn in Hx as [Hx|(data & c & p & Hd & Hin & H9 & ->)].
      * apply add_programs_In_inv in Hx as [Hx|(c & p & Hin & H9 & ->)]; [left; exact Hx|].
        right; exists d, c, p; rewrite Es; auto.
      * right; exists data, c, p; auto.
    + intros Hu1; apply Hu in Hu1 as [Hu1|(data & Hd & H9)].
      * apply orb_true_iff in Hu1 as [Hu1|Hu1]; [left; exact Hu1|].
        right; exists d; rewrite Es; split; [left; reflexivity | apply zset_mem_In, Hu1].
      * right; exists data; auto.
Qed.

(** Everything in the wanted set comes from the scanned files: a pair
    [(0, program)] for a program change the scanner recorded on a channel
    other than 9, or the drum kit [(128, 0)] when some file has a note-on
    on channel 9. *)
Theorem scan_midi_directory_sources (files : list (list Z)) (x : Z * Z) :
  In x (scan_midi_directory files) ->
  (exists data c p, In data files /\ In (c, p) (fst (scan_midi_for_programs data)) /\
                    c <> 9 /\ x = (0, p)) \/
  (x = (128, 0) /\ exists data, In data files /\ In 9 (snd (scan_midi_for_programs data))).
Proof.
  unfold scan_midi_directory; intros Hx.
  pose proof (scan_fold_sources files [] false) as Hinv.
  destruct (fold_left _ files ([], false)) as [n u].
  destruct Hinv as [Hn Hu].
  assert (Hn' : In x n -> (exists data c p, In data files /\
                  In (c, p) (fst (scan_midi_for_programs data)) /\ c <> 9 /\ x = (0, p)))
    by (intros H; apply Hn in H as [[]|H]; exact H).
  destruct u; [|left; apply Hn', Hx].
  apply pair_add_In in Hx as [->|Hx]; [right; split; [reflexivity|]|left; apply Hn', Hx].
  destruct (Hu eq_refl) as [E|H]; [discriminate | exact H].
Qed.

Lemma scan_midi_directory_sources_witness :
  In (128, 0) (scan_midi_directory [[192; 5; 153; 36; 100]]) /\
  exists data, In data [[192; 5; 153; 36; 100]] /\ In 9 (snd (scan_midi_for_programs data)).
Proof.
  split; [simpl; auto|].
  destruct (scan_midi_directory_sources [[192; 5; 153; 36; 100]] (128, 0) ltac:(simpl; auto))
    as [(data & c & p & _ & _ & _ & E)|(_ & H)]; [discriminate E | exact H].
Defined.

(** ** The record codecs: reading back what [to_bytes] writes *)

Lemma length_le_bytes n x : length (le_bytes n x) = n.
Proof. revert x; induction n as [|n IH]; intros x; simpl; [reflexivity | rewrite IH; reflexivity]. Qed.

Lemma le_val_le_bytes n x :
  0 <= x < 2 ^ (8 * Z.of_nat n) -> le_val (le_bytes n x) = x.
Proof.
  revert x; induction n as [|n IH]; intros x Hx; [simpl in *; lia|].
  cbn [le_bytes le_val]; rewrite IH.
  - change 255 with (Z.ones 8); rewrite Z.land_ones, Z.shiftr_div_pow2 by lia.
    change (2 ^ 8) with 256; pose proof (Z.div_mod x 256); lia.
  - rewrite Z.shiftr_div_pow2 by lia; change (2 ^ 8) with 256.
    rewrite Nat2Z.inj_succ, Z.mul_succ_r, Z.pow_add_r in Hx by lia; change (2 ^ 8) with 256 in Hx.
    split; [apply Z.div_pos; lia | apply Z.div_lt_upper_bound; lia].
Qed.

Lemma le_bytes_range n x : Forall (fun b => 0 <= b < 256) (le_bytes n x).
Proof.
  revert x; induction n as [|n IH]; intros x; constructor; [|apply IH].
  change 255 with (Z.ones 8); rewrite Z.land_ones by lia.
  apply Z.mod_pos_bound; reflexivity.
Qed.

Lemma pack_u_inv n x l :
  pack_u n x = Ok l -> l = le_bytes n x /\ 0 <= x < 2 ^ (8 * Z.of_nat n).
Proof.
  unfold pack_u; destruct (Z.leb_spec 0 x), (Z.ltb_spec x (2 ^ (8 * Z.of_nat n)));
    cbn [andb]; intros Hp; try discriminate; injection Hp as <-; split; [reflexivity | lia].
Qed.

Lemma pack_s16_inv x l :
  pack_s16 x = Ok l -> l = le_bytes 2 (x mod 65536) /\ s16_of (le_val l) = x.
Proof.
  unfold pack_s16; destruct (Z.leb_spec (-32768) x), (Z.ltb_spec x 32768);
    cbn [andb]; intros Hp; try discriminate;
    assert (El : l = le_bytes 2 (x mod 65536)) by congruence; subst l; split; [reflexivity|].
  rewrite le_val_le_bytes by (pose proof (Z.mod_pos_bound x 65536); simpl; lia).
  unfold s16_of; destruct (Z.leb_spec 0 x).
  - rewrite Z.mod_small by lia; rewrite (proj2 (Z.ltb_lt x 32768)) by lia; reflexivity.
  - replace (x mod 65536) with (x + 1 * 65536)
      by (rewrite <- Z.mod_add with (b := 1) by lia; rewrite Z.mod_small; lia).
    rewrite (proj2 (Z.ltb_ge _ 32768)) by lia; lia.
Qed.

Lemma rstrip0_app_zeros l k : rstrip0 (l ++ repeat 0 k) = rstrip0 l.
Proof.
  unfold rstrip0; rewrite rev_app_distr, rev_repeat.
  induction k as [|k IH]; [reflexivity | exact IH].
Qed.

Lemma encode_name_inv n nb :
  encode_name n = Ok nb ->
  length nb = 20%nat /\ rstrip0 (firstn 20 nb) = rstrip0 (firstn 20 n) /\
  Forall (fun b => 0 <= b < 256) nb.
Proof.
  unfold encode_name; destruct (forallb _ n) eqn:E; [|discriminate].
  intros H; injection H as <-.
  assert (Hl : (length (firstn 20 n) <= 20)%nat) by (rewrite length_firstn; lia).
  assert (Hlen : length (firstn 20 n ++ repeat 0 (20 - length (firstn 20 n))) = 20%nat)
    by (rewrite length_app, repeat_length; lia).
  split; [exact Hlen | split].
  - rewrite (firstn_all2 (firstn 20 n ++ repeat 0 (20 - length (firstn 20 n)))) by lia; apply rstrip0_app_zeros.
  - apply Forall_app; split; [|apply Forall_forall; intros x Hx; apply repeat_spec in Hx; lia].
    apply Forall_forall; intros x Hx; assert (Hx2 : In x n) by (rewrite <- (firstn_skipn 20 n); apply in_or_app; left; exact Hx).
    rewrite forallb_forall in E; specialize (E x Hx2); apply andb_true_iff in E as [E1 E2].
    apply Z.leb_le in E1; apply Z.ltb_lt in E2; lia.
Qed.

Lemma field_app_hd l r k : length l = k -> field (l ++ r) 0 k = le_val l.
Proof.
  intros <-; unfold field; cbn [skipn]; rewrite firstn_app, Nat.sub_diag, firstn_all, app_nil_r;
    reflexivity.
Qed.

Lemma field_app_skip l r o k :
  (length l <= o)%nat -> field (l ++ r) o k = field r (o - length l) k.
Proof.
  intros H; unfold field; rewrite skipn_app, (skipn_all2 l) by lia; reflexivity.
Qed.

Lemma field_all l k : length l = k -> field l 0 k = le_val l.
Proof. intros <-; unfold field; cbn [skipn]; rewrite firstn_all; reflexivity. Qed.

Lemma py_slice_app_tail {A} (pre rest : list A) (a b : Z) :
  0 <= a <= b -> length pre = Z.to_nat a -> length rest = Z.to_nat (b - a) ->
  py_slice (pre ++ rest) a b = rest.
Proof.
  intros Hab Hp Hr; unfold py_slice, slice_bound, zlen; rewrite length_app.
  rewrite (proj2 (Z.ltb_ge a 0)), (proj2 (Z.ltb_ge b 0)) by lia.
  rewrite Z.min_l, Z.min_l by lia.
  rewrite skipn_app, (skipn_all2 pre) by lia; rewrite Hp, Nat.sub_diag; cbn [skipn app].
  rewrite firstn_all2 by lia; reflexivity.
Qed.

Lemma unpack_check_ok n d : length d = n -> unpack_check n d = Ok tt.
Proof. intros <-; unfold unpack_check; rewrite Nat.eqb_refl; reflexivity. Qed.

Lemma decode_name_app pre rest : length pre = 20%nat -> decode_name (pre ++ rest) = rstrip0 pre.
Proof.
  intros H; unfold decode_name; rewrite firstn_app, H, Nat.sub_diag, <- H, firstn_all;
    cbn [firstn]; rewrite app_nil_r; reflexivity.
Qed.

(** The fields of a record image made of packed pieces. *)
Ltac read_fields :=
  repeat match goal with
  | |- context [field (?l ++ ?r) O ?k] =>
      rewrite (field_app_hd l r k) by (rewrite ?length_le_bytes; reflexivity)
  | |- context [field (?l ++ ?r) (S ?o) ?k] =>
      rewrite (field_app_skip l r (S o) k) by (rewrite ?length_le_bytes; lia);
      rewrite ?length_le_bytes; cbn [Nat.sub]
  | |- context [field ?l O ?k] =>
      rewrite (field_all l k) by (rewrite ?length_le_bytes; reflexivity)
  end.

(** [let* x := m in k = Ok v] taken apart, with the packing facts. *)
Ltac unpack_writes H :=
  repeat match type of H with
  | bind ?m ?k = Ok _ =>
      let x := fresh "x" in let E := fresh "E" in
      apply bind_Ok_inv in H as (x & E & H);
      first [ apply pack_u_inv in E as [-> ?]
            | apply pack_s16_inv in E as [-> ?]
            | idtac ]
  end;
  match type of H with
  | Ok ?v = Ok ?w => let Ew := fresh "Ew" in assert (Ew : w = v) by congruence; subst w; clear H
  | _ => idtac
  end.

Lemma bag_from_to_bytes b d : SF2Bag.to_bytes b = Ok d -> SF2Bag.from_bytes d = Ok b.
Proof.
  destruct b as [g m]; unfold SF2Bag.to_bytes; cbn [SF2Bag.gen_idx SF2Bag.mod_idx].
  intros H; unpack_writes H.
  unfold SF2Bag.from_bytes; rewrite unpack_check_ok by (rewrite length_app, !length_le_bytes; reflexivity).
  cbn [bind]; read_fields; rewrite !le_val_le_bytes by assumption; reflexivity.
Qed.

Lemma generator_from_to_bytes g d :
  SF2Generator.to_bytes g = Ok d -> SF2Generator.from_bytes d = Ok g.
Proof.
  destruct g as [o a]; unfold SF2Generator.to_bytes; cbn [SF2Generator.oper SF2Generator.amount].
  intros H; unpack_writes H.
  unfold SF2Generator.from_bytes;
    rewrite unpack_check_ok by (rewrite length_app, !length_le_bytes; reflexivity).
  cbn [bind]; read_fields; rewrite !le_val_le_bytes by assumption; reflexivity.
Qed.

Lemma modulator_from_to_bytes m d :
  SF2Modulator.to_bytes m = Ok d -> SF2Modulator.from_bytes d = Ok m.
Proof.
  destruct m as [sr de am as_ tr]; unfold SF2Modulator.to_bytes;
    cbn [SF2Modulator.src SF2Modulator.dest SF2Modulator.amount SF2Modulator.amt_src
         SF2Modulator.transform].
  intros H; unpack_writes H.
  unfold SF2Modulator.from_bytes;
    rewrite unpack_check_ok by (rewrite !length_app, !length_le_bytes; reflexivity).
  cbn [bind]; read_fields.
  match goal with Hs : s16_of (le_val ?l) = _ |- _ => rewrite Hs end.
  rewrite !le_val_le_bytes by assumption; reflexivity.
Qed.

Lemma inst_from_to_bytes i d :
  SF2Inst.to_bytes i = Ok d ->
  length d = 22%nat /\
  SF2Inst.from_bytes d = Ok (SF2Inst.make (rstrip0 (firstn 20 (SF2Inst.name i)))
                                          (SF2Inst.new_bag_idx i)).
Proof.
  unfold SF2Inst.to_bytes; intros H; unpack_writes H.
  match goal with En : encode_name _ = Ok ?nb |- _ =>
    apply encode_name_inv in En as (Hl & Hn & _); split;
    [rewrite length_app, length_le_bytes, Hl; reflexivity|];
    unfold SF2Inst.from_bytes; rewrite decode_name_app, py_slice_app_tail by
      (rewrite ?length_le_bytes; (assumption || lia));
    rewrite <- Hn, (firstn_all2 nb) by lia
  end.
  rewrite unpack_check_ok by (rewrite ?length_le_bytes; reflexivity).
  cbn [bind]; read_fields; rewrite !le_val_le_bytes by assumption; reflexivity.
Qed.

Lemma preset_from_to_bytes p d :
  SF2Preset.to_bytes p = Ok d ->
  length d = 38%nat /\
  SF2Preset.from_bytes d =
    Ok (SF2Preset.make (rstrip0 (firstn 20 (SF2Preset.name p))) (SF2Preset.preset p)
          (SF2Preset.bank p) (SF2Preset.new_bag_idx p) (SF2Preset.library p)
          (SF2Preset.genre p) (SF2Preset.morphology p)).
Proof.
  unfold SF2Preset.to_bytes; intros H; unpack_writes H.
  match goal with En : encode_name _ = Ok ?nb |- _ =>
    apply encode_name_inv in En as (Hl & Hn & _); split;
    [rewrite !length_app, !length_le_bytes, Hl; reflexivity|];
    unfold SF2Preset.from_bytes; rewrite decode_name_app, py_slice_app_tail by
      (rewrite ?length_app, ?length_le_bytes; (assumption || lia));
    rewrite <- Hn, (firstn_all2 nb) by lia
  end.
  rewrite unpack_check_ok by (rewrite ?length_app, ?length_le_bytes; reflexivity).
  cbn [bind]; read_fields; rewrite !le_val_le_bytes by assumption; reflexivity.
Qed.

Lemma sample_from_to_bytes s d :
  SF2Sample.to_bytes s = Ok d ->
  length d = 46%nat /\
  SF2Sample.from_bytes d =
    Ok (SF2Sample.make (rstrip0 (firstn 20 (SF2Sample.name s)))
          (SF2Sample.new_start s) (SF2Sample.new_end s)
          (SF2Sample.new_start s + (SF2Sample.loop_start s - SF2Sample.start s))
          (SF2Sample.new_start s + (SF2Sample.loop_end s - SF2Sample.start s))
          (SF2Sample.sample_rate s) (SF2Sample.original_pitch s)
          (SF2Sample.pitch_correction s) (SF2Sample.sample_link s) (SF2Sample.sample_type s)).
Proof.
  unfold SF2Sample.to_bytes; intros H; unpack_writes H.
  match goal with En : encode_name _ = Ok ?nb |- _ =>
    apply encode_name_inv in En as (Hl & Hn & _); split;
    [rewrite !length_app, !length_le_bytes, Hl; reflexivity|];
    unfold SF2Sample.from_bytes; rewrite decode_name_app, py_slice_app_tail by
      (rewrite ?length_app, ?length_le_bytes; (assumption || lia));
    rewrite <- Hn, (firstn_all2 nb) by lia
  end.
  rewrite unpack_check_ok by (rewrite ?length_app, ?length_le_bytes; reflexivity).
  cbn [bind]; read_fields; rewrite !le_val_le_bytes by assumption; reflexivity.
Qed.

(** ** Writing a model and parsing it back *)

Section Reader.
Variable F : list Z.

Lemma read_at p d s pos :
  F = p ++ d ++ s -> Z.of_nat (length p) = pos -> read F pos (zlen d) = (d, pos + zlen d).
Proof.
  intros -> <-; unfold read, zlen; rewrite !Nat2Z.id, skipn_app, skipn_all, Nat.sub_diag.
  cbn [skipn app]; rewrite firstn_app, Nat.sub_diag, firstn_all; cbn [firstn];
    rewrite app_nil_r; reflexivity.
Qed.

Lemma read_chunk_header_at p id sz s pos :
  F = p ++ id ++ le_bytes 4 sz ++ s -> Z.of_nat (length p) = pos -> length id = 4%nat ->
  forallb (fun c => c <? 128) id = true -> 0 <= sz < 2 ^ 32 ->
  read_chunk_header F pos = Ok (id, sz, pos + 8).
Proof.
  intros HF Hp Hid Ha Hsz; unfold read_chunk_header.
  replace 4 with (zlen id) at 1 by (unfold zlen; rewrite Hid; reflexivity).
  rewrite (read_at p id (le_bytes 4 sz ++ s) pos HF Hp).
  unfold decode_ascii; rewrite Ha; cbn [bind].
  replace 4 with (zlen (le_bytes 4 sz)) by (unfold zlen; rewrite length_le_bytes; reflexivity).
  rewrite (read_at (p ++ id) (le_bytes 4 sz) s (pos + zlen id)) by
    first [rewrite HF, <- app_assoc; reflexivity
          | rewrite length_app, Nat2Z.inj_add; unfold zlen; lia].
  rewrite unpack_check_ok by apply length_le_bytes; cbn [bind].
  rewrite le_val_le_bytes by (simpl; lia).
  unfold zlen; rewrite Hid, length_le_bytes; f_equal; f_equal; lia.
Qed.

Lemma skip_pad_at p v s pos :
  F = p ++ pad v ++ s -> Z.of_nat (length p) = pos -> skip_pad F (zlen v) pos = pos + zlen (pad v).
Proof.
  intros HF Hp; unfold skip_pad, pad in *; destruct (Z.odd (zlen v)).
  - change 1 with (zlen [0]); rewrite (read_at p [0] s pos HF Hp); reflexivity.
  - unfold zlen; simpl; lia.
Qed.
End Reader.

Lemma zlist_eqb_eq a b : zlist_eqb a b = true <-> a = b.
Proof.
  revert b; induction a as [|x a IH]; intros [|y b]; simpl; try (split; congruence).
  rewrite andb_true_iff, Z.eqb_eq, IH; split; [intros [-> ->]; reflexivity | intros H; injection H; auto].
Qed.

Lemma zlen_le_bytes n x : zlen (le_bytes n x) = Z.of_nat n.
Proof. unfold zlen; rewrite length_le_bytes; reflexivity. Qed.

Lemma zlen_nonneg {A} (l : list A) : 0 <= zlen l.
Proof. unfold zlen; lia. Qed.

Lemma zlen_pad v : zlen (pad v) = if Z.odd (zlen v) then 1 else 0.
Proof. unfold pad; destruct (Z.odd (zlen v)); reflexivity. Qed.

Lemma even_pad v : Z.even (zlen (v ++ pad v)) = true.
Proof.
  rewrite zlen_app, zlen_pad, <- Z.negb_odd.
  destruct (Z.odd (zlen v)) eqn:O.
  - rewrite Z.odd_add, O; reflexivity.
  - rewrite Z.add_0_r, O; reflexivity.
Qed.

Lemma pad_even v : Z.even (zlen v) = true -> pad v = [].
Proof. intros E; unfold pad; rewrite <- Z.negb_even, E; reflexivity. Qed.


Section Reader2.
Variable F : list Z.

Lemma info_loop_at kvs : forall p s sf2 n pos list_end,
  F = p ++ concat (map info_entry kvs) ++ s -> pos = zlen p ->
  list_end = pos + zlen (concat (map info_entry kvs)) ->
  Forall info_ok kvs -> (length kvs < n)%nat ->
  info_loop F n list_end pos sf2 =
    Ok (list_end, fold_left (fun m kv => Upd.set_info m (fst kv) (snd kv)) kvs sf2).
Proof.
  induction kvs as [|[k v] t IH]; intros p s sf2 n pos list_end HF Hp Hle Hok Hn;
    (destruct n as [|n]; [simpl in Hn; lia|]); cbn [info_loop].
  - simpl in Hle; unfold zlen in Hle; simpl in Hle.
    replace (pos <? list_end) with false by (symmetry; apply Z.ltb_ge; lia); subst.
    rewrite Z.add_0_r; reflexivity.
  - apply Forall_cons_iff in Hok as [[Hk [Ha Hv]] Hok']; subst pos; cbn [fst snd] in *.
    cbn [map concat] in *.
    change (info_entry (k, v)) with (k ++ le_bytes 4 (zlen v) ++ v ++ pad v) in *.
    rewrite !zlen_app, zlen_le_bytes in Hle.
    pose proof (zlen_nonneg v); pose proof (zlen_nonneg (pad v));
      pose proof (zlen_nonneg (concat (map info_entry t))).
    assert (Hk4 : zlen k = 4) by (unfold zlen; rewrite Hk; reflexivity).
    replace (zlen p <? list_end) with true by (symmetry; apply Z.ltb_lt; lia).
    rewrite (read_chunk_header_at F p k (zlen v)
               (v ++ pad v ++ concat (map info_entry t) ++ s) (zlen p))
      by (rewrite ?HF, <- ?app_assoc; reflexivity || assumption || (split; lia)).
    cbn [bind].
    rewrite (read_at F (p ++ k ++ le_bytes 4 (zlen v)) v
               (pad v ++ concat (map info_entry t) ++ s) (zlen p + 8))
      by (rewrite ?HF, <- ?app_assoc; reflexivity || (rewrite !length_app, length_le_bytes,
                                                       !Nat2Z.inj_add, Hk; unfold zlen; lia)).
    rewrite (skip_pad_at F (p ++ k ++ le_bytes 4 (zlen v) ++ v) v
               (concat (map info_entry t) ++ s) (zlen p + 8 + zlen v))
      by (rewrite ?HF, <- ?app_assoc; reflexivity || (rewrite !length_app, length_le_bytes,
                                                       !Nat2Z.inj_add, Hk; unfold zlen; lia)).
    apply (IH (p ++ k ++ le_bytes 4 (zlen v) ++ v ++ pad v) s); try assumption.
    + rewrite HF, <- !app_assoc; reflexivity.
    + rewrite !zlen_app, zlen_le_bytes; simpl Z.of_nat; lia.
    + lia.
    + simpl in Hn; lia.
Qed.
End Reader2.

Section Reader3.
Variable F : list Z.

Lemma sdta_loop_at p d s sf2 n pos list_end :
  F = p ++ bstr "smpl" ++ le_bytes 4 (zlen d) ++ d ++ pad d ++ s -> pos = zlen p ->
  list_end = pos + 8 + zlen d + zlen (pad d) -> zlen d < 2 ^ 32 -> (2 <= n)%nat ->
  sdta_loop F n list_end pos sf2 = Ok (list_end, Upd.set_sample_data sf2 d).
Proof.
  intros HF Hp Hle Hd Hn; destruct n as [|[|n]]; try lia; cbn [sdta_loop].
  pose proof (zlen_nonneg d); pose proof (zlen_nonneg (pad d)).
  replace (pos <? list_end) with true by (symmetry; apply Z.ltb_lt; lia).
  rewrite (read_chunk_header_at F p (bstr "smpl") (zlen d) (d ++ pad d ++ s) pos)
    by (assumption || reflexivity || (symmetry; assumption) || (split; lia)).
  cbn [bind]; change (zlist_eqb (bstr "smpl") (bstr "smpl")) with true; cbv iota beta.
  rewrite (read_at F (p ++ bstr "smpl" ++ le_bytes 4 (zlen d)) d (pad d ++ s) (pos + 8))
    by first [rewrite HF, <- !app_assoc; reflexivity
             | rewrite !length_app, length_le_bytes, !Nat2Z.inj_add; subst pos; unfold zlen;
               change (length (bstr "smpl")) with 4%nat; lia].
  rewrite (skip_pad_at F (p ++ bstr "smpl" ++ le_bytes 4 (zlen d) ++ d) d s (pos + 8 + zlen d))
    by first [rewrite HF, <- !app_assoc; reflexivity
             | rewrite !length_app, length_le_bytes, !Nat2Z.inj_add; subst pos; unfold zlen;
               change (length (bstr "smpl")) with 4%nat; lia].
  cbn [sdta_loop]; replace (pos + 8 + zlen d + zlen (pad d) <? list_end) with false
    by (symmetry; apply Z.ltb_ge; lia).
  subst list_end; reflexivity.
Qed.

Lemma pdta_loop_at items : forall p s sf2 sf2' n pos list_end,
  F = p ++ concat (map pdta_entry items) ++ s -> pos = zlen p ->
  list_end = pos + zlen (concat (map pdta_entry items)) ->
  Forall pdta_ok items -> (length items < n)%nat ->
  foldM (fun m tb => pdta_record (fst tb) (snd tb) m) sf2 items = Ok sf2' ->
  pdta_loop F n list_end pos sf2 = Ok (list_end, sf2').
Proof.
  induction items as [|[t b] items IH]; intros p s sf2 sf2' n pos list_end HF Hp Hle Hok Hn Hf;
    (destruct n as [|n]; [simpl in Hn; lia|]); cbn [pdta_loop].
  - simpl in Hle; unfold zlen in Hle; simpl in Hle.
    replace (pos <? list_end) with false by (symmetry; apply Z.ltb_ge; lia).
    simpl in Hf; injection Hf as <-; subst; rewrite Z.add_0_r; reflexivity.
  - apply Forall_cons_iff in Hok as [[Ht [Ha [Hb He]]] Hok']; subst pos; cbn [fst snd] in *.
    cbn [map concat foldM] in *.
    change (pdta_entry (t, b)) with (t ++ le_bytes 4 (zlen b) ++ b) in *.
    rewrite !zlen_app, zlen_le_bytes in Hle.
    pose proof (zlen_nonneg b); pose proof (zlen_nonneg (concat (map pdta_entry items))).
    assert (Ht4 : zlen t = 4) by (unfold zlen; rewrite Ht; reflexivity).
    replace (zlen p <? list_end) with true by (symmetry; apply Z.ltb_lt; lia).
    rewrite (read_chunk_header_at F p t (zlen b) (b ++ concat (map pdta_entry items) ++ s) (zlen p))
      by (rewrite ?HF, <- ?app_assoc; reflexivity || assumption || (split; lia)).
    cbn [bind].
    rewrite (read_at F (p ++ t ++ le_bytes 4 (zlen b)) b (concat (map pdta_entry items) ++ s)
               (zlen p + 8))
      by first [rewrite HF, <- !app_assoc; reflexivity
               | rewrite !length_app, length_le_bytes, !Nat2Z.inj_add, Ht; unfold zlen; lia].
    rewrite (skip_pad_at F (p ++ t ++ le_bytes 4 (zlen b) ++ b) b
               (concat (map pdta_entry items) ++ s) (zlen p + 8 + zlen b))
      by first [rewrite HF, <- !app_assoc, (pad_even b He); reflexivity
               | rewrite !length_app, length_le_bytes, !Nat2Z.inj_add, Ht; unfold zlen; lia].
    rewrite (pad_even b He); apply bind_Ok_inv in Hf as (m & Hm & Hf).
    cbn [fst snd] in Hm; rewrite Hm; cbn [bind].
    apply (IH (p ++ t ++ le_bytes 4 (zlen b) ++ b) s m); try assumption.
    + rewrite HF, <- !app_assoc; reflexivity.
    + rewrite !zlen_app, zlen_le_bytes, Ht4; change (zlen (@nil Z)) with 0; lia.
    + rewrite Ht4 in Hle; change (zlen (@nil Z)) with 0; lia.
    + simpl in Hn; lia.
Qed.
End Reader3.

Lemma bag_to_bytes_length b d : SF2Bag.to_bytes b = Ok d -> length d = 4%nat.
Proof. unfold SF2Bag.to_bytes; intros H; unpack_writes H; rewrite length_app, !length_le_bytes; reflexivity. Qed.

Lemma generator_to_bytes_length g d : SF2Generator.to_bytes g = Ok d -> length d = 4%nat.
Proof.
  unfold SF2Generator.to_bytes; intros H; unpack_writes H;
    rewrite length_app, !length_le_bytes; reflexivity.
Qed.

Lemma modulator_to_bytes_length m d : SF2Modulator.to_bytes m = Ok d -> length d = 10%nat.
Proof.
  unfold SF2Modulator.to_bytes; intros H; unpack_writes H;
    rewrite !length_app, !length_le_bytes; reflexivity.
Qed.

Lemma length_concat_const (size : nat) (parts : list (list Z)) :
  Forall (fun q : list Z => length q = size) parts -> length (concat parts) = (size * length parts)%nat.
Proof.
  induction 1 as [|q t Hq _ IH]; simpl; [lia|]; rewrite length_app, IH, Hq; lia.
Qed.

Lemma slices_concat (size : nat) (parts : list (list Z)) n :
  (0 < size)%nat -> Forall (fun q => length q = size) parts -> (length parts <= n)%nat ->
  slices n size (concat parts) = parts.
Proof.
  intros Hs Hp; revert n; induction Hp as [|q t Hq _ IH]; intros n Hn.
  - destruct n; reflexivity.
  - destruct n as [|n]; [simpl in Hn; lia|]; cbn [concat slices].
    destruct q as [|a q']; [simpl in Hq; lia|].
    cbn [app]; rewrite (app_comm_cons q' (concat t) a).
    rewrite firstn_app, skipn_app, (firstn_all2 (a :: q')), (skipn_all2 (a :: q')), Hq,
      Nat.sub_diag by lia.
    cbn [firstn skipn app]; rewrite app_nil_r, IH by (simpl in Hn; lia); reflexivity.
Qed.

Section Codec.
Context {A : Type} (to_bytes : A -> res (list Z)) (from_bytes : list Z -> res A)
        (read_back : A -> A) (size : nat).
Hypothesis codec : forall r d, to_bytes r = Ok d -> length d = size /\ from_bytes d = Ok (read_back r).

Lemma mapM_codec l parts :
  mapM to_bytes l = Ok parts ->
  Forall (fun q => length q = size) parts /\ mapM from_bytes parts = Ok (map read_back l).
Proof.
  revert parts; induction l as [|r t IH]; intros parts H; simpl in H.
  - injection H as <-; split; [constructor | reflexivity].
  - apply bind_Ok_inv in H as (d & Hd & H); apply bind_Ok_inv in H as (ds & Hds & H).
    injection H as <-; apply codec in Hd as [Hl Hf]; apply IH in Hds as [Hl' Hf'].
    split; [constructor; assumption|]; simpl; rewrite Hf, Hf'; reflexivity.
Qed.

Lemma pdta_sub_codec tag l b :
  (0 < size)%nat -> Nat.Even size -> pdta_sub tag to_bytes l = Ok b ->
  exists body, b = pdta_entry (bstr tag, body) /\ zlen body < 2 ^ 32 /\
               Z.even (zlen body) = true /\
               decode_records size from_bytes body = Ok (map read_back l).
Proof.
  intros Hs [k Hk] H; unfold pdta_sub in H.
  apply bind_Ok_inv in H as (parts & Hparts & H); apply bind_Ok_inv in H as (sz & Hsz & H).
  injection H as <-; apply pack_u_inv in Hsz as [-> Hr].
  change (2 ^ (8 * Z.of_nat 4)) with (2 ^ 32) in Hr.
  apply mapM_codec in Hparts as [Hl Hf].
  exists (cat parts); split; [reflexivity|]; split; [lia|].
  unfold cat, decode_records, zlen; rewrite (length_concat_const size) by assumption.
  split.
  - rewrite Hk, <- Nat.mul_assoc, Nat2Z.inj_mul, Z.even_mul; reflexivity.
  - rewrite slices_concat by (assumption || nia); exact Hf.
Qed.
End Codec.

Lemma encode_ascii_ok s b : encode_ascii s = Ok b -> b = s /\ forallb (fun c => c <? 128) s = true.
Proof.
  unfold encode_ascii; destruct (forallb _ s) eqn:E; intros H; [|discriminate].
  injection H as <-; split; [reflexivity|].
  apply forallb_forall; intros c Hc; apply (proj1 (forallb_forall _ s) E) in Hc.
  apply andb_true_iff in Hc; apply Hc.
Qed.

Lemma info_data_inv m b :
  info_data m = Ok b ->
  b = concat (map info_entry (SF2File.info_chunks m)) /\
  Forall (fun kv => forallb (fun c => c <? 128) (fst kv) = true /\ zlen (snd kv) < 2 ^ 32)
    (SF2File.info_chunks m).
Proof.
  intros H; unfold info_data in H.
  match type of H with foldM ?f _ _ = _ => set (g := f) in H end.
  assert (G : forall kvs acc, foldM g acc kvs = Ok b ->
    b = acc ++ concat (map info_entry kvs) /\
    Forall (fun kv => forallb (fun c => c <? 128) (fst kv) = true /\ zlen (snd kv) < 2 ^ 32) kvs).
  { induction kvs as [|[k v] t IH]; intros acc Hf; cbn [foldM] in Hf.
    - injection Hf as <-; rewrite app_nil_r; split; [reflexivity | constructor].
    - apply bind_Ok_inv in Hf as (acc' & Hg & Hf); unfold g in Hg.
      apply bind_Ok_inv in Hg as (idb & Hid & Hg); apply bind_Ok_inv in Hg as (sz & Hsz & Hg).
      injection Hg as <-; apply encode_ascii_ok in Hid as [-> Ha].
      apply pack_u_inv in Hsz as [-> Hr]; change (2 ^ (8 * Z.of_nat 4)) with (2 ^ 32) in Hr.
      apply IH in Hf as [-> Hall]; split.
      + cbn [map concat]; unfold info_entry; cbn [fst snd]; rewrite <- !app_assoc; reflexivity.
      + constructor; [split; [assumption | cbn [snd]; lia] | assumption]. }
  exact (G _ [] H).
Qed.

Lemma sdta_data_inv m b :
  sdta_data m = Ok b ->
  b = bstr "smpl" ++ le_bytes 4 (zlen (SF2File.sample_data m)) ++ SF2File.sample_data m ++
      pad (SF2File.sample_data m) /\ zlen (SF2File.sample_data m) < 2 ^ 32.
Proof.
  unfold sdta_data, pack_len; intros H; apply bind_Ok_inv in H as (sz & Hsz & H).
  injection H as <-; apply pack_u_inv in Hsz as [-> Hr].
  change (2 ^ (8 * Z.of_nat 4)) with (2 ^ 32) in Hr; split; [reflexivity | lia].
Qed.

Lemma Ok_inj {A} (a b : A) : Ok a = Ok b -> a = b.
Proof. intros H; congruence. Qed.

Lemma pdta_record_phdr d m :
  pdta_record (bstr "phdr") d m =
    bind (decode_records 38 SF2Preset.from_bytes d) (fun l => Ok (Upd.add_presets m l)).
Proof. reflexivity. Qed.
Lemma pdta_record_pbag d m :
  pdta_record (bstr "pbag") d m =
    bind (decode_records 4 SF2Bag.from_bytes d) (fun l => Ok (Upd.add_preset_bags m l)).
Proof. reflexivity. Qed.
Lemma pdta_record_pmod d m :
  pdta_record (bstr "pmod") d m =
    bind (decode_records 10 SF2Modulator.from_bytes d) (fun l => Ok (Upd.add_preset_mods m l)).
Proof. reflexivity. Qed.
Lemma pdta_record_pgen d m :
  pdta_record (bstr "pgen") d m =
    bind (decode_records 4 SF2Generator.from_bytes d) (fun l => Ok (Upd.add_preset_gens m l)).
Proof. reflexivity. Qed.
Lemma pdta_record_inst d m :
  pdta_record (bstr "inst") d m =
    bind (decode_records 22 SF2Inst.from_bytes d) (fun l => Ok (Upd.add_instruments m l)).
Proof. reflexivity. Qed.
Lemma pdta_record_ibag d m :
  pdta_record (bstr "ibag") d m =
    bind (decode_records 4 SF2Bag.from_bytes d) (fun l => Ok (Upd.add_inst_bags m l)).
Proof. reflexivity. Qed.
Lemma pdta_record_imod d m :
  pdta_record (bstr "imod") d m =
    bind (decode_records 10 SF2Modulator.from_bytes d) (fun l => Ok (Upd.add_inst_mods m l)).
Proof. reflexivity. Qed.
Lemma pdta_record_igen d m :
  pdta_record (bstr "igen") d m =
    bind (decode_records 4 SF2Generator.from_bytes d) (fun l => Ok (Upd.add_inst_gens m l)).
Proof. reflexivity. Qed.
Lemma pdta_record_shdr d m :
  pdta_record (bstr "shdr") d m =
    bind (decode_records 46 SF2Sample.from_bytes d) (fun l => Ok (Upd.add_samples m l)).
Proof. reflexivity. Qed.

Lemma even_nat n : Nat.Even (2 * n).
Proof. exists n; reflexivity. Qed.

Ltac pdta_sub_part H codec x :=
  let b := fresh "b" in let Hb := fresh "Hb" in let E := fresh "E" in
  apply bind_Ok_inv in H as (b & Hb & H);
  apply (pdta_sub_codec _ _ _ _ codec) in Hb as (x & -> & ? & ? & E);
  [| lia | apply (even_nat 1) || apply (even_nat 2) || apply (even_nat 5)
        || apply (even_nat 11) || apply (even_nat 19) || apply (even_nat 23)].

Lemma pdta_data_inv m b :
  pdta_data m = Ok b ->
  exists b1 b2 b3 b4 b5 b6 b7 b8 b9,
    let items := [(bstr "phdr", b1); (bstr "pbag", b2); (bstr "pmod", b3); (bstr "pgen", b4);
                  (bstr "inst", b5); (bstr "ibag", b6); (bstr "imod", b7); (bstr "igen", b8);
                  (bstr "shdr", b9)] in
    b = concat (map pdta_entry items) /\ Forall pdta_ok items /\
    foldM (fun s tb => pdta_record (fst tb) (snd tb) s)
      (SF2File.mk (SF2File.info_chunks m) (SF2File.sample_data m) [] [] [] [] [] [] [] [] [] [])
      items = Ok (written_model m).
Proof.
  unfold pdta_data; intros H.
  pdta_sub_part H preset_from_to_bytes x1.
  pdta_sub_part H (fun r d Hd => conj (bag_to_bytes_length r d Hd) (bag_from_to_bytes r d Hd)) x2.
  pdta_sub_part H (fun r d Hd =>
    conj (modulator_to_bytes_length r d Hd) (modulator_from_to_bytes r d Hd)) x3.
  pdta_sub_part H (fun r d Hd =>
    conj (generator_to_bytes_length r d Hd) (generator_from_to_bytes r d Hd)) x4.
  pdta_sub_part H inst_from_to_bytes x5.
  pdta_sub_part H (fun r d Hd => conj (bag_to_bytes_length r d Hd) (bag_from_to_bytes r d Hd)) x6.
  pdta_sub_part H (fun r d Hd =>
    conj (modulator_to_bytes_length r d Hd) (modulator_from_to_bytes r d Hd)) x7.
  pdta_sub_part H (fun r d Hd =>
    conj (generator_to_bytes_length r d Hd) (generator_from_to_bytes r d Hd)) x8.
  pdta_sub_part H sample_from_to_bytes x9.
  apply Ok_inj in H; subst b.
  exists x1, x2, x3, x4, x5, x6, x7, x8, x9; cbv zeta; split;
    [cbn [concat map]; rewrite app_nil_r; reflexivity|]; split.
  - repeat (apply Forall_cons; [repeat split; (reflexivity || assumption)|]); apply Forall_nil.
  - cbn [foldM fst snd].
    rewrite pdta_record_phdr, E; cbn [bind]; rewrite pdta_record_pbag, E0; cbn [bind].
    rewrite pdta_record_pmod, E1; cbn [bind]; rewrite pdta_record_pgen, E2; cbn [bind].
    rewrite pdta_record_inst, E3; cbn [bind]; rewrite pdta_record_ibag, E4; cbn [bind].
    rewrite pdta_record_imod, E5; cbn [bind]; rewrite pdta_record_igen, E6; cbn [bind].
    rewrite pdta_record_shdr, E7; cbn [bind]; rewrite !map_id; reflexivity.
Qed.

Lemma even_app (a b : list Z) :
  Z.even (zlen a) = true -> Z.even (zlen b) = true -> Z.even (zlen (a ++ b)) = true.
Proof. intros Ha Hb; rewrite zlen_app, Z.even_add, Ha, Hb; reflexivity. Qed.

Lemma even_concat (l : list (list Z)) :
  Forall (fun x => Z.even (zlen x) = true) l -> Z.even (zlen (concat l)) = true.
Proof. induction 1; [reflexivity | apply even_app; assumption]. Qed.

Lemma odd_of_even x : Z.even x = true -> Z.odd x = false.
Proof. intros E; rewrite <- Z.negb_even, E; reflexivity. Qed.

Lemma length_concat_map_ge {A} (f : A -> list Z) l :
  (forall x, (1 <= length (f x))%nat) -> (length l <= length (concat (map f l)))%nat.
Proof.
  intros Hf; induction l as [|x t IH]; simpl; [lia|]; rewrite length_app; specialize (Hf x); lia.
Qed.

Lemma dict_set_new k v d :
  ~ In k (map fst d) -> Upd.dict_set k v d = d ++ [(k, v)].
Proof.
  induction d as [|[k' v'] t IH]; intros Hn; [reflexivity|]; cbn [Upd.dict_set].
  destruct (zlist_eqb k k') eqn:E.
  - apply zlist_eqb_eq in E; subst; exfalso; apply Hn; left; reflexivity.
  - rewrite IH; [reflexivity|]; intros Hi; apply Hn; right; exact Hi.
Qed.

Lemma set_info_fold kvs acc :
  NoDup (map fst (acc ++ kvs)) ->
  fold_left (fun m kv => Upd.set_info m (fst kv) (snd kv)) kvs
    (SF2File.mk acc [] [] [] [] [] [] [] [] [] [] []) =
  SF2File.mk (acc ++ kvs) [] [] [] [] [] [] [] [] [] [] [].
Proof.
  revert acc; induction kvs as [|[k v] t IH]; intros acc Hn; [rewrite app_nil_r; reflexivity|].
  cbn [fold_left fst snd]; unfold Upd.set_info; cbn [SF2File.info_chunks SF2File.sample_data
    SF2File.sample_data_24 SF2File.presets SF2File.preset_bags SF2File.preset_mods
    SF2File.preset_gens SF2File.instruments SF2File.inst_bags SF2File.inst_mods
    SF2File.inst_gens SF2File.samples].
  rewrite dict_set_new.
  - rewrite IH; [rewrite <- app_assoc; reflexivity|]; rewrite <- app_assoc; exact Hn.
  - rewrite map_app in Hn; cbn [map fst] in Hn; intros Hi.
    apply NoDup_remove_2 in Hn; apply Hn, in_or_app; left; exact Hi.
Qed.

Section Riff.
Variable F : list Z.

Lemma riff_list_at n end_pos p ty body s pos sf2 :
  F = p ++ bstr "LIST" ++ le_bytes 4 (zlen (ty ++ body)) ++ ty ++ body ++ s ->
  pos = zlen p -> pos < end_pos -> length ty = 4%nat -> forallb (fun c => c <? 128) ty = true ->
  zlen (ty ++ body) < 2 ^ 32 ->
  riff_loop F (S n) end_pos pos sf2 =
    (let list_end := pos + 8 + zlen (ty ++ body) in
     if zlist_eqb ty (bstr "INFO") then
       let* '(pos, sf2) := info_loop F (fuel F) list_end (pos + 8 + 4) sf2 in
       riff_loop F n end_pos pos sf2
     else if zlist_eqb ty (bstr "sdta") then
       let* '(pos, sf2) := sdta_loop F (fuel F) list_end (pos + 8 + 4) sf2 in
       riff_loop F n end_pos pos sf2
     else if zlist_eqb ty (bstr "pdta") then
       let* '(pos, sf2) := pdta_loop F (fuel F) list_end (pos + 8 + 4) sf2 in
       riff_loop F n end_pos pos sf2
     else riff_loop F n end_pos (pos + 8 + 4) sf2).
Proof.
  intros HF Hp Hlt Hty Ha Hsz; cbn [riff_loop].
  replace (pos <? end_pos) with true by (symmetry; apply Z.ltb_lt; lia).
  pose proof (zlen_nonneg (ty ++ body)).
  rewrite (read_chunk_header_at F p (bstr "LIST") (zlen (ty ++ body)) (ty ++ body ++ s) pos)
    by (assumption || reflexivity || (symmetry; assumption) || (split; lia)).
  cbn [bind]; change (zlist_eqb (bstr "LIST") (bstr "LIST")) with true; cbv iota beta.
  assert (Hz : zlen ty = 4) by (unfold zlen; rewrite Hty; reflexivity).
  replace 4 with (zlen ty) at 1 by assumption.
  rewrite (read_at F (p ++ bstr "LIST" ++ le_bytes 4 (zlen (ty ++ body))) ty (body ++ s) (pos + 8))
    by first [rewrite HF, <- !app_assoc; reflexivity
             | rewrite !length_app, length_le_bytes, !Nat2Z.inj_add; subst pos; unfold zlen;
               change (length (bstr "LIST")) with 4%nat; lia].
  unfold decode_ascii; rewrite Ha; cbn [bind]; rewrite Hz; reflexivity.
Qed.

Lemma riff_info_at n end_pos p body s pos sf2 :
  F = p ++ bstr "LIST" ++ le_bytes 4 (zlen (bstr "INFO" ++ body)) ++ bstr "INFO" ++ body ++ s ->
  pos = zlen p -> pos < end_pos -> zlen (bstr "INFO" ++ body) < 2 ^ 32 ->
  riff_loop F (S n) end_pos pos sf2 =
    let* '(pos', sf2') := info_loop F (fuel F) (pos + 8 + zlen (bstr "INFO" ++ body))
                            (pos + 8 + 4) sf2 in
    riff_loop F n end_pos pos' sf2'.
Proof. intros; rewrite (riff_list_at n end_pos p (bstr "INFO") body s) by (assumption || reflexivity); reflexivity. Qed.

Lemma riff_sdta_at n end_pos p body s pos sf2 :
  F = p ++ bstr "LIST" ++ le_bytes 4 (zlen (bstr "sdta" ++ body)) ++ bstr "sdta" ++ body ++ s ->
  pos = zlen p -> pos < end_pos -> zlen (bstr "sdta" ++ body) < 2 ^ 32 ->
  riff_loop F (S n) end_pos pos sf2 =
    let* '(pos', sf2') := sdta_loop F (fuel F) (pos + 8 + zlen (bstr "sdta" ++ body))
                            (pos + 8 + 4) sf2 in
    riff_loop F n end_pos pos' sf2'.
Proof. intros; rewrite (riff_list_at n end_pos p (bstr "sdta") body s) by (assumption || reflexivity); reflexivity. Qed.

Lemma riff_pdta_at n end_pos p body s pos sf2 :
  F = p ++ bstr "LIST" ++ le_bytes 4 (zlen (bstr "pdta" ++ body)) ++ bstr "pdta" ++ body ++ s ->
  pos = zlen p -> pos < end_pos -> zlen (bstr "pdta" ++ body) < 2 ^ 32 ->
  riff_loop F (S n) end_pos pos sf2 =
    let* '(pos', sf2') := pdta_loop F (fuel F) (pos + 8 + zlen (bstr "pdta" ++ body))
                            (pos + 8 + 4) sf2 in
    riff_loop F n end_pos pos' sf2'.
Proof. intros; rewrite (riff_list_at n end_pos p (bstr "pdta") body s) by (assumption || reflexivity); reflexivity. Qed.

Lemma riff_end n end_pos pos sf2 : end_pos <= pos -> riff_loop F (S n) end_pos pos sf2 = Ok (pos, sf2).
Proof.
  intros H; cbn [riff_loop]; replace (pos <? end_pos) with false by (symmetry; apply Z.ltb_ge; lia);
    reflexivity.
Qed.
End Riff.

Lemma list_size_even l : Z.even (zlen l) = true -> list_size l = 8 + zlen l.
Proof. intros E; unfold list_size; rewrite (odd_of_even _ E); lia. Qed.

Lemma write_chunk_inv id d c :
  write_chunk id d = Ok c -> c = id ++ le_bytes 4 (zlen d) ++ d ++ pad d /\ zlen d < 2 ^ 32.
Proof.
  unfold write_chunk, pack_len; intros H; apply bind_Ok_inv in H as (sz & Hsz & H).
  injection H as <-; apply pack_u_inv in Hsz as [-> Hr].
  change (2 ^ (8 * Z.of_nat 4)) with (2 ^ 32) in Hr; split; [reflexivity | lia].
Qed.

Ltac pos_arith :=
  rewrite ?zlen_app, ?zlen_le_bytes in *;
  repeat match goal with
         | |- context [zlen (bstr ?s)] => change (zlen (bstr s)) with 4
         | H : context [zlen (bstr ?s)] |- _ => change (zlen (bstr s)) with 4 in H
         end;
  unfold zlen in *; lia.

Ltac file_eq HF := rewrite HF, <- !app_assoc; reflexivity.

(** Round trip of the writer and the reader: when [write_sf2] writes a model
    whose INFO ids are distinct and four characters long, [parse_sf2] reads
    the written file, followed by any trailing bytes, back as the same model
    with the sm24 data dropped, the names cut to 20 characters and stripped
    of trailing NULs, the runtime fields reset, each record's index field
    replaced by its [new_bag_idx], and each sample's positions moved by
    [new_start]. *)
Theorem write_sf2_parse_sf2 (m : SF2File.t) (f rest : list Z) :
  write_sf2 m = Ok f ->
  NoDup (map fst (SF2File.info_chunks m)) ->
  Forall (fun kv => length (fst kv) = 4%nat) (SF2File.info_chunks m) ->
  parse_sf2 (f ++ rest) = Ok (written_model m).
Proof.
  intros H Hnd Hk4; unfold write_sf2 in H.
  apply bind_Ok_inv in H as (info & Hinfo & H); apply bind_Ok_inv in H as (sdta & Hsdta & H).
  apply bind_Ok_inv in H as (pdta & Hpdta & H); apply bind_Ok_inv in H as (ts & Hts & H).
  apply bind_Ok_inv in H as (c1 & Hc1 & H); apply bind_Ok_inv in H as (c2 & Hc2 & H).
  apply bind_Ok_inv in H as (c3 & Hc3 & H); apply Ok_inj in H; subst f.
  apply info_data_inv in Hinfo as [-> Hiok]; apply sdta_data_inv in Hsdta as [-> Hd].
  apply pdta_data_inv in Hpdta as (b1 & b2 & b3 & b4 & b5 & b6 & b7 & b8 & b9 & Hp).
  cbv zeta in Hp; destruct Hp as (-> & Hpok & Hfold).
  match type of Hfold with foldM _ _ ?it = _ => set (items := it) in * end.
  set (kvs := SF2File.info_chunks m) in *; set (d := SF2File.sample_data m) in *.
  apply pack_u_inv in Hts as [-> Hts]; change (2 ^ (8 * Z.of_nat 4)) with (2 ^ 32) in Hts.
  apply write_chunk_inv in Hc1 as [-> Hz1]; apply write_chunk_inv in Hc2 as [-> Hz2].
  apply write_chunk_inv in Hc3 as [-> Hz3].
  assert (E1 : Z.even (zlen (bstr "INFO" ++ concat (map info_entry kvs))) = true).
  { apply even_app; [reflexivity|]; apply even_concat, Forall_forall; intros x Hx.
    apply in_map_iff in Hx as (kv & <- & Hin); apply (proj1 (Forall_forall _ _) Hk4) in Hin.
    unfold info_entry; apply even_app; [unfold zlen; rewrite Hin; reflexivity|].
    apply even_app; [reflexivity | apply even_pad]. }
  assert (E2 : Z.even (zlen (bstr "sdta" ++ bstr "smpl" ++ le_bytes 4 (zlen d) ++ d ++ pad d))
               = true).
  { apply even_app; [reflexivity|]; apply even_app; [reflexivity|];
      apply even_app; [reflexivity | apply even_pad]. }
  assert (E3 : Z.even (zlen (bstr "pdta" ++ concat (map pdta_entry items))) = true).
  { apply even_app; [reflexivity|]; apply even_concat, Forall_forall; intros x Hx.
    apply in_map_iff in Hx as (tb & <- & Hin); apply (proj1 (Forall_forall _ _) Hpok) in Hin.
    destruct Hin as (Hl & _ & _ & He); unfold pdta_entry; apply even_app;
      [unfold zlen; rewrite Hl; reflexivity | apply even_app; [reflexivity | exact He]]. }
  rewrite (pad_even _ E1), (pad_even _ E2), (pad_even _ E3) in *.
  rewrite (list_size_even _ E1), (list_size_even _ E2), (list_size_even _ E3) in *.
  rewrite !app_nil_r.
  match goal with |- parse_sf2 ?x = _ => remember x as F eqn:HF end.
  assert (HlenF : (length (concat (map info_entry kvs)) + 12 <= length F)%nat).
  { rewrite HF, !length_app, length_le_bytes; change (length (bstr "RIFF")) with 4%nat;
      change (length (bstr "sfbk")) with 4%nat; lia. }
  unfold parse_sf2.
  rewrite (read_chunk_header_at F [] (bstr "RIFF") _ _ 0) by
    first [file_eq HF | reflexivity | lia].
  cbn [bind]; rewrite (proj2 (zlist_eqb_eq _ _) eq_refl); cbn [negb].
  change (read F (0 + 8) 4) with (read F (0 + 8) (zlen (bstr "sfbk"))).
  match type of HF with F = (bstr "RIFF" ++ ?ts ++ bstr "sfbk" ++ ?s) ++ ?r =>
    rewrite (read_at F (bstr "RIFF" ++ ts) (bstr "sfbk") (s ++ r) (0 + 8))
      by first [file_eq HF | reflexivity] end.
  change (decode_ascii (bstr "sfbk")) with (@Ok (list Z) (bstr "sfbk")); cbn [bind].
  rewrite (proj2 (zlist_eqb_eq _ _) eq_refl); cbn [negb].
  assert (Hok : Forall info_ok kvs).
  { apply Forall_forall; intros kv Hin; split; [exact (proj1 (Forall_forall _ _) Hk4 kv Hin)|].
    exact (proj1 (Forall_forall _ _) Hiok kv Hin). }
  assert (Hkn : (length kvs < fuel F)%nat).
  { unfold fuel; pose proof (length_concat_map_ge info_entry kvs) as G.
    enough (forall x, (1 <= length (info_entry x))%nat) by (specialize (G H); lia).
    intros x; unfold info_entry; rewrite !length_app, length_le_bytes; lia. }
  assert (Hfu : fuel F = S (S (S (S (length F - 3))))) by (unfold fuel; lia).
  rewrite Hfu; change SF2File.empty with (SF2File.mk [] [] [] [] [] [] [] [] [] [] [] []).
  match type of HF with F = (bstr "RIFF" ++ ?ts ++ bstr "sfbk" ++ ?c1 ++ ?c2 ++ ?c3) ++ ?r =>
    rewrite (riff_info_at F _ _ (bstr "RIFF" ++ ts ++ bstr "sfbk") (concat (map info_entry kvs))
               (c2 ++ c3 ++ r)) by first [file_eq HF | assumption | pos_arith];
    rewrite (info_loop_at F kvs (bstr "RIFF" ++ ts ++ bstr "sfbk" ++ bstr "LIST" ++
               le_bytes 4 (zlen (bstr "INFO" ++ concat (map info_entry kvs))) ++ bstr "INFO")
               (c2 ++ c3 ++ r)) by first [file_eq HF | assumption | pos_arith]
  end.
  cbn [bind]; rewrite (set_info_fold kvs []) by exact Hnd; rewrite app_nil_l.
  match type of HF with F = (bstr "RIFF" ++ ?ts ++ bstr "sfbk" ++ ?c1 ++ ?c2 ++ ?c3) ++ ?r =>
    rewrite (riff_sdta_at F _ _ (bstr "RIFF" ++ ts ++ bstr "sfbk" ++ c1)
               (bstr "smpl" ++ le_bytes 4 (zlen d) ++ d ++ pad d) (c3 ++ r))
      by first [file_eq HF | assumption | pos_arith];
    rewrite (sdta_loop_at F (bstr "RIFF" ++ ts ++ bstr "sfbk" ++ c1 ++ bstr "LIST" ++
               le_bytes 4 (zlen (bstr "sdta" ++ bstr "smpl" ++ le_bytes 4 (zlen d) ++ d ++ pad d))
               ++ bstr "sdta") d (c3 ++ r))
      by first [file_eq HF | assumption | pos_arith | unfold fuel; lia];
    cbn [bind];
    rewrite (riff_pdta_at F _ _ (bstr "RIFF" ++ ts ++ bstr "sfbk" ++ c1 ++ c2)
               (concat (map pdta_entry items)) r)
      by first [file_eq HF | assumption | pos_arith];
    rewrite (pdta_loop_at F items (bstr "RIFF" ++ ts ++ bstr "sfbk" ++ c1 ++ c2 ++ bstr "LIST" ++
               le_bytes 4 (zlen (bstr "pdta" ++ concat (map pdta_entry items))) ++ bstr "pdta")
               r _ (written_model m))
      by first [file_eq HF | assumption | exact Hfold | pos_arith | unfold fuel, items; cbn [length]; lia]
  end.
  cbn [bind]; rewrite riff_end by pos_arith; reflexivity.
Qed.

Lemma write_sf2_parse_sf2_witness :
  parse_sf2 (Ex.basic_file ++ [1; 2; 3]) = Ok (written_model Ex.basic).
Proof.
  apply (write_sf2_parse_sf2 Ex.basic Ex.basic_file [1; 2; 3]).
  - vm_compute; reflexivity.
  - vm_compute; repeat constructor; simpl; tauto.
  - vm_compute; repeat constructor.
Defined.

Lemma firstn_app_len {A} (a b : list A) n : length a = n -> firstn n (a ++ b) = a.
Proof. intros <-; rewrite firstn_app, Nat.sub_diag, firstn_all; simpl; apply app_nil_r. Qed.

Lemma skipn_app_len {A} (a b : list A) n : length a = n -> skipn n (a ++ b) = b.
Proof. intros <-; rewrite skipn_app, skipn_all, Nat.sub_diag; reflexivity. Qed.

Lemma write_chunk_size id d c :
  length id = 4%nat -> write_chunk id d = Ok c ->
  zlen c = list_size d /\ Z.even (zlen c) = true.
Proof.
  intros Hid H; apply write_chunk_inv in H as [-> _]; split.
  - unfold list_size; rewrite !zlen_app, zlen_le_bytes, zlen_pad; unfold zlen at 1; rewrite Hid;
      simpl Z.of_nat; lia.
  - apply even_app; [unfold zlen; rewrite Hid; reflexivity|];
      apply even_app; [reflexivity | apply even_pad].
Qed.

(** [write_sf2] writes a well-formed RIFF header: the file starts with
    ["RIFF"], its size field is the length of the file minus 8, the form
    type at byte 8 is ["sfbk"], and the file has an even length. *)
Theorem write_sf2_riff_header (m : SF2File.t) (f : list Z) :
  write_sf2 m = Ok f ->
  firstn 4 f = bstr "RIFF" /\ le_val (firstn 4 (skipn 4 f)) = zlen f - 8 /\
  firstn 4 (skipn 8 f) = bstr "sfbk" /\ Z.even (zlen f) = true.
Proof.
  intros H; unfold write_sf2 in H.
  apply bind_Ok_inv in H as (info & _ & H); apply bind_Ok_inv in H as (sdta & _ & H).
  apply bind_Ok_inv in H as (pdta & _ & H); apply bind_Ok_inv in H as (ts & Hts & H).
  apply bind_Ok_inv in H as (c1 & Hc1 & H); apply bind_Ok_inv in H as (c2 & Hc2 & H).
  apply bind_Ok_inv in H as (c3 & Hc3 & H); apply Ok_inj in H; subst f.
  apply pack_u_inv in Hts as [-> Hts].
  apply write_chunk_size in Hc1 as [Z1 E1]; [|reflexivity].
  apply write_chunk_size in Hc2 as [Z2 E2]; [|reflexivity].
  apply write_chunk_size in Hc3 as [Z3 E3]; [|reflexivity].
  split; [apply firstn_app_len; reflexivity|].
  rewrite (skipn_app_len (bstr "RIFF")) by reflexivity.
  rewrite (firstn_app_len (le_bytes 4 _)) by apply length_le_bytes.
  rewrite le_val_le_bytes by exact Hts.
  split; [rewrite !zlen_app, zlen_le_bytes, Z1, Z2, Z3; change (zlen (bstr "RIFF")) with 4;
          change (zlen (bstr "sfbk")) with 4; lia|].
  rewrite app_assoc, (skipn_app_len (bstr "RIFF" ++ le_bytes 4 _))
    by (rewrite length_app, length_le_bytes; reflexivity).
  split; [apply firstn_app_len; reflexivity|].
  apply even_app; [reflexivity|]; apply even_app; [reflexivity|].
  apply even_app; [exact E1|]; apply even_app; assumption.
Qed.

Lemma write_sf2_riff_header_witness :
  firstn 4 Ex.basic_file = bstr "RIFF" /\
  le_val (firstn 4 (skipn 4 Ex.basic_file)) = zlen Ex.basic_file - 8 /\
  firstn 4 (skipn 8 Ex.basic_file) = bstr "sfbk" /\ Z.even (zlen Ex.basic_file) = true.
Proof. apply (write_sf2_riff_header Ex.basic); vm_compute; reflexivity. Defined.

(** [parse_sf2] accepts only a RIFF form of type sfbk: whenever it
    returns a model, the file starts with ["RIFF"] and has ["sfbk"] at
    byte 8. *)
Theorem parse_sf2_header (file : list Z) (m : SF2File.t) :
  parse_sf2 file = Ok m -> firstn 4 file = bstr "RIFF" /\ firstn 4 (skipn 8 file) = bstr "sfbk".
Proof.
  unfold parse_sf2; intros H.
  destruct (read_chunk_header file 0) as [[[rid rsz] pos]|e] eqn:Eh; [|discriminate].
  cbn [bind] in H; destruct (zlist_eqb rid (bstr "RIFF")) eqn:Er; [|discriminate].
  apply zlist_eqb_eq in Er; subst rid; cbn [negb] in H.
  unfold read_chunk_header, read in Eh; change (Z.to_nat 4) with 4%nat in Eh;
    change (Z.to_nat 0) with 0%nat in Eh; cbn [skipn] in Eh; cbv beta iota zeta in Eh.
  destruct (decode_ascii (firstn 4 file)) as [idb|e] eqn:Ed; cbn [bind] in Eh; [|discriminate].
  unfold decode_ascii in Ed; destruct (forallb _ (firstn 4 file)); [|discriminate].
  apply Ok_inj in Ed; subst idb; cbv beta iota zeta in Eh.
  destruct (unpack_check 4 _) as [[]|e] eqn:Eu; cbn [bind] in Eh; [|discriminate].
  unfold unpack_check in Eu; destruct (Nat.eqb _ 4) eqn:El; [|discriminate].
  apply Nat.eqb_eq in El.
  assert (Hf : firstn 4 file = bstr "RIFF") by congruence.
  assert (Hp : pos = 0 + zlen (firstn 4 file) + zlen (firstn 4 (skipn (Z.to_nat (0 + zlen (firstn 4 file))) file)))
    by congruence.
  rewrite Hf in El, Hp; change (zlen (bstr "RIFF")) with 4 in El, Hp.
  unfold zlen in Hp; rewrite El in Hp; assert (Hp8 : pos = 8) by lia; clear Hp; subst pos.
  split; [exact Hf|].
  unfold read in H; change (Z.to_nat 8) with 8%nat in H; change (Z.to_nat 4) with 4%nat in H.
  cbv beta iota zeta in H; destruct (decode_ascii (firstn 4 (skipn 8 file))) as [ft|e] eqn:Ed;
    cbn [bind] in H; [|discriminate].
  unfold decode_ascii in Ed; destruct (forallb (fun c => c <? 128) (firstn 4 (skipn 8 file)));
    [|discriminate]; apply Ok_inj in Ed; subst ft.
  destruct (zlist_eqb _ (bstr "sfbk")) eqn:Es; [|discriminate].
  apply zlist_eqb_eq in Es; exact Es.
Qed.

Lemma parse_sf2_header_witness :
  firstn 4 Ex.basic_file = bstr "RIFF" /\ firstn 4 (skipn 8 Ex.basic_file) = bstr "sfbk".
Proof. apply (parse_sf2_header Ex.basic_file (written_model Ex.basic)); vm_compute; reflexivity. Defined.

(** Encoding then decoding a fixed-size record gives it back: a bag or a
    generator takes 4 bytes, a modulator 10, and [from_bytes] reads each
    field as [to_bytes] wrote it, the signed modulator amount included. *)
Theorem fixed_records_codec_roundtrip :
  (forall b d, SF2Bag.to_bytes b = Ok d -> length d = 4%nat /\ SF2Bag.from_bytes d = Ok b) /\
  (forall g d, SF2Generator.to_bytes g = Ok d ->
               length d = 4%nat /\ SF2Generator.from_bytes d = Ok g) /\
  (forall m d, SF2Modulator.to_bytes m = Ok d ->
               length d = 10%nat /\ SF2Modulator.from_bytes d = Ok m).
Proof.
  split; [|split]; intros r d H; split.
  - exact (bag_to_bytes_length r d H).
  - exact (bag_from_to_bytes r d H).
  - exact (generator_to_bytes_length r d H).
  - exact (generator_from_to_bytes r d H).
  - exact (modulator_to_bytes_length r d H).
  - exact (modulator_from_to_bytes r d H).
Qed.

Lemma fixed_records_codec_roundtrip_witness :
  SF2Bag.from_bytes [3; 0; 7; 1] = Ok (SF2Bag.mk 3 263) /\
  SF2Modulator.from_bytes [1; 0; 2; 0; 156; 255; 3; 0; 4; 0] = Ok (SF2Modulator.mk 1 2 (-100) 3 4).
Proof.
  split.
  - apply (proj1 fixed_records_codec_roundtrip (SF2Bag.mk 3 263)); reflexivity.
  - apply (proj2 (proj2 fixed_records_codec_roundtrip) (SF2Modulator.mk 1 2 (-100) 3 4));
      reflexivity.
Defined.

(** Encoding then decoding a named record gives back the record as the
    writer sees it: a preset takes 38 bytes, an instrument 22 and a sample
    46; the name comes back cut to 20 characters and stripped of trailing
    NULs, the runtime fields take their defaults, the bag index is the
    written [new_bag_idx], and a sample's start, end and loop points are the
    ones moved by [new_start]. *)
Theorem named_records_codec_roundtrip :
  (forall p d, SF2Preset.to_bytes p = Ok d ->
               length d = 38%nat /\ SF2Preset.from_bytes d = Ok (preset_read_back p)) /\
  (forall i d, SF2Inst.to_bytes i = Ok d ->
               length d = 22%nat /\ SF2Inst.from_bytes d = Ok (inst_read_back i)) /\
  (forall s d, SF2Sample.to_bytes s = Ok d ->
               length d = 46%nat /\ SF2Sample.from_bytes d = Ok (sample_read_back s)).
Proof.
  split; [|split]; intros r d H.
  - exact (preset_from_to_bytes r d H).
  - exact (inst_from_to_bytes r d H).
  - exact (sample_from_to_bytes r d H).
Qed.

Lemma named_records_codec_roundtrip_witness :
  SF2Inst.from_bytes (bstr "Piano" ++ repeat 0 15 ++ [5; 0]) =
    Ok (SF2Inst.make (bstr "Piano") 5).
Proof.
  apply (proj1 (proj2 named_records_codec_roundtrip)
           (SF2Inst.mk (bstr "Piano" ++ [0; 0]) 9 3 5)); reflexivity.
Defined.

Lemma mapM_all_ok {A B} (f : A -> res B) l r :
  mapM f l = Ok r -> forall x, In x l -> exists y, f x = Ok y.
Proof.
  revert r; induction l as [|a t IH]; intros r H x Hx; [destruct Hx|]; simpl in H.
  apply bind_Ok_inv in H as (y & Hy & H); apply bind_Ok_inv in H as (ys & Hys & _).
  destruct Hx as [<- | Hx]; [exists y; exact Hy | exact (IH ys Hys x Hx)].
Qed.

Lemma pdta_sub_all_ok {A} tag (tb : A -> res (list Z)) l b :
  pdta_sub tag tb l = Ok b -> forall x, In x l -> exists y, tb x = Ok y.
Proof.
  unfold pdta_sub; intros H; apply bind_Ok_inv in H as (parts & Hp & _).
  exact (mapM_all_ok tb l parts Hp).
Qed.

Lemma pack_u_range n x l : pack_u n x = Ok l -> 0 <= x < 2 ^ (8 * Z.of_nat n).
Proof. intros H; apply pack_u_inv in H; apply H. Qed.

(** [write_sf2] never truncates an index: when it writes a file, every bag's
    generator and modulator indices, every generator's operator and amount,
    and the bag index written for every preset and instrument lie in
    [0, 65536). *)
Theorem write_sf2_index_ranges (m : SF2File.t) (f : list Z) :
  write_sf2 m = Ok f ->
  (forall b, In b (SF2File.preset_bags m ++ SF2File.inst_bags m) ->
     0 <= SF2Bag.gen_idx b < 65536 /\ 0 <= SF2Bag.mod_idx b < 65536) /\
  (forall g, In g (SF2File.preset_gens m ++ SF2File.inst_gens m) ->
     0 <= SF2Generator.oper g < 65536 /\ 0 <= SF2Generator.amount g < 65536) /\
  (forall p, In p (SF2File.presets m) -> 0 <= SF2Preset.new_bag_idx p < 65536) /\
  (forall i, In i (SF2File.instruments m) -> 0 <= SF2Inst.new_bag_idx i < 65536).
Proof.
  intros H; unfold write_sf2 in H.
  apply bind_Ok_inv in H as (info & _ & H); apply bind_Ok_inv in H as (sdta & _ & H).
  apply bind_Ok_inv in H as (pdta & Hp & _); unfold pdta_data in Hp.
  apply bind_Ok_inv in Hp as (x1 & P1 & Hp); apply bind_Ok_inv in Hp as (x2 & P2 & Hp).
  apply bind_Ok_inv in Hp as (x3 & P3 & Hp); apply bind_Ok_inv in Hp as (x4 & P4 & Hp).
  apply bind_Ok_inv in Hp as (x5 & P5 & Hp); apply bind_Ok_inv in Hp as (x6 & P6 & Hp).
  apply bind_Ok_inv in Hp as (x7 & P7 & Hp); apply bind_Ok_inv in Hp as (x8 & P8 & _).
  pose proof (pdta_sub_all_ok _ _ _ _ P1) as A1; pose proof (pdta_sub_all_ok _ _ _ _ P2) as A2;
  pose proof (pdta_sub_all_ok _ _ _ _ P4) as A4; pose proof (pdta_sub_all_ok _ _ _ _ P5) as A5;
  pose proof (pdta_sub_all_ok _ _ _ _ P6) as A6; pose proof (pdta_sub_all_ok _ _ _ _ P8) as A8.
  split; [|split; [|split]].
  - intros b Hb; apply in_app_or in Hb as [Hb | Hb];
      [destruct (A2 b Hb) as (y & Hy) | destruct (A6 b Hb) as (y & Hy)];
      unfold SF2Bag.to_bytes in Hy; apply bind_Ok_inv in Hy as (y1 & Y1 & Hy);
      apply bind_Ok_inv in Hy as (y2 & Y2 & _);
      apply pack_u_range in Y1, Y2; simpl in Y1, Y2; lia.
  - intros g Hg; apply in_app_or in Hg as [Hg | Hg];
      [destruct (A4 g Hg) as (y & Hy) | destruct (A8 g Hg) as (y & Hy)];
      unfold SF2Generator.to_bytes in Hy; apply bind_Ok_inv in Hy as (y1 & Y1 & Hy);
      apply bind_Ok_inv in Hy as (y2 & Y2 & _);
      apply pack_u_range in Y1, Y2; simpl in Y1, Y2; lia.
  - intros p Hin; destruct (A1 p Hin) as (y & Hy); unfold SF2Preset.to_bytes in Hy.
    apply bind_Ok_inv in Hy as (y0 & _ & Hy); apply bind_Ok_inv in Hy as (y1 & _ & Hy).
    apply bind_Ok_inv in Hy as (y2 & _ & Hy); apply bind_Ok_inv in Hy as (y3 & Y3 & _).
    apply pack_u_range in Y3; simpl in Y3; lia.
  - intros i Hin; destruct (A5 i Hin) as (y & Hy); unfold SF2Inst.to_bytes in Hy.
    apply bind_Ok_inv in Hy as (y0 & _ & Hy); apply bind_Ok_inv in Hy as (y1 & Y1 & _).
    apply pack_u_range in Y1; simpl in Y1; lia.
Qed.

Lemma write_sf2_index_ranges_witness :
  0 <= SF2Bag.gen_idx (Ex.bag 2 0) < 65536 /\ 0 <= SF2Bag.mod_idx (Ex.bag 2 0) < 65536.
Proof.
  refine (proj1 (write_sf2_index_ranges Ex.basic Ex.basic_file _) (Ex.bag 2 0) _).
  - vm_compute; reflexivity.
  - simpl; right; right; left; reflexivity.
Defined.

(** ** Bag tables of the subset *)

Lemma ssorted_app_last (l : list Z) x :
  StronglySorted Z.le l -> Forall (fun y => y <= x) l -> StronglySorted Z.le (l ++ [x]).
Proof.
  induction l as [|a t IH]; intros Hs Hf; simpl.
  - apply SSorted_cons; [apply SSorted_nil | apply Forall_nil].
  - apply StronglySorted_inv in Hs as [Ht Ha].
    apply Forall_cons_iff in Hf as [Hax Hf].
    apply SSorted_cons; [apply IH; assumption|].
    apply Forall_app; split; [exact Ha | apply Forall_cons; [exact Hax | apply Forall_nil]].
Qed.

Lemma foldM_snoc_length {A B} (f : list A -> B -> res (list A)) acc l r :
  (forall o x o', f o x = Ok o' -> exists y, o' = o ++ [y]) ->
  foldM f acc l = Ok r -> zlen acc <= zlen r.
Proof.
  intros Hf H.
  apply (foldM_inv (fun o => zlen acc <= zlen o) f acc l r); [lia| |exact H].
  intros a x a' _ Ha Hs; apply Hf in Hs as (y & ->).
  unfold zlen in *; rewrite length_app; simpl; lia.
Qed.

Lemma copy_zones_inv bags gens mods ro m acc s e r :
  zones_inv acc -> copy_zones bags gens mods ro m acc s e = Ok r -> zones_inv r.
Proof.
  unfold copy_zones; intros H0 H.
  eapply (foldM_inv zones_inv) in H; [exact H | exact H0 |].
  intros [[ob og] om] x a' _ Hi Hf.
  apply bind_Ok_inv in Hf as (old & _ & Hf).
  apply bind_Ok_inv in Hf as (ge & _ & Hf).
  apply bind_Ok_inv in Hf as (og' & Hg & Hf).
  apply bind_Ok_inv in Hf as (me & _ & Hf).
  apply bind_Ok_inv in Hf as (om' & Hm & Hf).
  apply Ok_inj in Hf; subst a'.
  assert (Lg : zlen og <= zlen og').
  { revert Hg; apply foldM_snoc_length.
    intros o y o' Hy; apply bind_Ok_inv in Hy as (gn & _ & Hy).
    apply Ok_inj in Hy; eexists; symmetry; exact Hy. }
  assert (Lm : zlen om <= zlen om').
  { revert Hm; apply foldM_snoc_length.
    intros o y o' Hy; apply bind_Ok_inv in Hy as (md & _ & Hy).
    apply Ok_inj in Hy; eexists; symmetry; exact Hy. }
  destruct Hi as (S1 & S2 & F).
  simpl; rewrite !map_app; simpl; unfold zlen in *; split; [|split].
  - apply ssorted_app_last; [exact S1|].
    apply Forall_forall; intros y Hy; apply in_map_iff in Hy as (b & <- & Hb).
    rewrite Forall_forall in F; specialize (F b Hb); lia.
  - apply ssorted_app_last; [exact S2|].
    apply Forall_forall; intros y Hy; apply in_map_iff in Hy as (b & <- & Hb).
    rewrite Forall_forall in F; specialize (F b Hb); lia.
  - apply Forall_app; split.
    + eapply Forall_impl; [|exact F]; intros b Hb; cbv beta in Hb; lia.
    + apply Forall_cons; [simpl; lia | apply Forall_nil].
Qed.

Lemma zones_inv_nil : zones_inv zones_nil.
Proof. repeat split; constructor. Qed.

Lemma build_insts_zones sf2 smap ki is irefs z imap n :
  build_insts sf2 smap ki = Ok (is, irefs, z, imap, n) -> zones_inv z.
Proof.
  unfold build_insts; intros H.
  apply (foldM_inv (fun acc : list SF2Inst.t * list Z
                     * (list SF2Bag.t * list SF2Generator.t * list SF2Modulator.t)
                     * list (Z * Z) * Z =>
                     let '(_, _, z, _, _) := acc in zones_inv z)) in H;
    [exact H | exact zones_inv_nil |].
  intros [[[[is0 r0] [[ob og] om]] im0] n0] x a' _ Ha Hf.
  cbv beta iota in Hf.
  destruct (py_norm (zlen is0) x) as [pos|]; [|discriminate].
  apply bind_Ok_inv in Hf as (inst & _ & Hf).
  apply bind_Ok_inv in Hf as (nxt & _ & Hf).
  apply bind_Ok_inv in Hf as (z' & Hz & Hf).
  apply Ok_inj in Hf; subst a'.
  exact (copy_zones_inv _ _ _ _ _ _ _ _ _ Ha Hz).
Qed.

Lemma build_presets_zones sf2 imap kept ps prefs z :
  build_presets sf2 imap kept = Ok (ps, prefs, z) -> zones_inv z.
Proof.
  unfold build_presets; intros H.
  apply (foldM_inv (fun acc : list SF2Preset.t * list Z
                     * (list SF2Bag.t * list SF2Generator.t * list SF2Modulator.t) =>
                     let '(_, _, z) := acc in zones_inv z)) in H;
    [exact H | exact zones_inv_nil |].
  intros [[ps0 r0] [[ob og] om]] x a' _ Ha Hf.
  cbv beta iota in Hf.
  apply bind_Ok_inv in Hf as (preset & _ & Hf).
  apply bind_Ok_inv in Hf as (pidx & _ & Hf).
  apply bind_Ok_inv in Hf as (nxt & _ & Hf).
  apply bind_Ok_inv in Hf as (z' & Hz & Hf).
  apply Ok_inj in Hf; subst a'.
  exact (copy_zones_inv _ _ _ _ _ _ _ _ _ Ha Hz).
Qed.

Lemma zones_inv_final b g m :
  zones_inv (b, g, m) ->
  bag_table_ok (b ++ [SF2Bag.mk (zlen g) (zlen m)]) (g ++ [gen0]) (m ++ [mod0]).
Proof.
  intros (S1 & S2 & F).
  pose proof (zlen_nonneg g) as N1; pose proof (zlen_nonneg m) as N2.
  assert (Eg : zlen (g ++ [gen0]) = zlen g + 1)
    by (unfold zlen; rewrite length_app; simpl; lia).
  assert (Em : zlen (m ++ [mod0]) = zlen m + 1)
    by (unfold zlen; rewrite length_app; simpl; lia).
  unfold bag_table_ok; rewrite Eg, Em, !map_app; simpl; split; [|split].
  - apply ssorted_app_last; [exact S1|].
    apply Forall_forall; intros y Hy; apply in_map_iff in Hy as (x & <- & Hx).
    rewrite Forall_forall in F; specialize (F x Hx); lia.
  - apply ssorted_app_last; [exact S2|].
    apply Forall_forall; intros y Hy; apply in_map_iff in Hy as (x & <- & Hx).
    rewrite Forall_forall in F; specialize (F x Hx); lia.
  - apply Forall_app; split.
    + eapply Forall_impl; [|exact F]; intros x Hx; cbv beta in Hx; lia.
    + apply Forall_cons; [simpl; lia | apply Forall_nil].
Qed.

(** Extra: the preset and instrument bag tables of every model [subset_sf2]
    returns are well formed.  The bags' generator and modulator start indices
    never decrease, and each one is a valid index of the output generator or
    modulator table (the terminal bag addresses the terminal generator and
    modulator).  In the no-match case all tables are empty. *)
Theorem subset_sf2_bag_tables sf2 needed out :
  subset_sf2 sf2 needed = Ok out ->
  bag_table_ok (SF2File.preset_bags out) (SF2File.preset_gens out) (SF2File.preset_mods out) /\
  bag_table_ok (SF2File.inst_bags out) (SF2File.inst_gens out) (SF2File.inst_mods out).
Proof.
  unfold subset_sf2; intros H.
  apply bind_Ok_inv in H as ([[st o] w] & Hs & H).
  apply Ok_inj in H; subst out.
  destruct (subset_sf2_st_inv _ _ _ Hs)
    as [Hk | (ki & ks & ss & nsd & srefs & smap & is & irefs & ibags & igens & imods & imap & n
              & ps & prefs & pbags & pgens & pmods & _ & _ & _ & _ & Hbi & Hbp & Hr)].
  - rewrite (subset_sf2_st_no_match _ _ Hk) in Hs.
    apply Ok_inj in Hs.
    assert (Ho : o = SF2File.mk (SF2File.info_chunks sf2) [] [] [] [] [] [] [] [] [] [] [])
      by congruence.
    subst o; simpl; unfold bag_table_ok; repeat split; constructor.
  - cbv zeta in Hr.
    injection Hr as _ Ho _; subst o; simpl.
    split; apply zones_inv_final.
    + exact (build_presets_zones _ _ _ _ _ _ Hbp).
    + exact (build_insts_zones _ _ _ _ _ _ _ _ Hbi).
Qed.

Lemma subset_sf2_bag_tables_witness :
  exists o, subset_sf2 Ex.basic [(0, 0)] = Ok o /\
    bag_table_ok (SF2File.preset_bags o) (SF2File.preset_gens o) (SF2File.preset_mods o) /\
    bag_table_ok (SF2File.inst_bags o) (SF2File.inst_gens o) (SF2File.inst_mods o).
Proof.
  destruct (subset_sf2 Ex.basic [(0, 0)]) as [o|e] eqn:E; [|vm_compute in E; discriminate].
  exists o; split; [reflexivity|].
  exact (subset_sf2_bag_tables Ex.basic [(0, 0)] o E).
Defined.

(** ** Index bookkeeping of the sample pass *)

Lemma nth_error_set_nth_eq {A} n (v : A) l :
  (n < length l)%nat -> nth_error (set_nth n v l) n = Some v.
Proof.
  revert n; induction l as [|x t IH]; intros [|n] H; simpl in *; try lia; [reflexivity|].
  apply IH; lia.
Qed.

Lemma nth_error_set_nth_ne {A} n m (v : A) l :
  n <> m -> nth_error (set_nth n v l) m = nth_error l m.
Proof.
  revert n m; induction l as [|x t IH]; intros [|n] [|m] H; simpl;
    first [reflexivity | congruence | apply IH; lia].
Qed.

Lemma lookup_app k l1 l2 :
  lookup k (l1 ++ l2) = match lookup k l1 with Some v => Some v | None => lookup k l2 end.
Proof.
  induction l1 as [|[k' v] t IH]; simpl; [reflexivity|].
  destruct (k =? k'); [reflexivity | exact IH].
Qed.

Lemma relink_cons ss smap r t :
  relink ss smap (r :: t) =
  relink (set_nth (Z.to_nat r)
            (SF2Sample.set_sample_link (deref (EOS 0) ss r)
               (match lookup (SF2Sample.sample_link (deref (EOS 0) ss r)) smap with
                | Some v => v
                | None => 0
                end)) ss) smap t.
Proof. reflexivity. Qed.

Lemma relink_other ss smap refs n :
  (forall r, In r refs -> Z.to_nat r <> n) -> nth_error (relink ss smap refs) n = nth_error ss n.
Proof.
  revert ss; induction refs as [|r t IH]; intros ss H; [reflexivity|].
  rewrite relink_cons, IH by (intros; apply H; right; assumption).
  apply nth_error_set_nth_ne, H; left; reflexivity.
Qed.

(** [relink] rewrites the link of each referenced sample once, from the link
    it had before. *)
Lemma relink_at ss smap refs k s :
  NoDup refs -> (forall r, In r refs -> 0 <= r) -> In k refs ->
  nth_error ss (Z.to_nat k) = Some s ->
  nth_error (relink ss smap refs) (Z.to_nat k) =
  Some (SF2Sample.set_sample_link s
          (match lookup (SF2Sample.sample_link s) smap with Some v => v | None => 0 end)).
Proof.
  revert ss; induction refs as [|r t IH]; intros ss Hd Hn Hk Hs; [destruct Hk|].
  apply NoDup_cons_iff in Hd as [Hr Hd].
  assert (Hk0 : 0 <= k) by (apply Hn; exact Hk).
  rewrite relink_cons.
  destruct (Z.eq_dec r k) as [<-|Hne].
  - rewrite relink_other.
    + unfold deref; erewrite nth_error_nth by exact Hs.
      apply nth_error_set_nth_eq, nth_error_Some; congruence.
    + intros r' Hr' E; apply Hr.
      assert (r' = r) by (pose proof (Hn r' (or_intror Hr')); lia); subst; exact Hr'.
  - destruct Hk as [Hk|Hk]; [contradiction|].
    apply IH; [exact Hd | intros; apply Hn; right; assumption | exact Hk|].
    rewrite nth_error_set_nth_ne; [exact Hs|].
    pose proof (Hn r (or_introl eq_refl)); lia.
Qed.

(** With non-negative sample references and links, the first pass collects
    a sorted set of non-negative sample indices. *)
Lemma collect_samples_nonneg sf2 ki ks :
  (forall g, In g (SF2File.inst_gens sf2) -> SF2Generator.oper g = GEN_SAMPLE_ID ->
             0 <= SF2Generator.amount g) ->
  (forall s, In s (SF2File.samples sf2) -> 0 <= SF2Sample.sample_link s) ->
  collect_samples sf2 ki = Ok ks -> Sorted Z.lt ks /\ forall x, In x ks -> 0 <= x.
Proof.
  intros Hg Hl H; unfold collect_samples in H.
  pose (P := fun acc : list Z => Sorted Z.lt acc /\ forall x, In x acc -> 0 <= x).
  eapply (foldM_inv P _ _ _ _ (conj (Sorted_nil _) (fun x (Hx : In x []) => match Hx with end)));
    [|exact H].
  intros a idx a' _ Ha Hf.
  apply bind_Ok_inv in Hf as (inst & _ & Hf).
  apply bind_Ok_inv in Hf as (be & _ & Hf).
  eapply (walk_zones_inv P _ _ _ _ _ _ _ Ha); [|exact Hf].
  intros b g b' Hgi [Hs Hr] Hv; unfold visit_sample_gen in Hv; cbv zeta in Hv.
  destruct (SF2Generator.oper g =? GEN_SAMPLE_ID) eqn:Eo; [|injection Hv as <-; split; assumption].
  apply Z.eqb_eq in Eo.
  apply bind_Ok_inv in Hv as (s & Hgs & Hv); injection Hv as <-.
  pose proof (Hg g Hgi Eo) as Ha0.
  pose proof (Hl s (py_get_In _ _ _ Hgs)) as Hl0.
  assert (Hb1 : P (zset_add (SF2Generator.amount g) b)).
  { split; [apply zset_add_sorted, Hs|]. apply zset_add_In_pred; [lia | exact Hr]. }
  destruct (negb (SF2Sample.sample_link s =? 0)
            && (SF2Sample.sample_link s <? zlen (SF2File.samples sf2))); [|exact Hb1].
  destruct Hb1 as [Hs1 Hr1]; split;
    [apply zset_add_sorted, Hs1 | apply zset_add_In_pred; [lia | exact Hr1]].
Qed.

(** The sample pass on a sorted list of non-negative indices: links are left
    alone, the [k]-th kept sample gets [new_index] [k], and the sample map
    sends each kept index to its position in the list. *)
Lemma build_samples_index sf2 ks ss nsd srefs smap :
  Sorted Z.lt ks -> (forall x, In x ks -> 0 <= x) ->
  build_samples sf2 ks = Ok (ss, nsd, srefs, smap) ->
  map SF2Sample.sample_link ss = map SF2Sample.sample_link (SF2File.samples sf2) /\
  (forall i k, nth_error ks i = Some k ->
     exists s, nth_error ss (Z.to_nat k) = Some s /\ SF2Sample.new_index s = Z.of_nat i) /\
  (forall j k, nth_error ks j = Some k -> lookup k smap = Some (Z.of_nat j)) /\
  (forall k, ~ In k ks -> lookup k smap = None).
Proof.
  intros Hso Hn; unfold build_samples; intros H.
  apply bind_Ok_inv in H as ([[[[ss0 nsd0] refs0] smap0] n0] & H & E).
  simpl in E; injection E as <- <- <- <-.
  pose proof (sorted_nodup _ Hso) as Hd.
  apply (foldM_inv_prefix (fun pre (a : list SF2Sample.t * list Z * list Z * list (Z * Z) * Z) =>
     let '(ss, _, _, smap, n) := a in
     n = Z.of_nat (length pre) /\
     map SF2Sample.sample_link ss = map SF2Sample.sample_link (SF2File.samples sf2) /\
     (forall i k, nth_error pre i = Some k ->
        exists s, nth_error ss (Z.to_nat k) = Some s /\ SF2Sample.new_index s = Z.of_nat i) /\
     (forall j k, nth_error pre j = Some k -> lookup k smap = Some (Z.of_nat j)) /\
     (forall k, ~ In k pre -> lookup k smap = None))) in H.
  - destruct H as (_ & H1 & H2 & H3 & H4); exact (conj H1 (conj H2 (conj H3 H4))).
  - split; [reflexivity|]; split; [reflexivity|]; split; [intros i k Hk; destruct i; discriminate|].
    split; [intros j k Hk; destruct j; discriminate | intros; reflexivity].
  - intros pre x post [[[[ss1 nsd1] refs1] smap1] n1] a' El (Hn1 & Hm & Hi & Hj & Hnone) Hf.
    cbv beta iota zeta in Hf.
    destruct (py_norm (zlen ss1) x) as [pos|] eqn:En; [|discriminate].
    apply bind_Ok_inv in Hf as (sample & Hsm & Hf).
    injection Hf as <-.
    assert (HxIn : In x ks) by (rewrite El; apply in_or_app; right; left; reflexivity).
    assert (Hx0 : 0 <= x) by (apply Hn, HxIn).
    destruct (py_norm_nonneg _ _ _ Hx0 En) as [-> _].
    assert (Hnx : ~ In x pre).
    { rewrite El in Hd; apply NoDup_remove_2 in Hd.
      intros Hx; apply Hd, in_or_app; left; exact Hx. }
    assert (Hpre : forall k, In k pre -> 0 <= k)
      by (intros k Hk; apply Hn; rewrite El; apply in_or_app; left; exact Hk).
    pose proof (py_get_norm _ _ _ _ En Hsm) as Ex.
    assert (Hlen : (Z.to_nat x < length ss1)%nat) by (apply nth_error_Some; congruence).
    split; [rewrite length_app; simpl; lia|].
    split; [rewrite (map_set_nth_same _ _ _ sample _ Ex); [exact Hm | destruct sample; reflexivity]|].
    split; [|split].
    + intros i k Hik.
      destruct (Nat.lt_ge_cases i (length pre)) as [Hlt|Hge].
      * rewrite nth_error_app1 in Hik by exact Hlt.
        destruct (Hi i k Hik) as (s & Es & Ei).
        exists s; split; [|exact Ei].
        rewrite nth_error_set_nth_ne; [exact Es|].
        intros E'; apply Hnx.
        assert (Hk0 : 0 <= k) by (apply Hpre; eapply nth_error_In; exact Hik).
        assert (x = k) by lia; subst k; eapply nth_error_In; exact Hik.
      * rewrite nth_error_app2 in Hik by exact Hge.
        destruct (i - length pre)%nat as [|m] eqn:Ei; simpl in Hik;
          [injection Hik as <- | destruct m; discriminate].
        eexists; split; [apply nth_error_set_nth_eq; exact Hlen|].
        cbn [SF2Sample.new_index SF2Sample.set_new]; lia.
    + intros j k Hjk; rewrite lookup_app.
      destruct (Nat.lt_ge_cases j (length pre)) as [Hlt|Hge].
      * rewrite nth_error_app1 in Hjk by exact Hlt; rewrite (Hj _ _ Hjk); reflexivity.
      * rewrite nth_error_app2 in Hjk by exact Hge.
        destruct (j - length pre)%nat as [|m] eqn:Ej; simpl in Hjk;
          [injection Hjk as <- | destruct m; discriminate].
        rewrite (Hnone _ Hnx); simpl; rewrite Z.eqb_refl; f_equal; lia.
    + intros k Hk; rewrite lookup_app, Hnone
        by (intros Hk'; apply Hk, in_or_app; left; exact Hk').
      simpl; destruct (Z.eqb_spec k x) as [->|]; [|reflexivity].
      exfalso; apply Hk, in_or_app; right; left; reflexivity.
Qed.

(** ** C8: what [subset_sf2] does to its input *)

(** C8 (as amended).  After [subset_sf2] returns, the input model has the
    same metadata, PCM blobs, bags, generators and modulators as before, and
    tables of the same lengths; a preset, instrument or sample record may
    differ from before only in the fields the function assigns, namely the
    runtime fields ([new_bag_idx]; [new_index], [new_bag_idx]; [new_index],
    [new_start], [new_end]) and the [sample_link] of a sample.  And when
    sample-generator amounts and sample links are non-negative (as in every
    parsed file), the records of the input it keeps are rewritten: the
    [i]-th retained sample index [k] (ascending order of the first pass's
    set [ks]) leaves the input's sample at [k] with [new_index = i] and its
    [sample_link] set to the position in [ks] of its old link, or to 0 when
    the old link is not in [ks]. *)
Theorem subset_sf2_input_mutation (sf2 inp out : SF2File.t) (needed : list (Z * Z))
    (w : list String.string) :
  subset_sf2_st sf2 needed = Ok (inp, out, w) ->
  SF2File.info_chunks inp = SF2File.info_chunks sf2 /\
  SF2File.sample_data inp = SF2File.sample_data sf2 /\
  SF2File.sample_data_24 inp = SF2File.sample_data_24 sf2 /\
  SF2File.preset_bags inp = SF2File.preset_bags sf2 /\
  SF2File.preset_mods inp = SF2File.preset_mods sf2 /\
  SF2File.preset_gens inp = SF2File.preset_gens sf2 /\
  SF2File.inst_bags inp = SF2File.inst_bags sf2 /\
  SF2File.inst_mods inp = SF2File.inst_mods sf2 /\
  SF2File.inst_gens inp = SF2File.inst_gens sf2 /\
  map preset_fixed (SF2File.presets inp) = map preset_fixed (SF2File.presets sf2) /\
  map inst_fixed (SF2File.instruments inp) = map inst_fixed (SF2File.instruments sf2) /\
  map sample_fixed (SF2File.samples inp) = map sample_fixed (SF2File.samples sf2) /\
  ((forall g, In g (SF2File.inst_gens sf2) -> SF2Generator.oper g = GEN_SAMPLE_ID ->
              0 <= SF2Generator.amount g) ->
   (forall s, In s (SF2File.samples sf2) -> 0 <= SF2Sample.sample_link s) ->
   forall ki ks, collect_insts sf2 (kept_presets sf2 needed) = Ok ki ->
   collect_samples sf2 ki = Ok ks ->
   forall i k, nth_error ks i = Some k ->
   exists s s', nth_error (SF2File.samples sf2) (Z.to_nat k) = Some s /\
     nth_error (SF2File.samples inp) (Z.to_nat k) = Some s' /\
     SF2Sample.new_index s' = Z.of_nat i /\
     ((exists j, nth_error ks j = Some (SF2Sample.sample_link s) /\
                 SF2Sample.sample_link s' = Z.of_nat j) \/
      (~ In (SF2Sample.sample_link s) ks /\ SF2Sample.sample_link s' = 0))).
Proof.
  intros H.
  destruct (subset_sf2_st_inv _ _ _ H) as [Hk | (ki & ks & ss & nsd & srefs & smap & is & irefs
      & ibags & igens & imods & imap & n & ps & prefs & pbags & pgens & pmods
      & _ & Hki & Hks & Hbs & Hbi & Hbp & Er)].
  - rewrite subset_sf2_st_no_match in H by exact Hk; injection H as <- _ _.
    do 12 (split; [reflexivity|]).
    intros _ _ ki ks Hki Hks i k Hik.
    rewrite Hk in Hki; unfold collect_insts in Hki; simpl in Hki; apply Ok_inj in Hki; subst ki.
    unfold collect_samples in Hks; simpl in Hks; apply Ok_inj in Hks; subst ks.
    destruct i; discriminate.
  - injection Er as Ei _ _; subst inp.
    destruct (build_presets_fixed _ _ _ _ _ _ (kept_presets_nonneg sf2 needed) Hbp) as [Hp _].
    destruct (build_insts_fixed _ _ _ _ _ _ _ _ Hbi) as [Hi _].
    destruct (build_samples_spec _ _ _ _ _ _ Hbs) as (Hs & _ & Hr & _).
    cbn [SF2File.info_chunks SF2File.sample_data SF2File.sample_data_24 SF2File.presets
         SF2File.preset_bags SF2File.preset_mods SF2File.preset_gens SF2File.instruments
         SF2File.inst_bags SF2File.inst_mods SF2File.inst_gens SF2File.samples].
    do 11 (split; [first [reflexivity | assumption]|]).
    split; [rewrite relink_fixed; exact Hs|].
    intros Hg Hl ki0 ks0 Hki0 Hks0 i k Hik.
    assert (ki0 = ki) by congruence; subst ki0.
    assert (ks0 = ks) by congruence; subst ks0.
    destruct (collect_samples_nonneg _ _ _ Hg Hl Hks) as [Hso Hn].
    specialize (Hr Hn); subst srefs.
    destruct (build_samples_index _ _ _ _ _ _ Hso Hn Hbs) as (Hm & Hix & Hj & Hnone).
    destruct (Hix i k Hik) as (s' & Es' & Ei).
    assert (Eo : nth_error (map SF2Sample.sample_link (SF2File.samples sf2)) (Z.to_nat k) =
                 Some (SF2Sample.sample_link s'))
      by (rewrite <- Hm, nth_error_map, Es'; reflexivity).
    rewrite nth_error_map in Eo.
    destruct (nth_error (SF2File.samples sf2) (Z.to_nat k)) as [s|] eqn:Es; [|discriminate].
    simpl in Eo; injection Eo as Eo.
    eexists s, _; split; [reflexivity|]; split.
    { apply relink_at; [apply sorted_nodup, Hso | exact Hn | eapply nth_error_In; exact Hik
                       | exact Es']. }
    split; [exact Ei|].
    rewrite <- Eo.
    destruct (lookup (SF2Sample.sample_link s) smap) as [v|] eqn:Lk.
    + left.
      destruct (In_dec Z.eq_dec (SF2Sample.sample_link s) ks) as [Hin|Hnin];
        [|rewrite (Hnone _ Hnin) in Lk; discriminate].
      apply In_nth_error in Hin as (j & Hjk).
      exists j; split; [exact Hjk|].
      rewrite (Hj _ _ Hjk) in Lk; simpl; congruence.
    + right; split; [|reflexivity].
      intros Hin; apply In_nth_error in Hin as (j & Hjk).
      rewrite (Hj _ _ Hjk) in Lk; discriminate.
Qed.

Lemma subset_sf2_input_mutation_witness :
  exists inp out w, subset_sf2_st Ex.stereo [(0, 0)] = Ok (inp, out, w) /\
    SF2File.inst_gens inp = SF2File.inst_gens Ex.stereo /\
    map sample_fixed (SF2File.samples inp) = map sample_fixed (SF2File.samples Ex.stereo) /\
    exists s s', nth_error (SF2File.samples Ex.stereo) (Z.to_nat 1) = Some s /\
      nth_error (SF2File.samples inp) (Z.to_nat 1) = Some s' /\
      SF2Sample.new_index s' = Z.of_nat 0 /\
      ((exists j, nth_error [1; 2] j = Some (SF2Sample.sample_link s) /\
                  SF2Sample.sample_link s' = Z.of_nat j) \/
       (~ In (SF2Sample.sample_link s) [1; 2] /\ SF2Sample.sample_link s' = 0)).
Proof.
  destruct (subset_sf2_st Ex.stereo [(0, 0)]) as [[[inp out] w]|e] eqn:E;
    [|vm_compute in E; discriminate].
  exists inp, out, w; split; [reflexivity|].
  pose proof (subset_sf2_input_mutation _ _ _ _ _ E) as Hm.
  split; [exact (proj1 (proj2 (proj2 (proj2 (proj2 (proj2 (proj2 (proj2 (proj2 Hm)))))))))|].
  split; [exact (proj1 (proj2 (proj2 (proj2 (proj2 (proj2 (proj2 (proj2 (proj2 (proj2 (proj2 (proj2 Hm))))))))))))|].
  apply (proj2 (proj2 (proj2 (proj2 (proj2 (proj2 (proj2 (proj2 (proj2 (proj2 (proj2 (proj2 Hm)))))))))))
           ltac:(intros g Hg _; simpl in Hg; destruct Hg as [<-|[<-|[]]]; simpl; lia)
           ltac:(intros s Hs; simpl in Hs; destruct Hs as [<-|[<-|[<-|[<-|[]]]]]; simpl; lia)
           [0] [1; 2]); [vm_compute; reflexivity | vm_compute; reflexivity | reflexivity].
Defined.

(** C8: the call rewrites the link of the input's sample 1 (2, its partner
    at index 2) into 1, the partner's index in the output. *)
Lemma subset_sf2_input_mutation_counterexample :
  exists inp out w, subset_sf2_st Ex.stereo [(0, 0)] = Ok (inp, out, w) /\
    SF2Sample.sample_link (nth 1 (SF2File.samples Ex.stereo) (EOS 0)) = 2 /\
    SF2Sample.sample_link (nth 1 (SF2File.samples inp) (EOS 0)) = 1.
Proof. vm_compute; do 3 eexists; split; [reflexivity | split; reflexivity]. Qed.

